(** * OTF e-mail scraper: the extraction pipeline of scripts/sync_emails.py

    Shallow embedding of the Python script and the properties its
    specification states about it.

    Modelling conventions.
    - A Python [str] is a Rocq [string]: a sequence of 8-bit characters, read
      as the code points U+0000..U+00FF.  The character classes of [re] are
      the ones CPython computes for these code points.
    - A Python exception is a value of [exn]; a call that may raise returns
      [py A], the error monad over it.
    - [dict] is a finite map from keys to Python values.
    - Code of third-party libraries (BeautifulSoup, the mail-date parser,
      the codec registry, the header decoder, IMAP, the store client) is
      not part of the script: it is a field of an interface record. *)

From Stdlib Require Import String Ascii List ZArith QArith Lia Bool.
From Stdlib Require Import DecimalString.
From stdpp Require Import base option gmap strings.

Local Open Scope bool_scope.
#[local] Arguments String.append !s1 s2 : simpl nomatch.

(* ================================================================== *)
(** ** Characters *)

Module Chr.

Definition code (c : ascii) : N := N_of_ascii c.

Definition between (lo hi : N) (c : ascii) : bool :=
  ((lo <=? code c) && (code c <=? hi))%N.

(** [\d] on U+0000..U+00FF: the decimal digits. *)
Definition is_digit (c : ascii) : bool := between 48 57 c.

(** [\s] on U+0000..U+00FF: TAB LF VT FF CR, FS GS RS US, SPACE, NEL,
    NBSP. *)
Definition is_space (c : ascii) : bool :=
  between 9 13 c || between 28 32 c
  || (code c =? 133)%N || (code c =? 160)%N.

Definition is_upper (c : ascii) : bool := between 65 90 c.
Definition is_lower (c : ascii) : bool := between 97 122 c.

(** [\w] on U+0000..U+00FF: alphanumeric code points and the underscore. *)
Definition is_word (c : ascii) : bool :=
  is_digit c || is_upper c || is_lower c || (code c =? 95)%N
  || (code c =? 170)%N || (code c =? 178)%N || (code c =? 179)%N
  || (code c =? 181)%N || (code c =? 185)%N || (code c =? 186)%N
  || between 188 190 c || between 192 214 c || between 216 246 c
  || between 248 255 c.

(** Case mapping, as far as it stays inside the letters A-Z, a-z: no other
    code point below U+0100 folds onto one of them. *)
Definition lower (c : ascii) : ascii :=
  if is_upper c then ascii_of_N (code c + 32) else c.
Definition upper (c : ascii) : ascii :=
  if is_lower c then ascii_of_N (code c - 32) else c.

Definition eqb (a b : ascii) : bool := (code a =? code b)%N.

(** Decimal value of a digit. *)
Definition digit_val (c : ascii) : Z := Z.of_N (code c) - 48.

End Chr.

(* ================================================================== *)
(** ** Strings *)

Module Str.

Fixpoint take (n : nat) (s : string) : string :=
  match n, s with
  | S n', String c s' => String c (take n' s')
  | _, _ => EmptyString
  end.

Fixpoint drop (n : nat) (s : string) : string :=
  match n, s with
  | S n', String _ s' => drop n' s'
  | _, _ => s
  end.

Fixpoint all (p : ascii -> bool) (s : string) : bool :=
  match s with
  | EmptyString => true
  | String c s' => p c && all p s'
  end.

Fixpoint filter (p : ascii -> bool) (s : string) : string :=
  match s with
  | EmptyString => EmptyString
  | String c s' => if p c then String c (filter p s') else filter p s'
  end.

Definition map (f : ascii -> ascii) : string -> string :=
  fix go s :=
    match s with
    | EmptyString => EmptyString
    | String c s' => String (f c) (go s')
    end.

(** [needle in s] *)
Fixpoint contains (needle s : string) : bool :=
  String.prefix needle s ||
  match s with
  | EmptyString => false
  | String _ s' => contains needle s'
  end.

(** [s.replace(c, '')] for a one-character [c]. *)
Definition remove_char (c : ascii) (s : string) : string :=
  filter (fun x => negb (Chr.eqb x c)) s.

(** Zero-padded decimal rendering on at least [width] digits. *)
Fixpoint zeros (n : nat) : string :=
  match n with
  | O => EmptyString
  | S n' => String "0" (zeros n')
  end.

Definition of_nat (n : nat) : string :=
  NilZero.string_of_uint (Nat.to_uint n).

Definition pad (width : nat) (n : nat) : string :=
  let d := of_nat n in
  zeros (width - String.length d) +:+ d.

End Str.

(* ================================================================== *)
(** ** The fragment of Python's [re] the script uses

    Quantifiers only ever apply to a single-character item in the patterns
    of the script and of the date parser ([\d{2,4}], [\s*], [S?], [[\d,]+],
    ...), so [RRep] quantifies a character set; optional groups are
    alternations with the empty pattern.  Matching is by backtracking, in
    the priority order of CPython's engine: a quantifier takes as many
    characters as it can and gives them back one at a time, an alternation
    tries its branches left to right. *)

Module Re.

Inductive cset : Type :=
| CChar (c : ascii)
| CRange (lo hi : ascii)
| CDigit
| CSpace
| CUnion (a b : cset).

Inductive regex : Type :=
| REps
| RSet (cs : cset)
| RRep (cs : cset) (lo : nat) (hi : option nat)
| RSeq (r1 r2 : regex)
| RAlt (r1 r2 : regex)
| RGroup (name : string) (r : regex)
| RWordB
| REnd
| RCase (ic : bool) (r : regex).

Fixpoint cset_has (cs : cset) (c : ascii) : bool :=
  match cs with
  | CChar x => Chr.eqb c x
  | CRange lo hi => Chr.between (Chr.code lo) (Chr.code hi) c
  | CDigit => Chr.is_digit c
  | CSpace => Chr.is_space c
  | CUnion a b => cset_has a c || cset_has b c
  end.

(** Membership under the IGNORECASE flag [ic]. *)
Definition cset_mem (ic : bool) (cs : cset) (c : ascii) : bool :=
  cset_has cs c
  || (ic && (cset_has cs (Chr.lower c) || cset_has cs (Chr.upper c))).

(** Captured groups, most recent first. *)
Definition captures : Type := list (string * string).

(** A successful match: its groups and the text after it. *)
Definition found : Type := (captures * string)%type.

(** Continuations receive the groups so far, the character before the
    current position (for [\b]) and the rest of the text. *)
Definition cont : Type := captures -> option ascii -> string -> option found.

Definition can_more (hi : option nat) : bool :=
  match hi with
  | Some O => false
  | _ => true
  end.

Definition one_less (hi : option nat) : option nat :=
  match hi with
  | Some n => Some (Nat.pred n)
  | None => None
  end.

(** Greedy bounded repetition of a one-character item. *)
Fixpoint rep (mem : ascii -> bool) (lo : nat) (hi : option nat)
         (k : option ascii -> string -> option found)
         (prev : option ascii) (s : string) {struct s} : option found :=
  let stop := match lo with O => k prev s | S _ => None end in
  match s with
  | EmptyString => stop
  | String c s' =>
      if mem c && can_more hi then
        match rep mem (Nat.pred lo) (one_less hi) k (Some c) s' with
        | Some m => Some m
        | None => stop
        end
      else stop
  end.

(** The character before the position reached after reading [w]. *)
Fixpoint prev_after (prev : option ascii) (w : string) : option ascii :=
  match w with
  | EmptyString => prev
  | String c w' => prev_after (Some c) w'
  end.

Definition is_word_opt (o : option ascii) : bool :=
  match o with
  | Some c => Chr.is_word c
  | None => false
  end.

Definition next_char (s : string) : option ascii :=
  match s with
  | EmptyString => None
  | String c _ => Some c
  end.

(** [\b]: exactly one side of the position is a word character. *)
Definition at_boundary (prev : option ascii) (s : string) : bool :=
  xorb (is_word_opt prev) (is_word_opt (next_char s)).

(** [$] without MULTILINE: the end of the text, or just before a final
    newline. *)
Definition at_end (s : string) : bool :=
  match s with
  | EmptyString => true
  | String c EmptyString => Chr.eqb c "010"
  | _ => false
  end.

Fixpoint rmatch (ic : bool) (r : regex) (k : cont) : cont :=
  fun caps prev s =>
    match r with
    | REps => k caps prev s
    | RSet cs =>
        match s with
        | String c s' =>
            if cset_mem ic cs c then k caps (Some c) s' else None
        | EmptyString => None
        end
    | RRep cs lo hi => rep (cset_mem ic cs) lo hi (k caps) prev s
    | RSeq r1 r2 => rmatch ic r1 (rmatch ic r2 k) caps prev s
    | RAlt r1 r2 =>
        match rmatch ic r1 k caps prev s with
        | Some m => Some m
        | None => rmatch ic r2 k caps prev s
        end
    | RGroup name r' =>
        rmatch ic r'
          (fun caps' prev' s' =>
             k ((name, Str.take (String.length s - String.length s') s)
                  :: caps') prev' s')
          caps prev s
    | RWordB => if at_boundary prev s then k caps prev s else None
    | REnd => if at_end s then k caps prev s else None
    | RCase ic' r' => rmatch ic' r' k caps prev s
    end.

Definition accept : cont := fun caps _ s => Some (caps, s).

(** A match starting exactly at the current position. *)
Definition match_here (ic : bool) (r : regex)
           (prev : option ascii) (s : string) : option found :=
  rmatch ic r accept [] prev s.

(** [re.match]: a match at the start of the text. *)
Definition re_match (ic : bool) (r : regex) (s : string) : option found :=
  match_here ic r None s.

(** Leftmost match at or after the current position. *)
Fixpoint search_from (ic : bool) (r : regex)
         (prev : option ascii) (s : string) : option found :=
  match match_here ic r prev s with
  | Some m => Some m
  | None =>
      match s with
      | EmptyString => None
      | String c s' => search_from ic r (Some c) s'
      end
  end.

(** [re.search] *)
Definition search (ic : bool) (r : regex) (s : string) : option found :=
  search_from ic r None s.

(** [m.group(name)] for a group that took part in the match. *)
Fixpoint lookup (name : string) (caps : captures) : string :=
  match caps with
  | [] => EmptyString
  | (n, v) :: rest => if String.eqb n name then v else lookup name rest
  end.

Definition group (m : found) (name : string) : string :=
  lookup name (fst m).

(** [re.sub(r, '', s)]: every non-overlapping match, leftmost first, is
    deleted.  [skip] counts the characters of the current match that are
    still to be dropped. *)
Fixpoint sub_empty_from (ic : bool) (r : regex) (skip : nat)
         (prev : option ascii) (s : string) : string :=
  match s with
  | EmptyString => EmptyString
  | String c s' =>
      match skip with
      | S n => sub_empty_from ic r n (Some c) s'
      | O =>
          match match_here ic r prev s with
          | Some (_, rest) =>
              match String.length s - String.length rest with
              | S n => sub_empty_from ic r n (Some c) s'
              | O => String c (sub_empty_from ic r O (Some c) s')
              end
          | None => String c (sub_empty_from ic r O (Some c) s')
          end
      end
  end.

Definition sub_empty (ic : bool) (r : regex) (s : string) : string :=
  sub_empty_from ic r O None s.

(** Pattern syntax. *)
Definition lit1 (c : ascii) : regex := RSet (CChar c).

Fixpoint lit (s : string) : regex :=
  match s with
  | EmptyString => REps
  | String c EmptyString => lit1 c
  | String c s' => RSeq (lit1 c) (lit s')
  end.

Fixpoint seq (rs : list regex) : regex :=
  match rs with
  | [] => REps
  | [r] => r
  | r :: rs' => RSeq r (seq rs')
  end.

Fixpoint alt (rs : list regex) : regex :=
  match rs with
  | [] => REps
  | [r] => r
  | r :: rs' => RAlt r (alt rs')
  end.

Definition star (cs : cset) : regex := RRep cs 0 None.
Definition plus (cs : cset) : regex := RRep cs 1 None.
Definition opt (cs : cset) : regex := RRep cs 0 (Some 1).
Definition opt_re (r : regex) : regex := RAlt r REps.


(** *** Concrete syntax

    The patterns are kept as the script writes them and read by [parse],
    which covers the syntax they use.  Unnamed groups are named by their
    number. *)

Fixpoint read_nat (acc : nat) (s : string) : nat * string :=
  match s with
  | String c s' =>
      if Chr.is_digit c
      then read_nat (acc * 10 + Z.to_nat (Chr.digit_val c)) s'
      else (acc, s)
  | EmptyString => (acc, s)
  end.

Definition escape_set (c : ascii) : cset :=
  if Chr.eqb c "d" then CDigit
  else if Chr.eqb c "s" then CSpace
  else CChar c.

Definition add_set (acc : option cset) (x : cset) : option cset :=
  match acc with
  | None => Some x
  | Some a => Some (CUnion a x)
  end.

(** The inside of [[...]], after the opening bracket; a hyphen just
    before the closing bracket stands for itself. *)
Fixpoint parse_class (s : string) (acc : option cset)
  : option (cset * string) :=
  match s with
  | EmptyString => None
  | String "]" rest =>
      match acc with
      | Some cs => Some (cs, rest)
      | None => None
      end
  | String "\" (String c rest) => parse_class rest (add_set acc (escape_set c))
  | String a s' =>
      match s' with
      | String "-" (String b rest) =>
          if Chr.eqb b "]" then parse_class s' (add_set acc (CChar a))
          else parse_class rest (add_set acc (CRange a b))
      | _ => parse_class s' (add_set acc (CChar a))
      end
  end.

Definition parse_quant (s : string) : option (nat * option nat) * string :=
  match s with
  | String "*" r => (Some (0, None), r)
  | String "+" r => (Some (1, None), r)
  | String "?" r => (Some (0, Some 1), r)
  | String "{" r =>
      let (m, r1) := read_nat 0 r in
      match r1 with
      | String "," r2 =>
          let (n, r3) := read_nat 0 r2 in
          match r3 with
          | String "}" r4 => (Some (m, Some n), r4)
          | _ => (None, s)
          end
      | String "}" r2 => (Some (m, Some m), r2)
      | _ => (None, s)
      end
  | _ => (None, s)
  end.

Definition quantified (cs : cset) (s : string) : regex * string :=
  match parse_quant s with
  | (Some (lo, hi), rest) => (RRep cs lo hi, rest)
  | (None, rest) => (RSet cs, rest)
  end.

Fixpoint until_gt (s : string) : string * string :=
  match s with
  | EmptyString => (EmptyString, EmptyString)
  | String ">" rest => (EmptyString, rest)
  | String c rest => let (n, r) := until_gt rest in (String c n, r)
  end.

(** How a group opens: its wrapper, whether it takes a number, and the
    text after the opening. *)
Definition open_group (s : string) (gi : nat)
  : (regex -> regex) * nat * string :=
  match s with
  | String "?" (String "P" (String "<" rest)) =>
      let (name, r) := until_gt rest in (RGroup name, S gi, r)
  | String "?" (String "-" (String "i" (String ":" rest))) =>
      (RCase false, gi, rest)
  | String "?" (String ":" rest) => (fun r => r, gi, rest)
  | _ => (RGroup (Str.of_nat (S gi)), S gi, s)
  end.

Definition finish (acc alts : list regex) : regex :=
  alt (List.rev (seq (List.rev acc) :: alts)).

(** [acc]: the items of the current branch, last first; [alts]: the
    branches before it, last first; [gi]: the groups opened so far. *)
Fixpoint parse_from (fuel : nat) (s : string) (gi : nat)
         (acc alts : list regex) : option (regex * string * nat) :=
  match fuel with
  | O => None
  | S fuel' =>
      match s with
      | EmptyString => Some (finish acc alts, s, gi)
      | String ")" _ => Some (finish acc alts, s, gi)
      | String "|" rest =>
          parse_from fuel' rest gi [] (seq (List.rev acc) :: alts)
      | String "(" rest =>
          let '(wrap, gi1, inner) := open_group rest gi in
          match parse_from fuel' inner gi1 [] [] with
          | Some (r, String ")" rest', gi2) =>
              match rest' with
              | String "?" rest'' =>
                  parse_from fuel' rest'' gi2 (opt_re (wrap r) :: acc) alts
              | _ => parse_from fuel' rest' gi2 (wrap r :: acc) alts
              end
          | _ => None
          end
      | String "[" rest =>
          match parse_class rest None with
          | Some (cs, rest') =>
              let (item, rest'') := quantified cs rest' in
              parse_from fuel' rest'' gi (item :: acc) alts
          | None => None
          end
      | String "$" rest => parse_from fuel' rest gi (REnd :: acc) alts
      | String "\" (String "b" rest) =>
          parse_from fuel' rest gi (RWordB :: acc) alts
      | String "\" (String c rest) =>
          let (item, rest') := quantified (escape_set c) rest in
          parse_from fuel' rest' gi (item :: acc) alts
      | String c rest =>
          let (item, rest') := quantified (CChar c) rest in
          parse_from fuel' rest' gi (item :: acc) alts
      end
  end.

Definition parse (s : string) : option regex :=
  match parse_from (S (String.length s)) s 0 [] [] with
  | Some (r, EmptyString, _) => Some r
  | _ => None
  end.

(** A pattern that matches nothing, for a text [parse] does not read. *)
Definition never : regex := RSet (CRange "001" "000").

(** [re.compile] *)
Definition compile (s : string) : regex := default never (parse s).

End Re.

(* ================================================================== *)
(** ** Python values, exceptions and conversions *)

Module Py.

(** The exception classes the script can meet. *)
Inductive exn : Type :=
| ValueError
| LookupError
| AttributeError
| KeyError
| OtherError (cls : string).

(** A computation that returns or raises. *)
Definition py (A : Type) : Type := (exn + A)%type.

Definition ret {A} (a : A) : py A := inr a.
Definition raise {A} (e : exn) : py A := inl e.

Definition bind {A B} (m : py A) (f : A -> py B) : py B :=
  match m with
  | inl e => inl e
  | inr a => f a
  end.

Inductive value : Type :=
| PNone
| PInt (z : Z)
| PFloat (q : Q)
| PStr (s : string).

(** Truthiness of the values the script tests. *)
Definition truthy_str (s : string) : bool :=
  match s with
  | EmptyString => false
  | _ => true
  end.

(** [len(s) = 0], the falsity of a string *)
Definition is_empty (s : string) : bool := negb (truthy_str s).

Fixpoint lstrip_by (sp : ascii -> bool) (s : string) : string :=
  match s with
  | String c s' => if sp c then lstrip_by sp s' else s
  | EmptyString => EmptyString
  end.

Fixpoint rstrip_by (sp : ascii -> bool) (s : string) : string :=
  match s with
  | EmptyString => EmptyString
  | String c s' =>
      match rstrip_by sp s' with
      | EmptyString => if sp c then EmptyString else String c EmptyString
      | t => String c t
      end
  end.

(** [s.strip()] *)
Definition strip (s : string) : string :=
  rstrip_by Chr.is_space (lstrip_by Chr.is_space s).

(** The blanks [int()] and [float()] skip around a literal: [\s] without
    the four separators FS GS RS US. *)
Definition is_num_space (c : ascii) : bool :=
  Chr.between 9 13 c || (Chr.code c =? 32)%N
  || (Chr.code c =? 133)%N || (Chr.code c =? 160)%N.

Definition num_strip (s : string) : string :=
  rstrip_by is_num_space (lstrip_by is_num_space s).

(** [s[a:b]] for [0 <= a <= b]. *)
Definition slice (a b : nat) (s : string) : string :=
  Str.take (b - a) (Str.drop a s).

(** Digits of a decimal literal; a single underscore may separate two
    digits. *)
Fixpoint int_digits (acc : Z) (s : string) : option Z :=
  match s with
  | EmptyString => Some acc
  | String c s' =>
      if Chr.is_digit c then int_digits (acc * 10 + Chr.digit_val c) s'
      else if Chr.eqb c "_" then
        match s' with
        | String d _ => if Chr.is_digit d then int_digits acc s' else None
        | EmptyString => None
        end
      else None
  end.

Definition unsigned_int (s : string) : option Z :=
  match s with
  | String c _ => if Chr.is_digit c then int_digits 0 s else None
  | EmptyString => None
  end.

(** [sys.get_int_max_str_digits()], at its default. *)
Definition int_max_str_digits : nat := 4300.

(** [int(s)] in base 10: surrounding blanks, an optional sign, then
    digits; anything else is a ValueError, and so is a literal of more
    than [int_max_str_digits] digits. *)
Definition int (s : string) : py Z :=
  let t := num_strip s in
  let r :=
    match t with
    | String "+" t' => unsigned_int t'
    | String "-" t' => option_map Z.opp (unsigned_int t')
    | _ => unsigned_int t
    end in
  match r with
  | Some z =>
      if (int_max_str_digits
          <? String.length (Str.filter Chr.is_digit t))%nat
      then raise ValueError
      else ret z
  | None => raise ValueError
  end.

(** Splits a run of leading digits off. *)
Fixpoint span_digits (s : string) : string * string :=
  match s with
  | String c s' =>
      if Chr.is_digit c then
        let (d, r) := span_digits s' in (String c d, r)
      else (EmptyString, s)
  | EmptyString => (EmptyString, EmptyString)
  end.

Fixpoint digits_value (acc : Z) (s : string) : Z :=
  match s with
  | EmptyString => acc
  | String c s' => digits_value (acc * 10 + Chr.digit_val c) s'
  end.

(** The number the decimal literal [ip.fp] denotes.  A Python float is the
    binary64 nearest to it; the model keeps the decimal itself. *)
Definition decimal (ip fp : string) : Q :=
  Qmake (digits_value (digits_value 0 ip) fp)
        (Z.to_pos (10 ^ Z.of_nat (String.length fp))).

Definition unsigned_float (s : string) : option Q :=
  let (ip, r) := span_digits s in
  match r with
  | EmptyString => if is_empty ip then None else Some (decimal ip "")
  | String "." r' =>
      let (fp, r'') := span_digits r' in
      if is_empty r'' && negb (is_empty ip && is_empty fp)
      then Some (decimal ip fp) else None
  | _ => None
  end.

(** [float(s)] on plain decimal literals: surrounding blanks, an optional
    sign, digits with at most one point.  The other forms [float()] reads
    (exponents, infinities, NaN, underscores) cannot be captured by the
    pattern whose group is converted, and are not modelled. *)
Definition float (s : string) : py Q :=
  let t := num_strip s in
  let r :=
    match t with
    | String "+" t' => unsigned_float t'
    | String "-" t' => option_map Qopp (unsigned_float t')
    | _ => unsigned_float t
    end in
  match r with
  | Some q => ret q
  | None => raise ValueError
  end.

(** What [print] writes: the pieces of the formatted line, then the
    terminator.  The text of [str(e)], of a formatted value and of the
    [repr] of a message identifier are kept symbolic. *)
Inductive frag : Type :=
| FText (s : string)
| FExn (e : exn)
| FVal (v : value)
| FId (id : string).

Definition printed : Type := (list frag * string)%type.

Definition newline : string := String "010" EmptyString.
Definition carriage_return : string := String "013" EmptyString.

Definition line (s : string) : printed := ([FText s], newline).

(** [str(n)] for a length or a counter *)
Definition str_nat (n : nat) : string := Str.of_nat n.

End Py.

Import Re.

(* ================================================================== *)
(** ** [datetime] and the fixed-format parser

    [datetime.strptime] is CPython's; the script calls it with the one
    format ['%a, %d %b %Y %H:%M:%S %z'].  The model follows CPython's
    [_strptime] for that format, in the C locale: the format is turned
    into a pattern, the pattern must match the whole text, the named
    groups are converted, and the constructors of [date], [timezone] and
    [datetime] check the ranges. *)

Module DateTime.

Import Py.

Record datetime : Type := DT
  { year : Z; month : Z; day : Z;
    hour : Z; minute : Z; second : Z; microsecond : Z;
    (** offset of an aware value: seconds and microseconds *)
    tzinfo : option (Z * Z) }.

Definition is_leap (y : Z) : bool :=
  ((y mod 4 =? 0) && (negb (y mod 100 =? 0) || (y mod 400 =? 0)))%Z.

Definition days_in_month (y m : Z) : Z :=
  if (m =? 2)%Z then (if is_leap y then 29 else 28)%Z
  else if ((m =? 4) || (m =? 6) || (m =? 9) || (m =? 11))%Z then 30%Z
  else 31%Z.

Definition in_range (lo hi x : Z) : bool := ((lo <=? x) && (x <=? hi))%Z.

(** [date(y, m, d)] *)
Definition check_date (y m d : Z) : py unit :=
  if in_range 1 9999 y && in_range 1 12 m
     && in_range 1 (days_in_month y m) d
  then ret tt else raise ValueError.

(** [timezone(timedelta(seconds=s, microseconds=us))]: the offset lies
    strictly between minus and plus 24 hours. *)
Definition check_offset (s us : Z) : py unit :=
  let total := (s * 1000000 + us)%Z in
  if ((- 86400000000 <? total) && (total <? 86400000000))%Z
  then ret tt else raise ValueError.

(** [datetime(y, m, d, H, M, S, 0, tz)] *)
Definition make (y m d H M S : Z) (tz : option (Z * Z)) : py datetime :=
  bind (check_date y m d) (fun _ =>
  if in_range 0 23 H && in_range 0 59 M && in_range 0 59 S
  then ret (DT y m d H M S 0 tz) else raise ValueError).

Definition a_weekday : list string :=
  ["mon"; "tue"; "wed"; "thu"; "fri"; "sat"; "sun"].

Definition a_month : list string :=
  [""; "jan"; "feb"; "mar"; "apr"; "may"; "jun"; "jul"; "aug"; "sep";
   "oct"; "nov"; "dec"].

(** [TimeRE.__seqToRE]: the names, joined as the branches of a named
    group (they have one length, so sorting by length keeps the order). *)
Definition seqToRE (names : list string) (directive : string) : string :=
  "(?P<" +:+ directive +:+ ">" +:+ String.concat "|" names +:+ ")".

(** The table of [TimeRE] for the directives of the format. *)
Definition directive_re (d : ascii) : string :=
  if Chr.eqb d "d" then "(?P<d>3[0-1]|[1-2]\d|0[1-9]|[1-9]| [1-9])"
  else if Chr.eqb d "H" then "(?P<H>2[0-3]|[0-1]\d|\d)"
  else if Chr.eqb d "M" then "(?P<M>[0-5]\d|\d)"
  else if Chr.eqb d "S" then "(?P<S>6[0-1]|[0-5]\d|\d)"
  else if Chr.eqb d "Y" then "(?P<Y>\d\d\d\d)"
  else if Chr.eqb d "z"
  then "(?P<z>[+-]\d\d:?[0-5]\d(:?[0-5]\d(\.\d{1,6})?)?|(?-i:Z))"
  else if Chr.eqb d "a" then seqToRE a_weekday "a"
  else if Chr.eqb d "b" then seqToRE (List.tl a_month) "b"
  else "".

(** [TimeRE.pattern]: a run of blanks of the format becomes [\s+], a
    directive its pattern.  (The format has no character that needs an
    escape.) *)
Fixpoint pattern (format : string) : string :=
  match format with
  | EmptyString => EmptyString
  | String "%" (String d rest) => directive_re d +:+ pattern rest
  | String c rest =>
      if Chr.is_space c then
        match rest with
        | String c' _ =>
            if Chr.is_space c' then pattern rest else "\s+" +:+ pattern rest
        | EmptyString => "\s+"
        end
      else String c (pattern rest)
  end.

Definition format : string := "%a, %d %b %Y %H:%M:%S %z".

(** [TimeRE.compile(format)], matched under IGNORECASE *)
Definition format_regex : regex := Eval vm_compute in compile (pattern format).

(** [l.index(x)] *)
Fixpoint index (x : string) (l : list string) : py Z :=
  match l with
  | [] => raise ValueError
  | y :: l' => if String.eqb x y then ret 0%Z
               else bind (index x l') (fun i => ret (i + 1)%Z)
  end.

Definition char_at (n : nat) (s : string) : option ascii :=
  String.get n s.

Definition is_char (c : ascii) (o : option ascii) : bool :=
  match o with
  | Some x => Chr.eqb x c
  | None => false
  end.

(** Conversion of the [z] group to seconds and microseconds. *)
Definition parse_z (z0 : string) : py (Z * Z) :=
  if String.eqb z0 "Z" then ret (0, 0)%Z
  else
    bind
      (if is_char ":" (char_at 3 z0) then
         let z := Str.take 3 z0 +:+ Str.drop 4 z0 in
         if (5 <? String.length z)%nat then
           if negb (is_char ":" (char_at 5 z)) then raise ValueError
           else ret (Str.take 5 z +:+ Str.drop 6 z)
         else ret z
       else ret z0)
      (fun z =>
         bind (int (slice 1 3 z)) (fun hours =>
         bind (int (slice 3 5 z)) (fun minutes =>
         bind (let sec := slice 5 7 z in
               if is_empty sec then ret 0%Z else int sec) (fun seconds =>
         let gmtoff := (hours * 60 * 60 + minutes * 60 + seconds)%Z in
         let rem := Str.drop 8 z in
         bind (int (rem +:+ Str.zeros (6 - String.length rem)))
              (fun frac =>
         if String.prefix "-" z then ret (- gmtoff, - frac)%Z
         else ret (gmtoff, frac))))))%Z.

(** [datetime.strptime(s, '%a, %d %b %Y %H:%M:%S %z')] *)
Definition strptime (data_string : string) : py datetime :=
  match re_match true format_regex data_string with
  | None => raise ValueError
  | Some m =>
      if negb (is_empty (snd m)) then raise ValueError
      else
        bind (int (group m "Y")) (fun y =>
        bind (index (Str.map Chr.lower (group m "b")) a_month) (fun mo =>
        bind (int (group m "d")) (fun d =>
        bind (int (group m "H")) (fun H =>
        bind (int (group m "M")) (fun M =>
        bind (int (group m "S")) (fun S =>
        bind (index (Str.map Chr.lower (group m "a")) a_weekday) (fun _ =>
        bind (parse_z (group m "z")) (fun off =>
        bind (check_date y mo d) (fun _ =>
        bind (check_offset (fst off) (snd off)) (fun _ =>
        make y mo d H M S (Some off)))))))))))
  end.

(** [dt.strftime('%Y-%m-%d')], with the C library's unpadded year. *)
Definition strftime_ymd (dt : datetime) : string :=
  Str.of_nat (Z.to_nat (year dt)) +:+ "-"
  +:+ Str.pad 2 (Z.to_nat (month dt)) +:+ "-"
  +:+ Str.pad 2 (Z.to_nat (day dt)).

End DateTime.

Import Py DateTime.

(* ================================================================== *)
(** ** What the script takes from its libraries and from the outside *)

(** A call that raises returns [inl]. *)
Class Platform : Type :=
  { (** [BeautifulSoup(html, 'html.parser').get_text(separator=' ',
        strip=True)] *)
    soup_get_text : string -> string;
    (** [email.utils.parsedate_to_datetime] *)
    parsedate_to_datetime : string -> py datetime;
    (** [payload.decode(charset, errors='replace')] *)
    bytes_decode : list Byte.byte -> string -> py string;
    (** [email.header.decode_header] *)
    decode_header : string -> py (list ((list Byte.byte + string)
                                        * option string)) }.

(** A parsed message, as [email.message_from_bytes] hands it over: what the
    accessors the script calls return, and either a payload or the list of
    sub-parts. *)
Record headers : Type := Headers
  { (** [msg.get('Date')] *)
    h_date : option string;
    (** [msg.get('Subject')] *)
    h_subject : option string;
    (** [part.get_content_type()] *)
    content_type : string;
    (** [part.get("Content-Disposition")] *)
    content_disposition : option string;
    (** [part.get_content_charset()] *)
    content_charset : option string }.

#[local] Set Warnings "-register-all".
Inductive message : Type :=
| Leaf (h : headers) (payload : list Byte.byte)
| Multipart (h : headers) (parts : list message).

Definition hdr (m : message) : headers :=
  match m with
  | Leaf h _ => h
  | Multipart h _ => h
  end.

Definition is_multipart (m : message) : bool :=
  match m with
  | Leaf _ _ => false
  | Multipart _ _ => true
  end.

(** [msg.walk()]: the message, then its sub-parts, depth first. *)
Fixpoint walk (m : message) : list message :=
  match m with
  | Leaf _ _ => [m]
  | Multipart _ parts => m :: List.flat_map walk parts
  end.

(** [part.get_payload(decode=True)]: [None] for a multipart. *)
Definition get_payload (m : message) : option (list Byte.byte) :=
  match m with
  | Leaf _ payload => Some payload
  | Multipart _ _ => None
  end.

(** The IMAP connection. *)
Record Mailbox : Type :=
  { (** [imaplib.IMAP4_SSL('imap.gmail.com')] and [mail.login] *)
    imap_login : py unit;
    (** [mail.select('"[Gmail]/All Mail"')] *)
    imap_select : py unit;
    (** [mail.search(None, criteria)]: the status and [messages[0].split()] *)
    imap_search : py (string * list string);
    (** [mail.fetch(id, '(RFC822)')]: the status and the parsed message *)
    imap_fetch : string -> py (string * message);
    (** [mail.logout()] *)
    imap_logout : py unit }.

(** The store client, over the states [St] of the table [workouts]. *)
Record Store (St : Type) : Type :=
  { (** [create_client(url, key)] *)
    create_client : string -> string -> py unit;
    (** [table('workouts').select('id').eq('workout_date', d).execute()]:
        the rows of [existing.data] *)
    select_by_date : St -> value -> St * py (list Z);
    (** [table('workouts').insert(workout).execute()] *)
    insert_row : St -> gmap string value -> St * py unit }.

Arguments create_client {St}.
Arguments select_by_date {St}.
Arguments insert_row {St}.

(** The environment variables of the configuration. *)
Record Config : Type :=
  { EMAIL_USER : option string;
    EMAIL_PASS : option string;
    SUPABASE_URL : option string;
    SUPABASE_KEY : option string }.

(** [not x] for the result of [os.getenv] *)
Definition unset (o : option string) : bool :=
  match o with
  | Some s => is_empty s
  | None => true
  end.

(** [x or 'utf-8'] for a charset [x] that is a string or [None]: an empty
    string is false as well. *)
Definition or_utf8 (o : option string) : string :=
  match o with
  | Some s => if is_empty s then "utf-8" else s
  | None => "utf-8"
  end.

Definition getenv_str (o : option string) : string :=
  match o with
  | Some s => s
  | None => "None"
  end.

(* ================================================================== *)
(** ** scripts/sync_emails.py *)

Definition IGNORECASE : bool := true.

Definition cal_source : string := "(\d{2,4})\s*CALORIES\s*BURNED".
Definition splat_source : string := "(\d{1,2})\s*SPLAT\s*POINTS".
Definition tread_source : string :=
  "TREADMILL\s*PERFORMANCE\s*TOTALS?\s*(\d+\.?\d*)\s*miles?".
Definition rower_source : string :=
  "ROWER\s*PERFORMANCE\s*TOTALS?\s*([\d,]+)\s*m\b".
Definition tzname_source : string := "\s*\([A-Z]+\)\s*$".
Definition number_source : string := "[\d,]+\.?\d*".

Definition cal_pattern : regex := Eval vm_compute in compile cal_source.
Definition splat_pattern : regex := Eval vm_compute in compile splat_source.
Definition tread_pattern : regex := Eval vm_compute in compile tread_source.
Definition rower_pattern : regex := Eval vm_compute in compile rower_source.
Definition tzname_pattern : regex := Eval vm_compute in compile tzname_source.

(** [m.group()] is the whole match: group 0. *)
Definition number_pattern : regex :=
  Eval vm_compute in RGroup "0" (compile number_source).

Section Script.

Context {P : Platform}.

(** [get_supabase_client]: the configuration check, then the client. *)
Definition get_supabase_client {St} (cfg : Config) (db : Store St) : py unit :=
  if unset (SUPABASE_URL cfg) || unset (SUPABASE_KEY cfg)
  then raise ValueError
  else create_client db (getenv_str (SUPABASE_URL cfg))
                        (getenv_str (SUPABASE_KEY cfg)).

Definition connect_to_gmail (cfg : Config) (mail : Mailbox)
  : py unit * list printed :=
  if unset (EMAIL_USER cfg) || unset (EMAIL_PASS cfg)
  then (raise ValueError, [])
  else (imap_login mail,
        [line ("Connecting to Gmail as " +:+ getenv_str (EMAIL_USER cfg)
               +:+ "...")]).

Definition search_criteria : string :=
  "(FROM " +:+ String "034" "orangetheoryfitness"
  +:+ String "034" " SUBJECT " +:+ String "034" "workout"
  +:+ String "034" ")".

Definition search_otf_emails (mail : Mailbox)
  : py (list string) * list printed :=
  match imap_select mail with
  | inl e => (inl e, [])
  | inr _ =>
      let out := [line ("Searching for emails: " +:+ search_criteria)] in
      match imap_search mail with
      | inl e => (inl e, out)
      | inr (status, email_ids) =>
          if negb (String.eqb status "OK")
          then (ret [], out ++ [line "No messages found"])
          else (ret email_ids,
                out ++ [line ("Found " +:+ str_nat (List.length email_ids)
                              +:+ " OTF emails")])
      end
  end.

Fixpoint decode_parts
         (parts : list ((list Byte.byte + string) * option string))
         (decoded_subject : string) : py string :=
  match parts with
  | [] => ret decoded_subject
  | (part, encoding) :: rest =>
      match part with
      | inl bytes =>
          bind (bytes_decode bytes (or_utf8 encoding))
               (fun t => decode_parts rest (decoded_subject +:+ t))
      | inr str => decode_parts rest (decoded_subject +:+ str)
      end
  end.

Definition decode_email_subject (subject : option string) : py string :=
  match subject with
  | None => ret ""
  | Some subject =>
      bind (decode_header subject) (fun decoded_parts =>
      decode_parts decoded_parts "")
  end.

Definition parse_email_date (msg : message)
  : option datetime * list printed :=
  match h_date (hdr msg) with
  | None => (None, [])
  | Some date_str =>
      if is_empty date_str then (None, [])
      else
        match parsedate_to_datetime date_str with
        | inr dt => (Some dt, [])
        | inl _ =>
            let date_str := sub_empty false tzname_pattern date_str in
            match strptime date_str with
            | inr dt => (Some dt, [])
            | inl e =>
                (None, [([FText ("Could not parse date: " +:+ date_str
                                 +:+ " - "); FExn e], newline)])
            end
        end
  end.

Definition extract_number (text : option string) : option Q :=
  match text with
  | None => None
  | Some text =>
      if is_empty text then None
      else
        match search false number_pattern (Str.remove_char "," text) with
        | Some m =>
            match float (group m "0") with
            | inr q => Some q
            | inl _ => None
            end
        | None => None
        end
  end.

Definition parse_workout_data (html_body : string)
  : py (gmap string value) :=
  let text := soup_get_text html_body in
  let data : gmap string value :=
    {[ "treadmill_distance" := PNone; "rower_distance" := PNone;
       "splat_points" := PNone; "calories" := PNone ]} in
  bind (match search IGNORECASE cal_pattern text with
        | Some cal_match =>
            bind (int (group cal_match "1")) (fun n =>
            ret (<["calories" := PInt n]> data))
        | None => ret data
        end) (fun data =>
  bind (match search IGNORECASE splat_pattern text with
        | Some splat_match =>
            bind (int (group splat_match "1")) (fun n =>
            ret (<["splat_points" := PInt n]> data))
        | None => ret data
        end) (fun data =>
  bind (match search IGNORECASE tread_pattern text with
        | Some tread_match =>
            bind (float (group tread_match "1")) (fun x =>
            ret (<["treadmill_distance" := PFloat x]> data))
        | None => ret data
        end) (fun data =>
  bind (match search IGNORECASE rower_pattern text with
        | Some rower_match =>
            bind (int (Str.remove_char "," (group rower_match "1")))
                 (fun n =>
            ret (<["rower_distance" := PInt n]> data))
        | None => ret data
        end) (fun data =>
  ret data)))).

(** [str(part.get("Content-Disposition"))] *)
Definition disposition_str (part : message) : string :=
  match content_disposition (hdr part) with
  | Some s => s
  | None => "None"
  end.

(** The three lines that decode a part: payload, charset, text.  Calling
    [decode] on the [None] payload of a multipart is an AttributeError. *)
Definition decode_body (part : message) : py string :=
  match get_payload part with
  | None => raise AttributeError
  | Some payload =>
      bytes_decode payload (or_utf8 (content_charset (hdr part)))
  end.

(** The loop over [msg.walk()], [body] being the text captured so far. *)
Fixpoint select_body (parts : list message) (body : string) : string :=
  match parts with
  | [] => body
  | part :: rest =>
      if Str.contains "attachment" (disposition_str part)
      then select_body rest body
      else if String.eqb (content_type (hdr part)) "text/html" then
        match decode_body part with
        | inr text => text
        | inl _ => select_body rest body
        end
      else if String.eqb (content_type (hdr part)) "text/plain"
              && is_empty body then
        match decode_body part with
        | inr text => select_body rest text
        | inl _ => select_body rest body
        end
      else select_body rest body
  end.

Definition get_email_body (msg : message) : string * list printed :=
  if is_multipart msg then (select_body (walk msg) "", [])
  else
    match decode_body msg with
    | inr text => (text, [])
    | inl e => ("", [([FText "Error decoding body: "; FExn e], newline)])
    end.

(** The body of the [try] of [process_email]. *)
Definition process_email_try (mail : Mailbox) (email_id : string)
  : py (option (gmap string value)) * list printed :=
  match imap_fetch mail email_id with
  | inl e => (inl e, [])
  | inr (status, msg) =>
      if negb (String.eqb status "OK") then (ret None, [])
      else
        let (workout_date, out1) := parse_email_date msg in
        match workout_date with
        | None =>
            (ret None,
             out1 ++ [([FText "Could not parse date for email ";
                        FId email_id], newline)])
        | Some workout_date =>
            match decode_email_subject
                    (Some (default "" (h_subject (hdr msg)))) with
            | inl e => (inl e, out1)
            | inr subject =>
                let (body, out2) := get_email_body msg in
                if is_empty body
                then (ret None,
                      out1 ++ out2 ++ [([FText "No body found for email ";
                                         FId email_id], newline)])
                else
                  match parse_workout_data body with
                  | inl e => (inl e, out1 ++ out2)
                  | inr workout_data =>
                      (ret (Some
                              (workout_data ∪
                                 {[ "workout_date" :=
                                      PStr (strftime_ymd workout_date);
                                    "email_subject" := PStr subject ]})),
                       out1 ++ out2)
                  end
            end
        end
  end.

Definition process_email (mail : Mailbox) (email_id : string)
  : option (gmap string value) * list printed :=
  match process_email_try mail email_id with
  | (inr r, out) => (r, out)
  | (inl e, out) =>
      (None, out ++ [([FText "Error processing email "; FId email_id;
                       FText ": "; FExn e], newline)])
  end.

(** [workout['workout_date']] *)
Definition getitem (d : gmap string value) (k : string) : py value :=
  match d !! k with
  | Some v => ret v
  | None => raise KeyError
  end.

(** One turn of the loop of [sync_to_supabase]: the body of the [try]. *)
Definition sync_try {St} (db : Store St) (st : St) (workout : gmap string value)
  : St * py bool * list printed :=
  match getitem workout "workout_date" with
  | inl e => (st, inl e, [])
  | inr d =>
      match select_by_date db st d with
      | (st1, inl e) => (st1, inl e, [])
      | (st1, inr existing) =>
          match existing with
          | _ :: _ => (st1, ret false, [])
          | [] =>
              match insert_row db st1 workout with
              | (st2, inl e) => (st2, inl e, [])
              | (st2, inr _) =>
                  match getitem workout "workout_date" with
                  | inl e => (st2, inl e, [])
                  | inr d' =>
                      (st2, ret true,
                       [([FText "Inserted workout: "; FVal d'], newline)])
                  end
              end
          end
      end
  end.

(** The loop of [sync_to_supabase], [inserted] and [skipped] being the
    counters.  The handler formats [workout['workout_date']] again: a
    record without that key raises out of the handler. *)
Fixpoint sync_loop {St} (db : Store St) (st : St)
         (workouts : list (gmap string value)) (inserted skipped : nat)
  : St * py (nat * nat) * list printed :=
  match workouts with
  | [] => (st, ret (inserted, skipped), [])
  | workout :: rest =>
      match sync_try db st workout with
      | (st1, inr true, out) =>
          let '(st2, r, out') := sync_loop db st1 rest (S inserted) skipped in
          (st2, r, out ++ out')
      | (st1, inr false, out) =>
          let '(st2, r, out') := sync_loop db st1 rest inserted (S skipped) in
          (st2, r, out ++ out')
      | (st1, inl e, out) =>
          match getitem workout "workout_date" with
          | inl e' => (st1, inl e', out)
          | inr d =>
              let '(st2, r, out') :=
                sync_loop db st1 rest inserted (S skipped) in
              (st2, r,
               out ++ [([FText "Error syncing workout "; FVal d;
                         FText ": "; FExn e], newline)] ++ out')
          end
      end
  end.

Definition sync_to_supabase {St} (db : Store St) (st : St)
           (workouts : list (gmap string value))
  : St * py (nat * nat) * list printed :=
  sync_loop db st workouts 0 0.

Definition rule : string :=
  "==================================================".

(** The lines [main] prints after the sync. *)
Definition summary (found parsed inserted skipped : nat) : list printed :=
  [line ""; line rule; line "Sync complete!";
   line ("  Found: " +:+ str_nat found +:+ " emails");
   line ("  Parsed: " +:+ str_nat parsed +:+ " workouts");
   line ("  Inserted: " +:+ str_nat inserted +:+ " new records");
   line ("  Skipped: " +:+ str_nat skipped +:+ " (duplicates or errors)");
   line rule].

(** The loop of [main] over the identifiers: [i] is the index of the
    enumeration, [total] is [len(email_ids)]. *)
Fixpoint process_all (mail : Mailbox) (ids : list string) (i total : nat)
  : list (gmap string value) * list printed :=
  match ids with
  | [] => ([], [])
  | email_id :: rest =>
      let progress :=
        ([FText ("Processing email " +:+ str_nat (i + 1) +:+ "/"
                 +:+ str_nat total +:+ "...")], carriage_return) in
      let (workout, out) := process_email mail email_id in
      let (workouts, out') := process_all mail rest (S i) total in
      (match workout with
       | Some w => w :: workouts
       | None => workouts
       end,
       progress :: out ++ out')
  end.

(** [main]: the final state of the store, how the call ends, and what it
    printed. *)
Definition main {St} (cfg : Config) (mail : Mailbox) (db : Store St) (st : St)
  : St * py unit * list printed :=
  let out0 := [line rule; line "OTF Email Sync"; line rule] in
  let (connected, out1) :=
    match get_supabase_client cfg db with
    | inl e => (inl e, [])
    | inr _ => connect_to_gmail cfg mail
    end in
  match connected with
  | inl e =>
      (st, ret tt,
       out0 ++ out1 ++ [([FText "Connection error: "; FExn e], newline)])
  | inr _ =>
      match search_otf_emails mail with
      | (inl e, out2) => (st, inl e, out0 ++ out1 ++ out2)
      | (inr email_ids, out2) =>
          match email_ids with
          | [] =>
              (st, imap_logout mail,
               out0 ++ out1 ++ out2 ++ [line "No OTF emails found"])
          | _ :: _ =>
              let (workouts, out3) :=
                process_all mail email_ids 0 (List.length email_ids) in
              let out4 :=
                [line "";
                 line ("Successfully parsed "
                       +:+ str_nat (List.length workouts)
                       +:+ " workout emails")] in
              let pre := out0 ++ out1 ++ out2 ++ out3 ++ out4 in
              match workouts with
              | [] => (st, imap_logout mail, pre)
              | _ :: _ =>
                  match sync_to_supabase db st workouts with
                  | (st', inl e, out5) => (st', inl e, pre ++ out5)
                  | (st', inr (inserted, skipped), out5) =>
                      (st', imap_logout mail,
                       pre ++ out5 ++
                       summary (List.length email_ids)
                               (List.length workouts) inserted skipped)
                  end
              end
          end
      end
  end.

End Script.


(* ================================================================== *)
(** ** Sample surroundings, for the concrete scenarios *)

Module Sample.

Definition known_charsets : list string :=
  ["utf-8"; "us-ascii"; "ascii"; "iso-8859-1"; "latin-1"].

Definition seven_bit (b : Byte.byte) : bool :=
  (Byte.to_N b <? 128)%N.

(** A codec registry for the scenarios: a label it does not know is a
    LookupError; the known charsets agree on 7-bit payloads, which they
    decode to themselves, and Latin-1 decodes every byte to its own code
    point.  (What UTF-8 and ASCII make of other bytes lies outside the
    code points of the model, and is not used.) *)
Definition decode (payload : list Byte.byte) (charset : string) : py string :=
  if negb (existsb (String.eqb charset) known_charsets)
  then raise LookupError
  else if forallb seven_bit payload
          || String.eqb charset "iso-8859-1" || String.eqb charset "latin-1"
  then ret (string_of_list_byte payload)
  else raise (OtherError "outside the sample").

(** A mail-date parser that reads the fixed format and nothing else. *)
Definition platform : Platform :=
  {| (** a body without markup is one text node, stripped *)
     soup_get_text := strip;
     parsedate_to_datetime := strptime;
     bytes_decode := decode;
     (** a header without encoded words is one undecoded piece *)
     decode_header := fun s => ret [(inr s, None)] |}.

Definition bytes (s : string) : list Byte.byte := list_byte_of_string s.

Definition text_headers (date : option string) (ctype : string)
           (disposition : option string) (charset : option string)
  : headers :=
  {| h_date := date; h_subject := Some "way to conquer that workout";
     content_type := ctype; content_disposition := disposition;
     content_charset := charset |}.

(** A mailbox with the one message [msg], under the identifier "1". *)
Definition mailbox (msg : message) : Mailbox :=
  {| imap_login := ret tt;
     imap_select := ret tt;
     imap_search := ret ("OK", ["1"]);
     imap_fetch := fun _ => ret ("OK", msg);
     imap_logout := ret tt |}.

(** A store that keeps the list of its rows' dates. *)
Definition store : Store (list value) :=
  {| create_client := fun _ _ => ret tt;
     select_by_date := fun st d =>
       (st, ret (if existsb (fun v =>
                               match v, d with
                               | PStr a, PStr b => String.eqb a b
                               | _, _ => false
                               end) st then [1%Z] else []));
     insert_row := fun st w =>
       (default PNone (w !! "workout_date") :: st, ret tt) |}.

Definition config : Config :=
  {| EMAIL_USER := Some "me@example.com"; EMAIL_PASS := Some "secret";
     SUPABASE_URL := Some "https://db.example.com";
     SUPABASE_KEY := Some "key" |}.

End Sample.

(* ================================================================== *)
(** ** The text of a summary e-mail, for the ordering property

    The comment of [parse_workout_data] gives the four labelled values of
    the vendor's template; [layout] writes them in a given order, joined
    by the separator of [get_text]. *)

Inductive field : Type := Calories | Splat | Treadmill | Rower.

Record readings : Type :=
  { r_calories : string;
    r_splat : string;
    (** integer part and what follows it: nothing, or a point and digits *)
    r_tread_int : string;
    r_tread_frac : option string;
    r_rower : string }.

Definition tread_text (v : readings) : string :=
  r_tread_int v +:+
  match r_tread_frac v with
  | Some f => "." +:+ f
  | None => ""
  end.

Definition segment (v : readings) (f : field) : string :=
  match f with
  | Calories => r_calories v +:+ " CALORIES BURNED"
  | Splat => r_splat v +:+ " SPLAT POINTS"
  | Treadmill =>
      "TREADMILL PERFORMANCE TOTALS " +:+ tread_text v
      +:+ " miles Total Distance"
  | Rower =>
      "ROWER PERFORMANCE TOTALS " +:+ r_rower v +:+ " m Total Distance"
  end.

Definition layout (v : readings) (order : list field) : string :=
  String.concat " " (List.map (segment v) order).

(** [t] begins with the three letters [a b c], in either case. *)
Definition begins3 (a b c : ascii) (t : string) : bool :=
  match t with
  | String x (String y (String z _)) =>
      Chr.eqb (Chr.upper x) a && Chr.eqb (Chr.upper y) b
      && Chr.eqb (Chr.upper z) c
  | _ => false
  end.

(** The three letters occur somewhere in [t], one after the other. *)
Fixpoint mentions3 (a b c : ascii) (t : string) : bool :=
  begins3 a b c t
  || match t with
     | String _ t' => mentions3 a b c t'
     | EmptyString => false
     end.

(** A filler that leaves the searches alone: it has no digit, and nowhere
    the first three letters of TREADMILL or of ROWER, in either case. *)
Definition quiet (g : string) : bool :=
  Str.all (fun c => negb (Chr.is_digit c)) g
  && negb (mentions3 "T" "R" "E" g) && negb (mentions3 "R" "O" "W" g).

(** The segments in a given order inside a longer text: before each
    segment comes the filler of its place ([gaps], in order; none where
    the list ends), a blank separates a segment from the filler of the
    next place, and [tail] follows the last segment. *)
Fixpoint scattered (v : readings) (order : list field) (gaps : list string)
         (tail : string) : string :=
  match order with
  | [] => tail
  | f :: order' =>
      hd "" gaps +:+ segment v f +:+
      match order' with
      | [] => tail
      | _ :: _ => " " +:+ scattered v order' (tl gaps) tail
      end
  end.

Definition digit_or_comma (c : ascii) : bool :=
  Chr.is_digit c || Chr.eqb c ",".

(** The values are written the way the patterns expect them. *)
Definition well_formed (v : readings) : bool :=
  Str.all Chr.is_digit (r_calories v)
  && (2 <=? String.length (r_calories v))%nat
  && (String.length (r_calories v) <=? 4)%nat
  && Str.all Chr.is_digit (r_splat v)
  && (1 <=? String.length (r_splat v))%nat
  && (String.length (r_splat v) <=? 2)%nat
  && Str.all Chr.is_digit (r_tread_int v)
  && (1 <=? String.length (r_tread_int v))%nat
  && Str.all Chr.is_digit (default "" (r_tread_frac v))
  && Str.all digit_or_comma (r_rower v)
  && negb (is_empty (Str.filter Chr.is_digit (r_rower v)))
  && (String.length (Str.filter Chr.is_digit (r_rower v))
      <=? int_max_str_digits)%nat.

(** The record the four values stand for. *)
Definition expected (v : readings) : gmap string value :=
  {[ "treadmill_distance" :=
       PFloat (decimal (r_tread_int v) (default "" (r_tread_frac v)));
     "rower_distance" :=
       PInt (digits_value 0 (Str.filter Chr.is_digit (r_rower v)));
     "splat_points" := PInt (digits_value 0 (r_splat v));
     "calories" := PInt (digits_value 0 (r_calories v)) ]}.

(** The first start position at or after which [r] matches, if any start
    in [pre] does: [none_before] says none does. *)
Fixpoint none_before (ic : bool) (r : regex) (prev : option ascii)
         (pre rest : string) : bool :=
  match pre with
  | EmptyString => true
  | String c pre' =>
      match match_here ic r prev (pre +:+ rest) with
      | Some _ => false
      | None => none_before ic r (Some c) pre' rest
      end
  end.

(* ================================================================== *)
(** * The vocabulary of the properties *)

Definition fits (hi : option nat) (n : nat) : Prop :=
  match hi with
  | Some h => n <= h
  | None => True
  end.

(** The quantifier cannot go past [w]: it is used up, or the text ends, or
    the next character is outside the set. *)
Definition stops (mem : ascii -> bool) (hi : option nat) (n : nat)
           (rest : string) : Prop :=
  hi = Some n \/ match rest with
                 | EmptyString => True
                 | String c _ => mem c = false
                 end.

Fixpoint sem (ic : bool) (r : regex) (w : string) (new : captures) : Prop :=
  match r with
  | REps => w = "" /\ new = []
  | RSet cs => exists c, w = String c "" /\ cset_mem ic cs c = true /\ new = []
  | RRep cs lo hi =>
      Str.all (cset_mem ic cs) w = true /\ lo <= String.length w
      /\ fits hi (String.length w) /\ new = []
  | RSeq r1 r2 =>
      exists u v n1 n2, w = u +:+ v /\ sem ic r1 u n1 /\ sem ic r2 v n2
                        /\ new = n2 ++ n1
  | RAlt r1 r2 => sem ic r1 w new \/ sem ic r2 w new
  | RGroup name r' => exists n, sem ic r' w n /\ new = (name, w) :: n
  | RWordB => w = "" /\ new = []
  | REnd => w = "" /\ new = []
  | RCase ic' r' => sem ic' r' w new
  end.

(** The groups of a pattern without groups. *)
Fixpoint no_group (r : regex) : bool :=
  match r with
  | RSeq r1 r2 | RAlt r1 r2 => no_group r1 && no_group r2
  | RGroup _ _ => false
  | RCase _ r' => no_group r'
  | _ => true
  end.

Fixpoint nullable (r : regex) : bool :=
  match r with
  | REps | RWordB | REnd => true
  | RSet _ => false
  | RRep _ lo _ => Nat.eqb lo 0
  | RSeq r1 r2 => nullable r1 && nullable r2
  | RAlt r1 r2 => nullable r1 || nullable r2
  | RGroup _ r' | RCase _ r' => nullable r'
  end.

(** [starts ic r c]: some text read by [r] may begin with [c]. *)
Fixpoint starts (ic : bool) (r : regex) (c : ascii) : bool :=
  match r with
  | REps | RWordB | REnd => false
  | RSet cs => cset_mem ic cs c
  | RRep cs _ hi => cset_mem ic cs c && can_more hi
  | RSeq r1 r2 => starts ic r1 c || (nullable r1 && starts ic r2 c)
  | RAlt r1 r2 => starts ic r1 c || starts ic r2 c
  | RGroup _ r' => starts ic r' c
  | RCase ic' r' => starts ic' r' c
  end.

Definition has_date (w : gmap string value) : Prop :=
  is_Some (w !! "workout_date").

Inductive outcome : Type :=
| Inserted
| Duplicate
| Failed (e : exn).

(** What becomes of the record [w], dated [d], in the store [st]: the
    store is asked for the rows of that date; rows make the record a
    duplicate; without rows the record is inserted; an error of either
    call is the failure of the record. *)
Definition settle {St} (db : Store St) (st : St) (w : gmap string value)
           (d : value) : St * outcome :=
  match select_by_date db st d with
  | (st1, inl e) => (st1, Failed e)
  | (st1, inr (_ :: _)) => (st1, Duplicate)
  | (st1, inr []) =>
      match insert_row db st1 w with
      | (st2, inl e) => (st2, Failed e)
      | (st2, inr _) => (st2, Inserted)
      end
  end.

(** The records in order, each with its date, the store passing from one
    to the next. *)
Fixpoint outcomes {St} (db : Store St) (st : St)
         (workouts : list (gmap string value))
  : St * list (value * outcome) :=
  match workouts with
  | [] => (st, [])
  | w :: rest =>
      let d := default PNone (w !! "workout_date") in
      let (st1, o) := settle db st w d in
      let (st2, os) := outcomes db st1 rest in
      (st2, (d, o) :: os)
  end.

Definition is_inserted (p : value * outcome) : bool :=
  match snd p with
  | Inserted => true
  | _ => false
  end.

Definition is_duplicate (p : value * outcome) : bool :=
  match snd p with
  | Duplicate => true
  | _ => false
  end.

Definition is_failed (p : value * outcome) : bool :=
  match snd p with
  | Failed _ => true
  | _ => false
  end.

Definition count {A} (p : A -> bool) (l : list A) : nat :=
  List.length (List.filter p l).

(** What the loop prints for a record. *)
Definition outcome_lines (p : value * outcome) : list printed :=
  match p with
  | (d, Inserted) => [([FText "Inserted workout: "; FVal d], newline)]
  | (_, Duplicate) => []
  | (d, Failed e) =>
      [([FText "Error syncing workout "; FVal d; FText ": "; FExn e],
        newline)]
  end.

(** A store whose every call raises. *)
Definition failing_store : Store unit :=
  {| create_client := fun _ _ => ret tt;
     select_by_date := fun st _ => (st, raise (OtherError "APIError"));
     insert_row := fun st _ => (st, raise (OtherError "APIError")) |}.

(** A store that keeps the dates of its rows, and refuses the rows dated
    2024-06-05. *)
Definition moody_store : Store (list value) :=
  {| create_client := fun _ _ => ret tt;
     select_by_date := select_by_date Sample.store;
     insert_row := fun st w =>
       match w !! "workout_date" with
       | Some (PStr "2024-06-05") => (st, raise (OtherError "APIError"))
       | _ => insert_row Sample.store st w
       end |}.

(** Three records: one whose date the store has, one it has not, and one
    it refuses. *)
Definition three_records : list (gmap string value) :=
  [ {[ "workout_date" := PStr "2024-06-03" ]};
    {[ "workout_date" := PStr "2024-06-04" ]};
    {[ "workout_date" := PStr "2024-06-05" ]} ].

(** The summary block occurs in what was printed. *)
Definition prints_summary (out : list printed) : Prop :=
  exists found parsed inserted skipped pre post,
    out = pre ++ summary found parsed inserted skipped ++ post.

Definition banner : printed := line "Sync complete!".

Definition no_banner (out : list printed) : Prop := ~ In banner out.

(** A message without a Date header, alone in the mailbox. *)
Definition undated_message : message :=
  Leaf (Sample.text_headers None "text/html" None None)
       (Sample.bytes "12 SPLAT POINTS 674 CALORIES BURNED").

(** A message the pipeline accepts, alone in the mailbox. *)
Definition dated_message : message :=
  Leaf (Sample.text_headers (Some "Mon, 03 Jun 2024 07:15:00 -0400")
          "text/html" None None)
       (Sample.bytes "12 SPLAT POINTS 674 CALORIES BURNED").

Definition is_attachment (part : message) : bool :=
  Str.contains "attachment" (disposition_str part).

Definition is_html (part : message) : bool :=
  String.eqb (content_type (hdr part)) "text/html".

Definition is_plain (part : message) : bool :=
  String.eqb (content_type (hdr part)) "text/plain".

Module Scenario.

Import Sample.

Definition html_text : string := "<p>674 CALORIES BURNED</p>".
Definition plain_text : string := "674 CALORIES BURNED".
Definition date : string := "Mon, 03 Jun 2024 07:15:00 -0400".

Definition container (parts : list message) : message :=
  Multipart (text_headers (Some date) "multipart/alternative" None None)
            parts.

Definition html_part (charset : string) : message :=
  Leaf (text_headers None "text/html" None (Some charset)) (bytes html_text).

Definition plain_part : message :=
  Leaf (text_headers None "text/plain" None (Some "utf-8"))
       (bytes plain_text).

(** The HTML part declares a charset no codec is registered for. *)
Definition unknown_charset_message : message :=
  container [html_part "x-unknown"; plain_part].

Definition attached_html : message :=
  Leaf (text_headers None "text/html"
          (Some "attachment; filename=summary.html") None)
       (bytes html_text).

Definition only_attachment_multipart : message :=
  container [attached_html].

(** A message that is not multipart and is itself an attachment. *)
Definition only_attachment_single : message :=
  Leaf (text_headers (Some date) "text/html"
          (Some "attachment; filename=summary.html") None)
       (bytes html_text).

Definition garbled_date_message : message :=
  Leaf (text_headers (Some "yesterday") "text/html" None None)
       (bytes html_text).

Definition found_record (r : option (gmap string value) * list printed)
  : bool :=
  match fst r with
  | Some _ => true
  | None => false
  end.

End Scenario.

Definition scenario_text : string :=
  "12 SPLAT POINTS ... TREADMILL PERFORMANCE TOTALS 3.6 miles Total Distance ... ROWER PERFORMANCE TOTALS 860 m Total Distance ... 674 CALORIES BURNED".

Definition scenario_date : string := "Mon, 03 Jun 2024 07:15:00 -0400".

(** 3 June 2024, 07:15:00, four hours west of UTC. *)
Definition scenario_datetime : datetime :=
  DT 2024 6 3 7 15 0 0 (Some (-14400, 0)%Z).

Definition scenario_record (subject : string) : gmap string value :=
  {[ "workout_date" := PStr "2024-06-03";
     "email_subject" := PStr subject;
     "treadmill_distance" := PFloat (36 # 10);
     "rower_distance" := PInt 860;
     "splat_points" := PInt 12;
     "calories" := PInt 674 ]}.

Definition scenario_message : message :=
  Leaf (Sample.text_headers (Some scenario_date) "text/html" None None)
       (Sample.bytes scenario_text).

Definition all_ascii (p : ascii -> bool) : bool :=
  forallb (fun n => p (ascii_of_nat n)) (List.seq 0 256).

Definition numeric (c : ascii) : bool :=
  Chr.is_digit c || Chr.eqb c "," || Chr.eqb c ".".

Fixpoint only_group (r : regex) : option (string * regex) :=
  match r with
  | RGroup name body => if no_group body then Some (name, body) else None
  | RSeq r1 r2 =>
      if no_group r1 then only_group r2
      else if no_group r2 then only_group r1
      else None
  | _ => None
  end.

(** The dict [parse_workout_data] starts from. *)
Definition no_data : gmap string value :=
  {[ "treadmill_distance" := PNone; "rower_distance" := PNone;
     "splat_points" := PNone; "calories" := PNone ]}.

(** An assignment that happens only when the search matched. *)
Definition set_field (k : string) (v : option value) (d : gmap string value)
  : gmap string value :=
  match v with
  | Some x => <[k := x]> d
  | None => d
  end.

Definition cal_value (text : string) : option value :=
  match search IGNORECASE cal_pattern text with
  | Some m => Some (PInt (digits_value 0 (group m "1")))
  | None => None
  end.

Definition splat_value (text : string) : option value :=
  match search IGNORECASE splat_pattern text with
  | Some m => Some (PInt (digits_value 0 (group m "1")))
  | None => None
  end.

Definition tread_value (text : string) : option value :=
  match search IGNORECASE tread_pattern text with
  | Some m =>
      match float (group m "1") with
      | inr q => Some (PFloat q)
      | inl _ => None
      end
  | None => None
  end.

(** The rower value: the conversion raises when the captured text has
    commas only, and when it has more digits than [int] accepts. *)
Definition rower_value (text : string) : py (option value) :=
  match search IGNORECASE rower_pattern text with
  | Some m =>
      let digits := Str.filter Chr.is_digit (group m "1") in
      if is_empty digits
         || (int_max_str_digits <? String.length digits)%nat
      then inl ValueError
      else inr (Some (PInt (digits_value 0 digits)))
  | None => inr None
  end.

Definition fields (c s t r : option value) : gmap string value :=
  set_field "rower_distance" r
    (set_field "treadmill_distance" t
       (set_field "splat_points" s (set_field "calories" c no_data))).

Definition four_keys : gset string :=
  {[ "treadmill_distance"; "rower_distance"; "splat_points"; "calories" ]}.

Definition rower_1234 : string := "ROWER PERFORMANCE TOTALS 1,234 m".

Fixpoint alphabet (ic : bool) (r : regex) (c : ascii) : bool :=
  match r with
  | REps | RWordB | REnd => false
  | RSet cs | RRep cs _ _ => cset_mem ic cs c
  | RSeq r1 r2 | RAlt r1 r2 => alphabet ic r1 c || alphabet ic r2 c
  | RGroup _ r' => alphabet ic r' c
  | RCase ic' r' => alphabet ic' r' c
  end.

(** [ends ic r c]: some text read by [r] may end with [c]. *)
Fixpoint ends (ic : bool) (r : regex) (c : ascii) : bool :=
  match r with
  | REps | RWordB | REnd => false
  | RSet cs | RRep cs _ _ => cset_mem ic cs c
  | RSeq r1 r2 => ends ic r2 c || (nullable r2 && ends ic r1 c)
  | RAlt r1 r2 => ends ic r1 c || ends ic r2 c
  | RGroup _ r' => ends ic r' c
  | RCase ic' r' => ends ic' r' c
  end.

Definition not_paren (c : ascii) : bool := negb (Chr.eqb c "(").

(** The text ends with a character that is not a blank. *)
Definition ends_solid (s : string) : Prop :=
  match prev_after None s with
  | Some c => Chr.is_space c = false
  | None => True
  end.





Definition digit_led (lo : nat) (hi : option nat) (l : ascii) (rest : regex)
  : regex :=
  RSeq (RGroup "1" (RRep CDigit lo hi))
       (RSeq (RRep CSpace 0 None) (RSeq (RSet (CChar l)) rest)).

(** After the digits and then the blanks that [t] begins with, the next
    character is not the letter [l]. *)
Definition blocked (l : ascii) (t : string) : Prop :=
  match lstrip_by (cset_mem true CSpace) (lstrip_by (cset_mem true CDigit) t)
  with
  | String y _ => cset_mem true (CChar l) y = false
  | EmptyString => True
  end.

Definition not_letter (l : ascii) (t : string) : Prop :=
  match t with
  | String y _ => cset_mem true (CChar l) y = false
  | EmptyString => True
  end.

Definition cal_rest : regex := Eval vm_compute in compile "ALORIES\s*BURNED".
Definition splat_rest : regex := Eval vm_compute in compile "PLAT\s*POINTS".

(** The number of the treadmill pattern, [\d+\.?\d*] in group 1. *)
Definition tread_number : regex :=
  RGroup "1" (RSeq (RRep CDigit 1 None)
                   (RSeq (RRep (CChar ".") 0 (Some 1)) (RRep CDigit 0 None))).


(** How a segment begins: with a digit, with TR or with RO, and it has two
    characters at least. *)
Definition seg_head (t : string) : bool :=
  match t with
  | String x (String y _) =>
      Chr.is_digit x
      || (Chr.eqb x "T" && Chr.eqb y "R") || (Chr.eqb x "R" && Chr.eqb y "O")
  | _ => false
  end.

(** Three letters that a segment head neither completes nor begins. *)
Definition apart (a b c : ascii) : Prop :=
  forall x y rest,
    seg_head rest = true ->
    begins3 a b c (String x (String y rest)) = false
    /\ begins3 a b c (String x rest) = false.

(** The values of the scenario. *)
Definition sample_readings : readings :=
  {| r_calories := "674"; r_splat := "12"; r_tread_int := "3";
     r_tread_frac := Some "6"; r_rower := "860" |}.

(** The filler of the scenario text, before each of its segments. *)
Definition sample_gaps : list string := [""; "... "; "... "; "... "].

(** Fillers with words in them. *)
Definition wordy_gaps : list string :=
  ["Your results: "; "and "; "then on the belt "; "and on the water "].


(** The store has a row dated [d]: the look-up answers with rows. *)
Definition present {St} (db : Store St) (st : St) (d : value) : Prop :=
  exists rows, select_by_date db st d = (st, inr rows) /\ rows <> [].

(** A store that keeps what it is given: a look-up answers and changes
    nothing; an insertion succeeds, its date is found afterwards, and the
    dates found before are still found. *)
Record keeps_dates {St} (db : Store St) : Prop :=
  { select_reads : forall st s,
      exists rows, select_by_date db st (PStr s) = (st, inr rows);
    insert_adds : forall st w s,
      w !! "workout_date" = Some (PStr s) ->
      exists st',
        insert_row db st w = (st', inr tt)
        /\ present db st' (PStr s)
        /\ forall s', present db st (PStr s') -> present db st' (PStr s') }.

(** The record has a date, and the date is a string, as the records of
    [process_email] have. *)
Definition string_dated (w : gmap string value) : Prop :=
  exists s, w !! "workout_date" = Some (PStr s).

(** A mailbox whose fetch always fails. *)
Definition unreadable_mailbox : Mailbox :=
  {| imap_login := ret tt;
     imap_select := ret tt;
     imap_search := ret ("OK", ["1"; "2"]);
     imap_fetch := fun _ => raise (OtherError "abort");
     imap_logout := ret tt |}.

(** A mailbox whose search is refused, though identifiers come with the
    answer. *)
Definition refusing_mailbox : Mailbox :=
  {| imap_login := ret tt;
     imap_select := ret tt;
     imap_search := ret ("NO", ["1"]);
     imap_fetch := fun _ => ret ("OK", dated_message);
     imap_logout := ret tt |}.

Definition six_keys : gset string :=
  {[ "workout_date"; "email_subject"; "treadmill_distance";
     "rower_distance"; "splat_points"; "calories" ]}.

(** A plain-text part without a payload. *)
Definition empty_plain_part : message :=
  Leaf (Sample.text_headers None "text/plain" None (Some "utf-8")) [].

(** The text of one piece of a decoded header: a bytes piece is decoded
    under its charset, UTF-8 when it has none; a str piece is itself. *)
Definition piece_text {P : Platform}
           (piece : (list Byte.byte + string) * option string) : py string :=
  match piece with
  | (inl bytes, encoding) => bytes_decode bytes (or_utf8 encoding)
  | (inr str, _) => ret str
  end.

(** The texts of the pieces, in order, up to the first that raises. *)
Fixpoint piece_texts {P : Platform}
         (parts : list ((list Byte.byte + string) * option string))
  : py (list string) :=
  match parts with
  | [] => ret []
  | piece :: rest =>
      bind (piece_text piece) (fun t =>
      bind (piece_texts rest) (fun ts => ret (t :: ts)))
  end.

(** A header decoder that finds an encoded word after a plain prefix. *)
Definition encoded_word_platform : Platform :=
  {| soup_get_text := strip;
     parsedate_to_datetime := strptime;
     bytes_decode := Sample.decode;
     decode_header := fun _ =>
       ret [(inl (Sample.bytes "Re: "), Some "");
            (inl (Sample.bytes "workout"), Some "utf-8");
            (inl (Sample.bytes " summary"), Some "latin-1")] |}.

(** A platform whose standard date parser rejects every header. *)
Definition fallback_platform : Platform :=
  {| soup_get_text := strip;
     parsedate_to_datetime := fun _ => raise ValueError;
     bytes_decode := Sample.decode;
     decode_header := fun s => ret [(inr s, None)] |}.

Definition not_digit (c : ascii) : bool := negb (Chr.is_digit c).

Definition no_comma (c : ascii) : bool := negb (Chr.eqb c ",").

(** The first number of a text read from the left: the first run of
    digits and, if a point follows it, the digits after the point. *)
Definition leading_number (t : string) : option Q :=
  let (ip, r) := span_digits (lstrip_by not_digit t) in
  if is_empty ip then None
  else
    match r with
    | String c r' =>
        if Chr.eqb c "." then Some (decimal ip (fst (span_digits r')))
        else Some (decimal ip "")
    | EmptyString => Some (decimal ip "")
    end.

(** [None], or an integer between 0 and [hi]. *)
Definition none_or_int_upto (hi : Z) (v : value) : Prop :=
  v = PNone \/ exists n, v = PInt n /\ (0 <= n <= hi)%Z.

(** [None], or an integer that is not negative. *)
Definition none_or_natural (v : value) : Prop :=
  v = PNone \/ exists n, v = PInt n /\ (0 <= n)%Z.

(** [None], or a float that is not negative. *)
Definition none_or_distance (v : value) : Prop :=
  v = PNone \/ exists q, v = PFloat q /\ (0 <= q)%Q.

(** The readings with [c] for the calories. *)
Definition calories_reading (c : string) : readings :=
  {| r_calories := c; r_splat := "0"; r_tread_int := "0";
     r_tread_frac := None; r_rower := "0" |}.

(** The text with its letters A-Z in lower case. *)
Definition low (s : string) : string := Str.map Chr.lower s.

Definition low_caps (caps : captures) : captures :=
  List.map (fun p => (fst p, low (snd p))) caps.

Definition low_found (m : found) : found := (low_caps (fst m), low (snd m)).

(** No flag is set inside the pattern. *)
Fixpoint case_blind (r : regex) : bool :=
  match r with
  | RCase _ _ => false
  | RSeq r1 r2 | RAlt r1 r2 => case_blind r1 && case_blind r2
  | RGroup _ r' => case_blind r'
  | _ => true
  end.

(** The continuations [k'] and [k] answer alike on a text and on its
    lower-case form. *)
Definition alike (k' k : option ascii -> string -> option found) : Prop :=
  forall prev s,
    k' (option_map Chr.lower prev) (low s) = option_map low_found (k prev s).

(** The line printed for an inserted row. *)
Definition is_inserted_line (p : printed) : bool :=
  match p with
  | ([FText t; FVal _], _) => String.eqb t "Inserted workout: "
  | _ => false
  end.

(** The line printed for a row whose sync raised. *)
Definition is_error_line (p : printed) : bool :=
  match p with
  | ([FText t; FVal _; FText _; FExn _], _) =>
      String.eqb t "Error syncing workout "
  | _ => false
  end.

(* ================================================================== *)
(** * Properties *)

(** ** Strings *)

Section StringFacts.

Implicit Types s t u : string.

Lemma app_nil_r s : s +:+ "" = s.
Proof. induction s as [|c s IH]; simpl; [reflexivity | now rewrite IH]. Qed.

Lemma app_assoc s t u : (s +:+ t) +:+ u = s +:+ (t +:+ u).
Proof. induction s as [|c s IH]; simpl; [reflexivity | now rewrite IH]. Qed.

Lemma length_app s t :
  String.length (s +:+ t) = String.length s + String.length t.
Proof. induction s as [|c s IH]; simpl; [reflexivity | now rewrite IH]. Qed.

Lemma take_drop n s : Str.take n s +:+ Str.drop n s = s.
Proof.
  revert s; induction n as [|n IH]; intros [|c s]; simpl; try reflexivity.
  now rewrite IH.
Qed.

Lemma length_drop n s : String.length (Str.drop n s) = String.length s - n.
Proof.
  revert s; induction n as [|n IH]; intros [|c s]; simpl; try lia.
  apply IH.
Qed.

Lemma length_take n s :
  n <= String.length s -> String.length (Str.take n s) = n.
Proof.
  revert s; induction n as [|n IH]; intros [|c s]; simpl; try lia.
  intros H. rewrite IH; lia.
Qed.

Lemma take_app s t : Str.take (String.length s) (s +:+ t) = s.
Proof. induction s as [|c s IH]; simpl; [now destruct t | now rewrite IH]. Qed.

Lemma drop_app s t : Str.drop (String.length s) (s +:+ t) = t.
Proof. induction s as [|c s IH]; simpl; [reflexivity | exact IH]. Qed.

Lemma take_all n s : String.length s <= n -> Str.take n s = s.
Proof.
  revert s; induction n as [|n IH]; intros [|c s]; simpl; try reflexivity;
    try lia.
  intros H. rewrite IH; [reflexivity | lia].
Qed.

Lemma drop_drop n m s : Str.drop n (Str.drop m s) = Str.drop (m + n) s.
Proof.
  revert s; induction m as [|m IH]; intros s; simpl; [reflexivity|].
  destruct s as [|c s]; [now destruct n | apply IH].
Qed.

Lemma take_take_drop n m s :
  Str.take m s +:+ Str.take n (Str.drop m s) = Str.take (m + n) s.
Proof.
  revert s; induction m as [|m IH]; intros s; simpl; [reflexivity|].
  destruct s as [|c s]; simpl; [now destruct n | now rewrite IH].
Qed.

Lemma all_app p s t : Str.all p (s +:+ t) = Str.all p s && Str.all p t.
Proof.
  induction s as [|c s IH]; simpl; [reflexivity|].
  rewrite IH. now rewrite andb_assoc.
Qed.

Lemma prev_after_app prev s t :
  prev_after prev (s +:+ t) = prev_after (prev_after prev s) t.
Proof. revert prev; induction s as [|c s IH]; intros; simpl; auto. Qed.

Lemma is_empty_length s : is_empty s = true <-> s = "".
Proof. destruct s; split; intros H; try reflexivity; discriminate H. Qed.

End StringFacts.

(** ** The greedy quantifier *)

Lemma rep_inv mem lo hi k prev s m :
  rep mem lo hi k prev s = Some m ->
  exists n, n <= String.length s /\ lo <= n /\ fits hi n
            /\ Str.all mem (Str.take n s) = true
            /\ k (prev_after prev (Str.take n s)) (Str.drop n s) = Some m.
Proof.
  revert lo hi prev.
  induction s as [|c s IH]; intros lo hi prev H; simpl in H.
  - destruct lo; [|discriminate].
    exists 0. repeat split; simpl; auto. destruct hi; simpl; lia.
  - assert (Hstop : match lo with 0 => k prev (String c s) | S _ => None end
                    = Some m ->
            exists n, n <= String.length (String c s) /\ lo <= n /\ fits hi n
              /\ Str.all mem (Str.take n (String c s)) = true
              /\ k (prev_after prev (Str.take n (String c s)))
                   (Str.drop n (String c s)) = Some m).
    { intros Hs. destruct lo; [|discriminate].
      exists 0. repeat split; simpl; auto; try lia. destruct hi; simpl; lia. }
    destruct (mem c && can_more hi) eqn:E; [|auto].
    destruct (rep mem (Nat.pred lo) (one_less hi) k (Some c) s) eqn:R; [|auto].
    inversion H; subst; clear H.
    apply andb_true_iff in E as [Ec Eh].
    destruct (IH _ _ _ R) as (n & Hn & Hlo & Hhi & Hall & Hk).
    exists (S n). simpl. rewrite Ec, Hall. repeat split; auto; try lia.
    destruct hi as [[|h]|]; simpl in *; try discriminate; auto; lia.
Qed.

Lemma rep_greedy mem lo hi k prev w rest m :
  Str.all mem w = true ->
  lo <= String.length w ->
  fits hi (String.length w) ->
  stops mem hi (String.length w) rest ->
  k (prev_after prev w) rest = Some m ->
  rep mem lo hi k prev (w +:+ rest) = Some m.
Proof.
  revert lo hi prev.
  induction w as [|c w IH]; intros lo hi prev Hall Hlo Hfit Hstop Hk; simpl in *.
  - assert (lo = 0) by lia; subst lo.
    destruct rest as [|c rest]; simpl; [exact Hk|].
    destruct Hstop as [->|Hc]; simpl.
    + now rewrite andb_false_r.
    + now rewrite Hc.
  - apply andb_true_iff in Hall as [Hc Hall]. rewrite Hc. simpl.
    assert (Hcm : can_more hi = true).
    { destruct hi as [[|h]|]; simpl in *; auto; lia. }
    rewrite Hcm.
    assert (Hfit' : fits (one_less hi) (String.length w)).
    { destruct hi as [h|]; simpl in *; auto; lia. }
    assert (Hstop' : stops mem (one_less hi) (String.length w) rest).
    { destruct Hstop as [->|Hr]; [left; reflexivity | right; exact Hr]. }
    rewrite (IH (Nat.pred lo) (one_less hi) (Some c) Hall ltac:(lia)
                Hfit' Hstop' Hk).
    reflexivity.
Qed.

Lemma rep_none mem lo hi k prev s :
  (forall n, n <= String.length s -> lo <= n -> fits hi n ->
             Str.all mem (Str.take n s) = true ->
             k (prev_after prev (Str.take n s)) (Str.drop n s) = None) ->
  rep mem lo hi k prev s = None.
Proof.
  intros H. destruct (rep mem lo hi k prev s) as [m|] eqn:R; [|reflexivity].
  apply rep_inv in R as (n & Hn & Hlo & Hhi & Hall & Hk).
  rewrite H in Hk by assumption. discriminate Hk.
Qed.

(** ** What a match consists of

    [sem ic r w new]: the pattern [r] can read exactly the text [w],
    recording the groups [new] (most recent first).  Assertions read
    nothing; their conditions on the surroundings are not part of [sem]. *)

(** Every match the engine finds is one of [sem], and the continuation
    succeeded on what follows it. *)
Lemma rmatch_sound ic r : forall k caps prev s m,
  rmatch ic r k caps prev s = Some m ->
  exists n new,
    n <= String.length s /\ sem ic r (Str.take n s) new
    /\ k (new ++ caps) (prev_after prev (Str.take n s)) (Str.drop n s) = Some m.
Proof.
  revert ic.
  induction r as [|cs|cs lo hi|r1 IH1 r2 IH2|r1 IH1 r2 IH2|name r IH| | |ic' r IH];
    intros ic k caps prev s m H; simpl in H.
  - exists 0, []. simpl. repeat split; auto; lia.
  - destruct s as [|c s]; [discriminate|].
    destruct (cset_mem ic cs c) eqn:E; [|discriminate].
    exists 1, []. simpl. repeat split; auto; try lia. now exists c.
  - apply rep_inv in H as (n & Hn & Hlo & Hhi & Hall & Hk).
    exists n, []. simpl. rewrite length_take by assumption. repeat split; auto.
  - apply IH1 in H as (n1 & new1 & Hn1 & Hs1 & H).
    apply IH2 in H as (n2 & new2 & Hn2 & Hs2 & H).
    rewrite length_drop in Hn2.
    exists (n1 + n2), (new2 ++ new1). repeat split.
    + lia.
    + simpl. exists (Str.take n1 s), (Str.take n2 (Str.drop n1 s)), new1, new2.
      repeat split; auto. symmetry. apply take_take_drop.
    + rewrite <- take_take_drop, prev_after_app, <- drop_drop.
      now rewrite <- List.app_assoc.
  - destruct (rmatch ic r1 k caps prev s) as [m1|] eqn:E1.
    + inversion H; subst. apply IH1 in E1 as (n & new & Hn & Hs & Hk).
      exists n, new. simpl. auto.
    + apply IH2 in H as (n & new & Hn & Hs & Hk).
      exists n, new. simpl. auto.
  - apply IH in H as (n & new & Hn & Hs & Hk).
    rewrite length_drop in Hk.
    replace (String.length s - (String.length s - n)) with n in Hk by lia.
    exists n, ((name, Str.take n s) :: new). simpl. repeat split; eauto.
  - destruct (at_boundary prev s); [|discriminate].
    exists 0, []. simpl. repeat split; auto; lia.
  - destruct (at_end s); [|discriminate].
    exists 0, []. simpl. repeat split; auto; lia.
  - apply IH in H as (n & new & Hn & Hs & Hk). exists n, new. simpl. auto.
Qed.

Lemma match_here_sound ic r prev s caps rest :
  match_here ic r prev s = Some (caps, rest) ->
  exists w, s = w +:+ rest /\ sem ic r w caps.
Proof.
  unfold match_here. intros H.
  apply rmatch_sound in H as (n & new & Hn & Hs & Hk).
  unfold accept in Hk. inversion Hk; subst.
  rewrite List.app_nil_r. exists (Str.take n s). split; auto.
  symmetry. apply take_drop.
Qed.

Lemma search_from_sound ic r : forall s prev caps rest,
  search_from ic r prev s = Some (caps, rest) ->
  exists pre w, s = pre +:+ w +:+ rest /\ sem ic r w caps.
Proof.
  induction s as [|c s IH]; intros prev caps rest H; simpl in H.
  - destruct (match_here ic r prev "") as [m|] eqn:E; [|discriminate].
    inversion H; subst. apply match_here_sound in E as (w & Hw & Hs).
    exists "", w. auto.
  - destruct (match_here ic r prev (String c s)) as [m|] eqn:E.
    + inversion H; subst. apply match_here_sound in E as (w & Hw & Hs).
      exists "", w. auto.
    + apply IH in H as (pre & w & Hw & Hs).
      exists (String c pre), w. simpl. now rewrite Hw.
Qed.

Lemma sem_no_group r : forall ic w new,
  no_group r = true -> sem ic r w new -> new = [].
Proof.
  induction r as [|cs|cs lo hi|r1 IH1 r2 IH2|r1 IH1 r2 IH2|name r IH| | |ic' r IH];
    intros ic w new Hg H; simpl in *; try discriminate.
  - tauto.
  - destruct H as (c & _ & _ & H); exact H.
  - tauto.
  - apply andb_true_iff in Hg as [Hg1 Hg2].
    destruct H as (u & v & n1 & n2 & _ & H1 & H2 & ->).
    now rewrite (IH1 _ _ _ Hg1 H1), (IH2 _ _ _ Hg2 H2).
  - apply andb_true_iff in Hg as [Hg1 Hg2].
    destruct H as [H|H]; eauto.
  - tauto.
  - tauto.
  - eauto.
Qed.

(** ** Where a match can start *)

Lemma rmatch_starts r : forall ic k caps prev c s,
  starts ic r c = false ->
  (nullable r = true -> forall caps', k caps' prev (String c s) = None) ->
  rmatch ic r k caps prev (String c s) = None.
Proof.
  induction r as [|cs|cs lo hi|r1 IH1 r2 IH2|r1 IH1 r2 IH2|name r IH| | |ic' r IH];
    intros ic k caps prev c s Hs Hk; simpl in *.
  - auto.
  - now rewrite Hs.
  - rewrite Hs. destruct lo; auto.
  - apply orb_false_iff in Hs as [Hs1 Hs2].
    apply IH1; auto. intros Hn1 caps'. rewrite Hn1 in *. simpl in *.
    apply IH2; auto.
  - apply orb_false_iff in Hs as [Hs1 Hs2].
    rewrite IH1; auto.
    + apply IH2; auto. intros Hn. apply Hk. rewrite Hn. apply orb_true_r.
    + intros Hn. apply Hk. now rewrite Hn.
  - apply IH; auto.
  - match goal with |- (if ?b then _ else _) = _ => destruct b end; auto.
  - match goal with |- (if ?b then _ else _) = _ => destruct b end; auto.
  - apply IH; auto.
Qed.

Lemma rmatch_empty r : forall ic k caps prev,
  nullable r = false -> rmatch ic r k caps prev "" = None.
Proof.
  induction r as [|cs|cs lo hi|r1 IH1 r2 IH2|r1 IH1 r2 IH2|name r IH| | |ic' r IH];
    intros ic k caps prev Hn; simpl in *; try discriminate; auto.
  - destruct lo; [discriminate | reflexivity].
  - apply andb_false_iff in Hn as [Hn|Hn]; [now apply IH1|].
    destruct (rmatch ic r1 (rmatch ic r2 k) caps prev "") as [m|] eqn:E; auto.
    apply rmatch_sound in E as (n & new & Hl & _ & E).
    simpl in Hl. assert (n = 0) by lia; subst. simpl in E.
    now rewrite IH2 in E.
  - apply orb_false_iff in Hn as [Hn1 Hn2]. now rewrite IH1, IH2.
Qed.

Lemma match_here_starts ic r prev c s :
  starts ic r c = false -> nullable r = false ->
  match_here ic r prev (String c s) = None.
Proof.
  intros Hs Hn. apply rmatch_starts; auto. rewrite Hn. discriminate.
Qed.

Lemma search_from_skip ic r prev c s :
  starts ic r c = false -> nullable r = false ->
  search_from ic r prev (String c s) = search_from ic r (Some c) s.
Proof. intros Hs Hn. simpl. now rewrite match_here_starts. Qed.

Lemma search_from_here ic r prev s m :
  match_here ic r prev s = Some m -> search_from ic r prev s = Some m.
Proof. intros H. destruct s; simpl; now rewrite H. Qed.

Lemma search_from_next ic r prev c s :
  match_here ic r prev (String c s) = None ->
  search_from ic r prev (String c s) = search_from ic r (Some c) s.
Proof. intros H. simpl. now rewrite H. Qed.

Lemma search_from_none_before ic r : forall pre prev rest,
  none_before ic r prev pre rest = true ->
  search_from ic r prev (pre +:+ rest)
  = search_from ic r (prev_after prev pre) rest.
Proof.
  induction pre as [|c pre IH]; intros prev rest H; simpl in *; auto.
  destruct (match_here ic r prev (String c (pre +:+ rest))); [discriminate|].
  now apply IH.
Qed.

(** ** The store-sync loop *)

Section Sync.

Context {St : Type} (db : Store St).

Lemma sync_loop_counts : forall workouts st inserted skipped,
  Forall has_date workouts ->
  exists st' inserted' skipped' out,
    sync_loop db st workouts inserted skipped
    = (st', inr (inserted', skipped'), out)
    /\ inserted' + skipped' = inserted + skipped + List.length workouts.
Proof.
  induction workouts as [|w ws IH]; intros st inserted skipped Hall.
  - exists st, inserted, skipped, []. simpl. split; [reflexivity | lia].
  - inversion Hall as [|? ? [d Hd] Hws]; subst. simpl.
    destruct (sync_try db st w) as [[st1 [e|[|]]] out].
    + unfold getitem. rewrite Hd. simpl.
      destruct (IH st1 inserted (S skipped) Hws)
        as (st' & i' & s' & out' & E & Hsum).
      rewrite E. eexists _, _, _, _. split; [reflexivity | lia].
    + destruct (IH st1 (S inserted) skipped Hws)
        as (st' & i' & s' & out' & E & Hsum).
      rewrite E. eexists _, _, _, _. split; [reflexivity | lia].
    + destruct (IH st1 inserted (S skipped) Hws)
        as (st' & i' & s' & out' & E & Hsum).
      rewrite E. eexists _, _, _, _. split; [reflexivity | lia].
Qed.

End Sync.

(** *** What becomes of each record

    The account of the loop in the words of its documentation: each
    record is inserted, or skipped because a row has its date, or skipped
    because a call to the store raised. *)

Lemma count_total (os : list (value * outcome)) :
  count is_inserted os + (count is_duplicate os + count is_failed os)
  = List.length os.
Proof.
  unfold count. induction os as [|[d o] os IH]; [reflexivity|].
  destruct o; simpl; unfold is_inserted, is_duplicate, is_failed in *;
    simpl; lia.
Qed.

Section Outcomes.

Context {St : Type} (db : Store St).

Lemma outcomes_length : forall workouts st,
  List.length (snd (outcomes db st workouts)) = List.length workouts.
Proof.
  induction workouts as [|w ws IH]; intros st; [reflexivity|].
  simpl.
  destruct (settle db st w (default PNone (w !! "workout_date")))
    as [st1 o].
  specialize (IH st1). destruct (outcomes db st1 ws) as [st2 os].
  simpl in *. now rewrite IH.
Qed.

(** The loop does to each record what [settle] says, counts it
    accordingly and prints its lines. *)
Lemma sync_loop_outcomes : forall workouts st inserted skipped,
  Forall has_date workouts ->
  let os := snd (outcomes db st workouts) in
  sync_loop db st workouts inserted skipped
  = (fst (outcomes db st workouts),
     inr (inserted + count is_inserted os,
          skipped + (count is_duplicate os + count is_failed os)),
     List.flat_map outcome_lines os).
Proof.
  induction workouts as [|w ws IH]; intros st inserted skipped Hall.
  - simpl. now rewrite !Nat.add_0_r.
  - inversion Hall as [|? ? [d Hd] Hws]; subst.
    cbn [outcomes sync_loop]. unfold sync_try, getitem. rewrite Hd.
    cbn [default from_option id]. unfold settle. cbn [bind ret].
    destruct (select_by_date db st d) as [st1 [e|[|row rows]]].
    + rewrite (IH st1 inserted (S skipped) Hws).
      destruct (outcomes db st1 ws) as [st2 os]. cbn [fst snd].
      unfold count. simpl. repeat f_equal; lia.
    + destruct (insert_row db st1 w) as [st2 [e|[]]].
      * rewrite (IH st2 inserted (S skipped) Hws).
        destruct (outcomes db st2 ws) as [st3 os]. cbn [fst snd].
        unfold count. simpl. repeat f_equal; lia.
      * rewrite (IH st2 (S inserted) skipped Hws).
        destruct (outcomes db st2 ws) as [st3 os]. cbn [fst snd].
        unfold count. simpl. repeat f_equal; lia.
    + rewrite (IH st1 inserted (S skipped) Hws).
      destruct (outcomes db st1 ws) as [st2 os]. cbn [fst snd].
      unfold count. simpl. repeat f_equal; lia.
Qed.

End Outcomes.

(** C10. Every record of the list is counted once, for what became of
    it: the loop returns, whatever the store answers or raises; the first
    count is the number of records inserted, the second the number of
    records skipped because a row had their date plus the number skipped
    because a call to the store raised; each record is one of the three,
    so the two counts add up to the length of the list. *)
Theorem sync_accounts_for_every_record {St} (db : Store St) (st : St)
        (workouts : list (gmap string value)) :
  Forall has_date workouts ->
  let os := snd (outcomes db st workouts) in
  exists st' inserted skipped out,
    sync_to_supabase db st workouts = (st', inr (inserted, skipped), out)
    /\ st' = fst (outcomes db st workouts)
    /\ inserted = count is_inserted os
    /\ skipped = count is_duplicate os + count is_failed os
    /\ List.length os = List.length workouts
    /\ inserted + skipped = List.length workouts.
Proof.
  intros H os. unfold sync_to_supabase.
  rewrite (sync_loop_outcomes db workouts st 0 0 H). fold os.
  eexists _, _, _, _. split; [reflexivity|].
  split; [reflexivity|]. split; [reflexivity|]. split; [reflexivity|].
  pose proof (outcomes_length db workouts st) as Hlen. fold os in Hlen.
  split; [exact Hlen|]. simpl. rewrite count_total. exact Hlen.
Qed.

Lemma sync_accounts_for_every_record_witness :
  snd (outcomes moody_store [PStr "2024-06-03"] three_records)
  = [ (PStr "2024-06-03", Duplicate); (PStr "2024-06-04", Inserted);
      (PStr "2024-06-05", Failed (OtherError "APIError")) ]
  /\ let os := snd (outcomes moody_store [PStr "2024-06-03"] three_records) in
     exists st' inserted skipped out,
       sync_to_supabase moody_store [PStr "2024-06-03"] three_records
       = (st', inr (inserted, skipped), out)
       /\ st' = fst (outcomes moody_store [PStr "2024-06-03"] three_records)
       /\ inserted = count is_inserted os
       /\ skipped = count is_duplicate os + count is_failed os
       /\ List.length os = List.length three_records
       /\ inserted + skipped = List.length three_records.
Proof.
  split; [reflexivity|].
  apply (sync_accounts_for_every_record moody_store [PStr "2024-06-03"]
           three_records).
  repeat constructor; eexists; reflexivity.
Defined.

(** ** The record assembler *)

Section Assembler.

Context {P : Platform}.

Lemma process_email_has_date mail email_id w out :
  process_email mail email_id = (Some w, out) -> has_date w.
Proof.
  unfold process_email, process_email_try.
  destruct (imap_fetch mail email_id) as [e|[status msg]];
    [intros H; inversion H|].
  destruct (negb (String.eqb status "OK")); [intros H; inversion H|].
  destruct (parse_email_date msg) as [[dt|] out1]; [|intros H; inversion H].
  destruct (decode_email_subject (Some (default "" (h_subject (hdr msg)))))
    as [e|subject]; [intros H; inversion H|].
  destruct (get_email_body msg) as [body out2].
  destruct (is_empty body); [intros H; inversion H|].
  destruct (parse_workout_data body) as [e|data]; intros H; inversion H.
  subst. unfold has_date.
  exists (default (PStr (strftime_ymd dt)) (data !! "workout_date")).
  rewrite lookup_union.
  destruct (data !! "workout_date"); reflexivity.
Qed.

Lemma process_all_has_date mail : forall ids i total,
  Forall has_date (fst (process_all mail ids i total)).
Proof.
  induction ids as [|id ids IH]; intros i total; simpl; [constructor|].
  destruct (process_email mail id) as [[w|] out] eqn:E;
    specialize (IH (S i) total);
    destruct (process_all mail ids (S i) total) as [ws out']; simpl in *;
    auto.
  constructor; auto. eapply process_email_has_date; eauto.
Qed.

End Assembler.

(** ** The entry point *)

Lemma summary_has_banner out : prints_summary out -> In banner out.
Proof.
  intros (f & p & i & s & pre & post & ->).
  apply in_or_app. right. apply in_or_app. left.
  unfold summary, banner. simpl. auto.
Qed.

Lemma no_banner_app a b : no_banner a -> no_banner b -> no_banner (a ++ b).
Proof. unfold no_banner. intros Ha Hb H. apply in_app_or in H. tauto. Qed.

Lemma no_banner_nil : no_banner [].
Proof. intros []. Qed.

(** Closes [no_banner] on a list written out, each of whose lines differs
    from the banner in its first character or in its shape. *)
Ltac no_banner_lit :=
  let H := fresh "Hin" in
  unfold no_banner, banner, line; simpl;
  intros H; repeat (destruct H as [H|H]; [discriminate H|]); exact H.

Section Main.

Context {P : Platform}.

Lemma connect_no_banner cfg mail :
  no_banner (snd (connect_to_gmail cfg mail)).
Proof.
  unfold connect_to_gmail.
  destruct (unset (EMAIL_USER cfg) || unset (EMAIL_PASS cfg)); simpl.
  - apply no_banner_nil.
  - no_banner_lit.
Qed.

Lemma search_no_banner mail : no_banner (snd (search_otf_emails mail)).
Proof.
  unfold search_otf_emails.
  destruct (imap_select mail); simpl; [apply no_banner_nil|].
  destruct (imap_search mail) as [e|[status ids]]; simpl; [no_banner_lit|].
  destruct (negb (String.eqb status "OK")); simpl; no_banner_lit.
Qed.

Lemma parse_email_date_no_banner msg :
  no_banner (snd (parse_email_date msg)).
Proof.
  unfold parse_email_date.
  destruct (h_date (hdr msg)) as [s|]; simpl; [|apply no_banner_nil].
  destruct (is_empty s); simpl; [apply no_banner_nil|].
  destruct (parsedate_to_datetime s); simpl; [|apply no_banner_nil].
  destruct (strptime _); simpl; [no_banner_lit | apply no_banner_nil].
Qed.

Lemma get_email_body_no_banner msg :
  no_banner (snd (get_email_body msg)).
Proof.
  unfold get_email_body.
  destruct (is_multipart msg); simpl; [apply no_banner_nil|].
  destruct (decode_body msg); simpl; [no_banner_lit | apply no_banner_nil].
Qed.

Lemma process_email_try_no_banner mail email_id :
  no_banner (snd (process_email_try mail email_id)).
Proof.
  unfold process_email_try.
  destruct (imap_fetch mail email_id) as [e|[status msg]];
    [apply no_banner_nil|].
  destruct (negb (String.eqb status "OK")); [apply no_banner_nil|].
  pose proof (parse_email_date_no_banner msg) as H1.
  destruct (parse_email_date msg) as [[dt|] out1]; cbn [snd] in *.
  - destruct (decode_email_subject (Some (default "" (h_subject (hdr msg)))))
      as [e|subject]; [exact H1|].
    pose proof (get_email_body_no_banner msg) as H2.
    destruct (get_email_body msg) as [body out2]; cbn [snd] in *.
    destruct (is_empty body); cbn [snd].
    { repeat apply no_banner_app; auto. no_banner_lit. }
    destruct (parse_workout_data body); cbn [snd];
      repeat apply no_banner_app; auto.
  - apply no_banner_app; [exact H1 | no_banner_lit].
Qed.

Lemma process_email_no_banner mail email_id :
  no_banner (snd (process_email mail email_id)).
Proof.
  unfold process_email.
  pose proof (process_email_try_no_banner mail email_id) as H.
  destruct (process_email_try mail email_id) as [[e|r] out]; cbn [snd] in *.
  - apply no_banner_app; [exact H | no_banner_lit].
  - exact H.
Qed.

Lemma process_all_no_banner mail : forall ids i total,
  no_banner (snd (process_all mail ids i total)).
Proof.
  induction ids as [|id ids IH]; intros i total; simpl;
    [apply no_banner_nil|].
  pose proof (process_email_no_banner mail id) as H1.
  destruct (process_email mail id) as [w out]; simpl in *.
  specialize (IH (S i) total).
  destruct (process_all mail ids (S i) total) as [ws out']; simpl in *.
  change (no_banner ([([FText ("Processing email " +:+ str_nat (i + 1)
                                +:+ "/" +:+ str_nat total +:+ "...")],
                       carriage_return)] ++ (out ++ out'))).
  repeat apply no_banner_app; auto. no_banner_lit.
Qed.

Context {St : Type}.
Variables (cfg : Config) (mail : Mailbox) (db : Store St) (st : St).

(** C3, as the code has it. When the connections succeed and the search
    returns identifiers, [main] ends with the summary of the four counts
    if at least one workout was parsed: the number of identifiers, the
    number of workouts parsed from them, and the two counts the sync of
    these workouts returned, printed after what the sync printed; if no
    workout was parsed, it ends with the count of parsed workouts and
    prints no summary. *)
Theorem main_summary_iff_parsed ids out2 :
  get_supabase_client cfg db = inr tt ->
  fst (connect_to_gmail cfg mail) = inr tt ->
  search_otf_emails mail = (inr ids, out2) ->
  ids <> [] ->
  let workouts := fst (process_all mail ids 0 (List.length ids)) in
  (workouts <> [] ->
   exists st' pre inserted skipped out5,
     sync_to_supabase db st workouts = (st', inr (inserted, skipped), out5)
     /\ main cfg mail db st
        = (st', imap_logout mail,
           pre ++ out5
           ++ summary (List.length ids) (List.length workouts)
                      inserted skipped)
     /\ inserted + skipped = List.length workouts)
  /\ (workouts = [] ->
      exists pre,
        main cfg mail db st
        = (st, imap_logout mail,
           pre ++ [line ""; line "Successfully parsed 0 workout emails"])
        /\ ~ prints_summary
             (pre ++ [line "";
                      line "Successfully parsed 0 workout emails"])).
Proof.
  intros Hdb Hmail Hsearch Hids workouts. unfold main.
  rewrite Hdb.
  pose proof (connect_no_banner cfg mail) as Hb1.
  destruct (connect_to_gmail cfg mail) as [c out1] eqn:Ec.
  simpl in Hmail, Hb1. subst c.
  pose proof (search_no_banner mail) as Hb2.
  rewrite Hsearch in Hb2 |- *. simpl in Hb2.
  destruct ids as [|id ids]; [contradiction|].
  pose proof (process_all_has_date mail (id :: ids) 0
                (List.length (id :: ids))) as Hdates.
  pose proof (process_all_no_banner mail (id :: ids) 0
                (List.length (id :: ids))) as Hb3.
  fold workouts in Hdates.
  destruct (process_all mail (id :: ids) 0 (List.length (id :: ids)))
    as [ws out3] eqn:Ep.
  simpl in workouts, Hb3. subst workouts. split.
  - intros Hne. destruct ws as [|w ws]; [contradiction|].
    destruct (sync_loop_counts db (w :: ws) st 0 0 Hdates)
      as (st' & i & s & out5 & E & Hsum).
    unfold sync_to_supabase. rewrite E.
    eexists st', _, i, s, out5. split; [reflexivity|].
    split; [reflexivity | exact Hsum].
  - intros ->. eexists. split.
    + f_equal. rewrite !List.app_assoc. reflexivity.
    + intros Hs. apply summary_has_banner in Hs. revert Hs.
      repeat apply no_banner_app; auto; no_banner_lit.
Qed.

End Main.

(** C3, as stated, fails: one e-mail is found, its extraction fails, and
    [main] returns without printing a summary. *)
Lemma main_no_summary_when_nothing_parsed :
  let out := snd (main (P := Sample.platform) Sample.config
                       (Sample.mailbox undated_message) Sample.store []) in
  In (line "Found 1 OTF emails") out
  /\ In (line "Successfully parsed 0 workout emails") out
  /\ ~ prints_summary out.
Proof.
  cbv zeta. repeat split.
  - vm_compute. tauto.
  - vm_compute. tauto.
  - intros H. apply summary_has_banner in H. revert H. vm_compute.
    intros H. repeat (destruct H as [H|H]; [discriminate H|]). exact H.
Qed.

Lemma main_summary_iff_parsed_witness :
  let mail := Sample.mailbox dated_message in
  let workouts := fst (process_all (P := Sample.platform) mail ["1"] 0 1) in
  List.length workouts = 1
  /\ exists st' pre inserted skipped out5,
      sync_to_supabase Sample.store [] workouts
      = (st', inr (inserted, skipped), out5)
      /\ main (P := Sample.platform) Sample.config mail Sample.store []
         = (st', imap_logout mail,
            pre ++ out5
            ++ summary 1 (List.length workouts) inserted skipped)
      /\ inserted + skipped = List.length workouts.
Proof.
  cbv zeta.
  assert (Hlen : List.length
                   (fst (process_all (P := Sample.platform)
                           (Sample.mailbox dated_message) ["1"] 0 1)) = 1)
    by (vm_compute; reflexivity).
  split; [exact Hlen|].
  apply (main_summary_iff_parsed (P := Sample.platform) Sample.config
           (Sample.mailbox dated_message) Sample.store [] ["1"]
           [line ("Searching for emails: " +:+ search_criteria);
            line "Found 1 OTF emails"]).
  - vm_compute; reflexivity.
  - vm_compute; reflexivity.
  - vm_compute; reflexivity.
  - discriminate.
  - intros E. change (List.length ["1"]) with 1 in E.
    rewrite E in Hlen. discriminate Hlen.
Defined.

(** ** The body selector *)

Section BodySelector.

Context {P : Platform}.

Lemma select_body_first_html : forall before html after body text,
  is_attachment html = false ->
  is_html html = true ->
  decode_body html = inr text ->
  (forall p, In p before -> is_attachment p = false -> is_html p = true ->
             exists e, decode_body p = inl e) ->
  select_body (before ++ html :: after) body = text.
Proof.
  unfold is_attachment, is_html.
  induction before as [|p before IH];
    intros html after body text Ha Hh Hd Hbefore; simpl.
  - now rewrite Ha, Hh, Hd.
  - assert (Hrest : forall body', select_body (before ++ html :: after) body'
                                  = text).
    { intros body'. apply IH; auto. intros q Hq. apply Hbefore. now right. }
    destruct (Str.contains "attachment" (disposition_str p)) eqn:Ea; auto.
    destruct (String.eqb (content_type (hdr p)) "text/html") eqn:Eh.
    + destruct (Hbefore p (or_introl eq_refl) Ea Eh) as [e ->]. auto.
    + destruct (String.eqb (content_type (hdr p)) "text/plain"
                && is_empty body); auto.
      destruct (decode_body p); auto.
Qed.

Lemma select_body_nothing_usable : forall parts body,
  (forall p, In p parts ->
             is_attachment p = true
             \/ (is_html p = false /\ is_plain p = false)) ->
  select_body parts body = body.
Proof.
  unfold is_attachment, is_html, is_plain.
  induction parts as [|p parts IH]; intros body H; simpl; auto.
  assert (Hrest : select_body parts body = body).
  { apply IH. intros q Hq. apply H. now right. }
  destruct (H p (or_introl eq_refl)) as [Ha|[Hh Hp]].
  - now rewrite Ha.
  - rewrite Hh, Hp. simpl.
    now destruct (Str.contains "attachment" (disposition_str p)).
Qed.

(** C4, as the code has it. In a multipart message the body is the text
    of the first HTML part that is not an attachment and whose payload
    decodes: HTML parts before it whose decoding raises are passed over,
    plain-text parts do not matter, and the parts after it are not
    looked at. *)
Theorem first_decodable_html_is_selected msg before html after text :
  is_multipart msg = true ->
  walk msg = before ++ html :: after ->
  is_attachment html = false ->
  is_html html = true ->
  decode_body html = inr text ->
  (forall p, In p before -> is_attachment p = false -> is_html p = true ->
             exists e, decode_body p = inl e) ->
  get_email_body msg = (text, []).
Proof.
  intros Hm Hw Ha Hh Hd Hb. unfold get_email_body. rewrite Hm, Hw.
  f_equal. now apply select_body_first_html.
Qed.

(** ** The record assembler: rejections *)

Lemma process_email_no_date mail email_id status msg :
  imap_fetch mail email_id = inr (status, msg) ->
  fst (parse_email_date msg) = None ->
  fst (process_email mail email_id) = None.
Proof.
  intros Hf Hd. unfold process_email, process_email_try. rewrite Hf.
  destruct (negb (String.eqb status "OK")); [reflexivity|].
  destruct (parse_email_date msg) as [d out1]. simpl in Hd. subst d.
  reflexivity.
Qed.

Lemma process_email_no_body mail email_id status msg :
  imap_fetch mail email_id = inr (status, msg) ->
  fst (get_email_body msg) = "" ->
  fst (process_email mail email_id) = None.
Proof.
  intros Hf Hb. unfold process_email, process_email_try. rewrite Hf.
  destruct (negb (String.eqb status "OK")); [reflexivity|].
  destruct (parse_email_date msg) as [[dt|] out1]; [|reflexivity].
  destruct (decode_email_subject (Some (default "" (h_subject (hdr msg)))))
    as [e|subject]; [reflexivity|].
  destruct (get_email_body msg) as [body out2]. simpl in Hb. subst body.
  reflexivity.
Qed.

(** C6. A message without a Date header, or whose Date header both the
    standard parser and the fixed-format fallback reject, has no date
    and yields no record. *)
Theorem no_date_no_record mail email_id status msg :
  imap_fetch mail email_id = inr (status, msg) ->
  (h_date (hdr msg) = None
   \/ exists s e1 e2,
        h_date (hdr msg) = Some s
        /\ parsedate_to_datetime s = inl e1
        /\ strptime (sub_empty false tzname_pattern s) = inl e2) ->
  fst (parse_email_date msg) = None
  /\ fst (process_email mail email_id) = None.
Proof.
  intros Hf H.
  assert (Hd : fst (parse_email_date msg) = None).
  { unfold parse_email_date.
    destruct H as [->|(s & e1 & e2 & -> & -> & ->)]; [reflexivity|].
    now destruct (is_empty s). }
  split; [exact Hd|]. eapply process_email_no_date; eauto.
Qed.

(** C7, as the code has it. A multipart message whose HTML and plain-text
    parts are all attachments has an empty body, and a message whose
    selected body is empty yields no record. *)
Theorem no_body_no_record mail email_id status msg :
  imap_fetch mail email_id = inr (status, msg) ->
  (is_multipart msg = true
   /\ (forall p, In p (walk msg) ->
                 is_attachment p = true
                 \/ (is_html p = false /\ is_plain p = false)))
  \/ fst (get_email_body msg) = "" ->
  fst (get_email_body msg) = ""
  /\ fst (process_email mail email_id) = None.
Proof.
  intros Hf H.
  assert (Hb : fst (get_email_body msg) = "").
  { destruct H as [[Hm Hall]|H]; [|exact H].
    unfold get_email_body. rewrite Hm. simpl.
    now apply select_body_nothing_usable. }
  split; [exact Hb|]. eapply process_email_no_body; eauto.
Qed.

End BodySelector.

(** *** Scenarios *)

(** C4, as stated, fails: the message has an HTML part and a plain-text
    part, neither an attachment, and the plain text is the body. *)
Lemma html_with_unknown_charset_not_selected :
  is_attachment (Scenario.html_part "x-unknown") = false
  /\ is_attachment Scenario.plain_part = false
  /\ get_email_body (P := Sample.platform) Scenario.unknown_charset_message
     = (Scenario.plain_text, []).
Proof. repeat split; vm_compute; reflexivity. Qed.

Lemma first_decodable_html_is_selected_witness :
  get_email_body (P := Sample.platform)
    (Scenario.container
       [Scenario.plain_part; Scenario.html_part "x-unknown";
        Scenario.html_part ""; Scenario.html_part "latin-1"])
  = (Scenario.html_text, []).
Proof.
  apply (first_decodable_html_is_selected (P := Sample.platform) _
           [Scenario.container
              [Scenario.plain_part; Scenario.html_part "x-unknown";
               Scenario.html_part ""; Scenario.html_part "latin-1"];
            Scenario.plain_part; Scenario.html_part "x-unknown"]
           (Scenario.html_part "") [Scenario.html_part "latin-1"]).
  - reflexivity.
  - reflexivity.
  - vm_compute; reflexivity.
  - vm_compute; reflexivity.
  - vm_compute; reflexivity.
  - intros p [<-|[<-|[<-|[]]]]; vm_compute; intros Ha Hh;
      try discriminate Hh. eexists; reflexivity.
Defined.

Lemma no_date_no_record_witness :
  fst (parse_email_date (P := Sample.platform) Scenario.garbled_date_message)
  = None
  /\ fst (process_email (P := Sample.platform)
            (Sample.mailbox Scenario.garbled_date_message) "1") = None.
Proof.
  apply (no_date_no_record (P := Sample.platform)
           (Sample.mailbox Scenario.garbled_date_message) "1" "OK"
           Scenario.garbled_date_message).
  - reflexivity.
  - right. exists "yesterday", ValueError, ValueError.
    repeat split; vm_compute; reflexivity.
Defined.

(** C7, as stated, fails: the only part of the message is an attachment,
    it is not multipart, and its payload is the body; a record comes out. *)
Lemma single_attachment_is_analysed :
  is_attachment Scenario.only_attachment_single = true
  /\ get_email_body (P := Sample.platform) Scenario.only_attachment_single
     = (Scenario.html_text, [])
  /\ Scenario.found_record
       (process_email (P := Sample.platform)
          (Sample.mailbox Scenario.only_attachment_single) "1") = true.
Proof. repeat split; vm_compute; reflexivity. Qed.

Lemma no_body_no_record_witness :
  fst (get_email_body (P := Sample.platform)
         Scenario.only_attachment_multipart) = ""
  /\ fst (process_email (P := Sample.platform)
            (Sample.mailbox Scenario.only_attachment_multipart) "1") = None.
Proof.
  apply (no_body_no_record (P := Sample.platform)
           (Sample.mailbox Scenario.only_attachment_multipart) "1" "OK"
           Scenario.only_attachment_multipart).
  - reflexivity.
  - left. split; [reflexivity|].
    intros p [<-|[<-|[]]]; [right | left]; vm_compute; auto.
Defined.

(** ** The end-to-end scenario *)

Section Scenario.

Context {P : Platform}.

Lemma scenario_fields body :
  soup_get_text body = scenario_text ->
  parse_workout_data body
  = inr ({[ "treadmill_distance" := PFloat (36 # 10);
            "rower_distance" := PInt 860;
            "splat_points" := PInt 12;
            "calories" := PInt 674 ]}).
Proof.
  intros Ht. unfold parse_workout_data. rewrite Ht. reflexivity.
Qed.

Lemma scenario_date_resolved msg :
  h_date (hdr msg) = Some scenario_date ->
  (forall dt, parsedate_to_datetime scenario_date = inr dt ->
              dt = scenario_datetime) ->
  parse_email_date msg = (Some scenario_datetime, []).
Proof.
  intros Hd Hstd. unfold parse_email_date. rewrite Hd.
  change (is_empty scenario_date) with false. cbv iota.
  destruct (parsedate_to_datetime scenario_date) as [e|dt] eqn:E.
  - replace (strptime (sub_empty false tzname_pattern scenario_date))
      with (@inr exn datetime scenario_datetime)
      by (vm_compute; reflexivity).
    reflexivity.
  - now rewrite (Hstd dt eq_refl).
Qed.

(** C1. The scenario of the specification: with the Date header
    "Mon, 03 Jun 2024 07:15:00 -0400" and a body whose text is the
    scenario text, the pipeline produces the record dated 2024-06-03
    with 12 splat points, 3.6 miles, 860 metres and 674 calories. *)
Theorem end_to_end_scenario mail email_id msg subject body :
  imap_fetch mail email_id = inr ("OK", msg) ->
  h_date (hdr msg) = Some scenario_date ->
  (forall dt, parsedate_to_datetime scenario_date = inr dt ->
              dt = scenario_datetime) ->
  decode_email_subject (Some (default "" (h_subject (hdr msg))))
  = inr subject ->
  fst (get_email_body msg) = body ->
  is_empty body = false ->
  soup_get_text body = scenario_text ->
  fst (process_email mail email_id) = Some (scenario_record subject).
Proof.
  intros Hf Hd Hstd Hsubj Hbody Hne Ht.
  unfold process_email, process_email_try. rewrite Hf. simpl negb. cbv iota.
  rewrite (scenario_date_resolved msg Hd Hstd), Hsubj.
  destruct (get_email_body msg) as [b out2]. simpl in Hbody. subst b.
  rewrite Hne, (scenario_fields body Ht). reflexivity.
Qed.

End Scenario.

Lemma end_to_end_scenario_witness :
  fst (process_email (P := Sample.platform)
         (Sample.mailbox scenario_message) "1")
  = Some (scenario_record "way to conquer that workout").
Proof.
  apply (end_to_end_scenario (P := Sample.platform)
           (Sample.mailbox scenario_message) "1" scenario_message
           "way to conquer that workout" scenario_text).
  - reflexivity.
  - reflexivity.
  - intros dt. vm_compute. intros H. inversion H. reflexivity.
  - vm_compute; reflexivity.
  - vm_compute; reflexivity.
  - reflexivity.
  - vm_compute; reflexivity.
Defined.

(** ** Facts about characters, by enumeration *)

Lemma all_ascii_spec p : all_ascii p = true -> forall c, p c = true.
Proof.
  intros H c. rewrite <- (ascii_nat_embedding c).
  unfold all_ascii in H. rewrite forallb_forall in H. apply H.
  apply in_seq. pose proof (nat_ascii_bounded c). lia.
Qed.

(** [p c] implies [q c], for every character. *)
Lemma ascii_implies (p q : ascii -> bool) :
  all_ascii (fun c => implb (p c) (q c)) = true ->
  forall c, p c = true -> q c = true.
Proof.
  intros H c Hp. pose proof (all_ascii_spec _ H c) as Hc. simpl in Hc.
  now rewrite Hp in Hc.
Qed.

(** Closes [forall c, p c = true -> q c = true] by checking the 256
    characters. *)
Ltac by_enumeration :=
  match goal with
  | |- forall c : ascii, ?p = true -> ?q = true =>
      let c := fresh "c" in
      intros c;
      pattern c;
      match goal with
      | |- (fun x => @?pp x = true -> @?qq x = true) _ =>
          exact (ascii_implies pp qq ltac:(vm_compute; reflexivity) c)
      end
  end.

Lemma digit_mem ic : forall c, Chr.is_digit c = true ->
  cset_mem ic CDigit c = true.
Proof. intros c H. unfold cset_mem. simpl. now rewrite H. Qed.

Lemma digit_not_space_mem : forall c, Chr.is_digit c = true ->
  negb (cset_mem true CSpace c) = true.
Proof. by_enumeration. Qed.

Lemma digit_is_numeric : forall c, Chr.is_digit c = true -> numeric c = true.
Proof. intros c H. unfold numeric. now rewrite H. Qed.

Lemma all_impl (p q : ascii -> bool) s :
  (forall c, p c = true -> q c = true) ->
  Str.all p s = true -> Str.all q s = true.
Proof.
  intros H. induction s as [|c s IH]; simpl; auto.
  intros Hs. apply andb_true_iff in Hs as [Hc Hs].
  now rewrite (H c Hc), IH.
Qed.

(** ** Reading a text forwards *)

Lemma take_length_diff w r :
  Str.take (String.length (w +:+ r) - String.length r) (w +:+ r) = w.
Proof.
  rewrite length_app.
  replace (String.length w + String.length r - String.length r)
    with (String.length w) by lia.
  apply take_app.
Qed.

Section Forward.

Variable ic : bool.

Lemma rmatch_seq_set cs r k caps prev c s :
  cset_mem ic cs c = true ->
  rmatch ic (RSeq (RSet cs) r) k caps prev (String c s)
  = rmatch ic r k caps (Some c) s.
Proof. intros H. simpl. now rewrite H. Qed.

Lemma rmatch_set cs k caps prev c s :
  cset_mem ic cs c = true ->
  rmatch ic (RSet cs) k caps prev (String c s) = k caps (Some c) s.
Proof. intros H. simpl. now rewrite H. Qed.

Lemma rmatch_rep cs lo hi k caps prev w rest m :
  Str.all (cset_mem ic cs) w = true ->
  lo <= String.length w ->
  fits hi (String.length w) ->
  stops (cset_mem ic cs) hi (String.length w) rest ->
  k caps (prev_after prev w) rest = Some m ->
  rmatch ic (RRep cs lo hi) k caps prev (w +:+ rest) = Some m.
Proof. intros. simpl. now apply rep_greedy. Qed.

Lemma rmatch_seq_rep cs lo hi r k caps prev w rest m :
  Str.all (cset_mem ic cs) w = true ->
  lo <= String.length w ->
  fits hi (String.length w) ->
  stops (cset_mem ic cs) hi (String.length w) rest ->
  rmatch ic r k caps (prev_after prev w) rest = Some m ->
  rmatch ic (RSeq (RRep cs lo hi) r) k caps prev (w +:+ rest) = Some m.
Proof. intros. simpl. now apply rep_greedy. Qed.

(** A group around one quantifier. *)
Lemma rmatch_seq_group_rep name cs lo hi r k caps prev w rest m :
  Str.all (cset_mem ic cs) w = true ->
  lo <= String.length w ->
  fits hi (String.length w) ->
  stops (cset_mem ic cs) hi (String.length w) rest ->
  rmatch ic r k ((name, w) :: caps) (prev_after prev w) rest = Some m ->
  rmatch ic (RSeq (RGroup name (RRep cs lo hi)) r) k caps prev (w +:+ rest)
  = Some m.
Proof.
  intros Hall Hlo Hfit Hstop Hk. simpl.
  apply rep_greedy; auto. now rewrite take_length_diff.
Qed.

End Forward.

(** ** The one group of a pattern *)

Lemma sem_only_group r : forall ic w new name body,
  only_group r = Some (name, body) ->
  sem ic r w new ->
  exists u, new = [(name, u)] /\ sem ic body u [].
Proof.
  induction r as [|cs|cs lo hi|r1 IH1 r2 IH2|r1 IH1 r2 IH2|nm r IH| | |ic' r IH];
    intros ic w new name body Hg Hs; simpl in Hg; try discriminate.
  - destruct Hs as (u & v & n1 & n2 & _ & H1 & H2 & ->).
    destruct (no_group r1) eqn:G1.
    + rewrite (sem_no_group _ _ _ _ G1 H1), List.app_nil_r. eauto.
    + destruct (no_group r2) eqn:G2; [|discriminate].
      rewrite (sem_no_group _ _ _ _ G2 H2). simpl. eauto.
  - destruct (no_group r) eqn:G; [|discriminate]. inversion Hg; subst.
    destruct Hs as (n & Hs & ->).
    pose proof (sem_no_group _ _ _ _ G Hs) as ->. eauto.
Qed.

(** A successful search recorded the one group of the pattern. *)
Lemma search_only_group ic r name body s m :
  only_group r = Some (name, body) ->
  search ic r s = Some m ->
  exists u, fst m = [(name, u)] /\ sem ic body u [].
Proof.
  intros Hg Hs. destruct m as [caps rest].
  apply search_from_sound in Hs as (pre & w & _ & Hs).
  eapply sem_only_group; eauto.
Qed.

(** ** Conversions of what the patterns capture *)

Lemma lstrip_by_id p c s :
  p c = false -> lstrip_by p (String c s) = String c s.
Proof. intros H. simpl. now rewrite H. Qed.

Lemma rstrip_by_id p s :
  (forall c, In c (list_ascii_of_string s) -> p c = false) ->
  rstrip_by p s = s.
Proof.
  induction s as [|c s IH]; intros H; simpl; auto.
  rewrite IH by (intros x Hx; apply H; now right).
  destruct s; auto. rewrite H; auto. now left.
Qed.

Lemma digit_not_num_space : forall c,
  Chr.is_digit c = true -> negb (is_num_space c) = true.
Proof. by_enumeration. Qed.

Lemma numeric_not_num_space : forall c,
  numeric c = true -> negb (is_num_space c) = true.
Proof. by_enumeration. Qed.

Lemma all_In p s :
  Str.all p s = true -> forall c, In c (list_ascii_of_string s) -> p c = true.
Proof.
  induction s as [|x s IH]; simpl; intros H c; [tauto|].
  apply andb_true_iff in H as [Hx Hs]. intros [<-|Hc]; auto.
Qed.

Lemma num_strip_numeric s :
  Str.all numeric s = true -> num_strip s = s.
Proof.
  intros H. unfold num_strip.
  assert (Hns : forall c, In c (list_ascii_of_string s) ->
                          is_num_space c = false).
  { intros c Hc. apply negb_true_iff, numeric_not_num_space.
    eapply all_In; eauto. }
  destruct s as [|c s]; [reflexivity|].
  rewrite lstrip_by_id by (apply Hns; now left).
  now apply rstrip_by_id.
Qed.

Lemma int_digits_value : forall s acc,
  Str.all Chr.is_digit s = true ->
  int_digits acc s = Some (digits_value acc s).
Proof.
  induction s as [|c s IH]; intros acc H; simpl in *; auto.
  apply andb_true_iff in H as [Hc Hs]. rewrite Hc. now apply IH.
Qed.

Lemma digit_not_sign : forall c,
  Chr.is_digit c = true ->
  negb (Chr.eqb c "+") && negb (Chr.eqb c "-") = true.
Proof. by_enumeration. Qed.

Lemma ascii_eqb_false c x :
  Chr.eqb c x = false -> c <> x.
Proof. intros H ->. unfold Chr.eqb in H. now rewrite N.eqb_refl in H. Qed.

Lemma filter_digits_id : forall s,
  Str.all Chr.is_digit s = true -> Str.filter Chr.is_digit s = s.
Proof.
  induction s as [|c s IH]; intros H; simpl in *; [reflexivity|].
  apply andb_true_iff in H as [-> H]. now rewrite IH.
Qed.

(** [int] reads a non-empty run of digits as its decimal value, unless the
    run is longer than the limit. *)
Lemma int_of_digits s :
  Str.all Chr.is_digit s = true -> s <> "" ->
  int s = if (int_max_str_digits <? String.length s)%nat
          then inl ValueError
          else inr (digits_value 0 s).
Proof.
  intros H Hne. unfold int.
  rewrite num_strip_numeric
    by (apply (all_impl Chr.is_digit numeric); [apply digit_is_numeric | exact H]).
  rewrite (filter_digits_id s H).
  destruct s as [|c s]; [contradiction|].
  pose proof H as H'. simpl in H'. apply andb_true_iff in H' as [Hc _].
  pose proof (digit_not_sign c Hc) as Hsign.
  apply andb_true_iff in Hsign as [Hp Hm].
  apply negb_true_iff in Hp, Hm.
  apply ascii_eqb_false in Hp, Hm.
  assert (E : unsigned_int (String c s) = Some (digits_value 0 (String c s))).
  { unfold unsigned_int. rewrite Hc. now apply int_digits_value. }
  remember (int_max_str_digits <? String.length (String c s))%nat as big.
  clear Heqbig.
  destruct c as [b0 b1 b2 b3 b4 b5 b6 b7].
  destruct b0, b1, b2, b3, b4, b5, b6, b7;
    try (exfalso; apply Hp; reflexivity);
    try (exfalso; apply Hm; reflexivity);
    rewrite E; reflexivity.
Qed.

(** Within the limit, the value. *)
Lemma int_of_short_digits s :
  Str.all Chr.is_digit s = true -> s <> "" ->
  String.length s <= int_max_str_digits ->
  int s = inr (digits_value 0 s).
Proof.
  intros H Hne Hlen. rewrite int_of_digits by assumption.
  now apply Nat.ltb_ge in Hlen as ->.
Qed.

Lemma span_digits_app a b :
  Str.all Chr.is_digit a = true ->
  match b with
  | EmptyString => True
  | String c _ => Chr.is_digit c = false
  end ->
  span_digits (a +:+ b) = (a, b).
Proof.
  intros Ha Hb. induction a as [|c a IH]; simpl in *.
  - destruct b as [|c b]; [reflexivity|]. simpl. now rewrite Hb.
  - apply andb_true_iff in Ha as [Hc Ha]. rewrite Hc, IH; auto.
Qed.

Lemma span_digits_all a :
  Str.all Chr.is_digit a = true -> span_digits a = (a, "").
Proof.
  intros Ha. rewrite <- (app_nil_r a) at 1. now apply span_digits_app.
Qed.

Lemma digits_value_app a b acc :
  digits_value acc (a +:+ b) = digits_value (digits_value acc a) b.
Proof. revert acc; induction a as [|c a IH]; intros; simpl; auto. Qed.

(** The float of an unsigned numeral that starts with a digit. *)
Lemma float_unsigned s q :
  Str.all numeric s = true ->
  match s with
  | String c _ => Chr.is_digit c = true
  | EmptyString => False
  end ->
  unsigned_float s = Some q ->
  float s = inr q.
Proof.
  intros Hn Hd Hu. unfold float. rewrite num_strip_numeric by assumption.
  destruct s as [|c s]; [contradiction|].
  pose proof (digit_not_sign c Hd) as Hsign.
  apply andb_true_iff in Hsign as [Hp Hm].
  apply negb_true_iff in Hp, Hm. apply ascii_eqb_false in Hp, Hm.
  destruct c as [b0 b1 b2 b3 b4 b5 b6 b7].
  destruct b0, b1, b2, b3, b4, b5, b6, b7;
    try (exfalso; apply Hp; reflexivity);
    try (exfalso; apply Hm; reflexivity);
    now rewrite Hu.
Qed.

Lemma first_of_app a b :
  a <> "" ->
  match a +:+ b with
  | String c _ => match a with String x _ => c = x | EmptyString => False end
  | EmptyString => False
  end.
Proof. destruct a; simpl; [contradiction | reflexivity]. Qed.

Lemma float_of_int ip :
  Str.all Chr.is_digit ip = true -> ip <> "" ->
  float ip = inr (decimal ip "").
Proof.
  intros Hi Hne. apply float_unsigned.
  - eapply all_impl; [apply digit_is_numeric | exact Hi].
  - destruct ip as [|c ip]; [contradiction|]. simpl in Hi.
    now apply andb_true_iff in Hi as [Hc _].
  - unfold unsigned_float. rewrite span_digits_all by assumption.
    destruct ip; [contradiction | reflexivity].
Qed.

Lemma float_of_point ip fp :
  Str.all Chr.is_digit ip = true -> ip <> "" ->
  Str.all Chr.is_digit fp = true ->
  float (ip +:+ "." +:+ fp) = inr (decimal ip fp).
Proof.
  intros Hi Hne Hf. apply float_unsigned.
  - rewrite !all_app.
    rewrite (all_impl _ _ _ digit_is_numeric Hi).
    rewrite (all_impl _ _ _ digit_is_numeric Hf). reflexivity.
  - destruct ip as [|c ip]; [contradiction|]. simpl in *.
    now apply andb_true_iff in Hi as [Hc _].
  - unfold unsigned_float.
    rewrite (span_digits_app ip ("." +:+ fp)) by (auto; reflexivity).
    simpl. rewrite span_digits_all by assumption. simpl.
    destruct ip; [contradiction | reflexivity].
Qed.

Lemma mem_digit : forall c, cset_mem true CDigit c = true ->
  Chr.is_digit c = true.
Proof. by_enumeration. Qed.

Lemma mem_point : forall c, cset_mem true (CChar ".") c = true ->
  Chr.eqb c "." = true.
Proof. by_enumeration. Qed.

Lemma mem_digit_or_comma : forall c,
  cset_mem true (CUnion CDigit (CChar ",")) c = true ->
  digit_or_comma c = true.
Proof. by_enumeration. Qed.

Lemma ascii_eqb_true c x : Chr.eqb c x = true -> c = x.
Proof.
  unfold Chr.eqb, Chr.code. intros H. apply N.eqb_eq in H.
  rewrite <- (ascii_N_embedding c), <- (ascii_N_embedding x). now rewrite H.
Qed.

Lemma remove_commas u :
  Str.all digit_or_comma u = true ->
  Str.remove_char "," u = Str.filter Chr.is_digit u.
Proof.
  unfold Str.remove_char, digit_or_comma.
  induction u as [|c u IH]; simpl; auto. intros H.
  apply andb_true_iff in H as [Hc Hu]. rewrite (IH Hu).
  destruct (Chr.is_digit c) eqn:Ed; simpl in Hc.
  - assert (Hne : Chr.eqb c "," = false).
    { destruct (Chr.eqb c ",") eqn:E; auto.
      apply ascii_eqb_true in E. subst. discriminate Ed. }
    now rewrite Hne.
  - now rewrite Hc.
Qed.

Lemma filter_all p u : Str.all p (Str.filter p u) = true.
Proof.
  induction u as [|c u IH]; simpl; auto.
  destruct (p c) eqn:E; simpl; auto. now rewrite E.
Qed.

(** ** What the four searches capture, on any text *)

Section Captures.

Variable text : string.

Lemma cal_capture m :
  search IGNORECASE cal_pattern text = Some m ->
  int (group m "1") = inr (digits_value 0 (group m "1")).
Proof.
  intros H.
  destruct (search_only_group IGNORECASE cal_pattern "1"
              (RRep CDigit 2 (Some 4)) text m eq_refl H)
    as (u & Hm & Hall & Hlen & Hhi & _).
  unfold group. rewrite Hm. simpl lookup.
  apply int_of_short_digits.
  - eapply all_impl; [apply mem_digit | exact Hall].
  - intros ->. simpl in Hlen. lia.
  - simpl in Hhi. unfold int_max_str_digits. lia.
Qed.

Lemma splat_capture m :
  search IGNORECASE splat_pattern text = Some m ->
  int (group m "1") = inr (digits_value 0 (group m "1")).
Proof.
  intros H.
  destruct (search_only_group IGNORECASE splat_pattern "1"
              (RRep CDigit 1 (Some 2)) text m eq_refl H)
    as (u & Hm & Hall & Hlen & Hhi & _).
  unfold group. rewrite Hm. simpl lookup.
  apply int_of_short_digits.
  - eapply all_impl; [apply mem_digit | exact Hall].
  - intros ->. simpl in Hlen. lia.
  - simpl in Hhi. unfold int_max_str_digits. lia.
Qed.

Lemma tread_capture m :
  search IGNORECASE tread_pattern text = Some m ->
  exists q, float (group m "1") = inr q.
Proof.
  intros H.
  destruct (search_only_group IGNORECASE tread_pattern "1"
              (RSeq (RRep CDigit 1 None)
                    (RSeq (RRep (CChar ".") 0 (Some 1)) (RRep CDigit 0 None)))
              text m eq_refl H) as (u & Hm & Hs).
  unfold group. rewrite Hm. simpl. clear Hm H.
  destruct Hs as (ip & v & n1 & n2 & -> & (Hip & Hlen & _) & Hv & _).
  destruct Hv as (dot & fp & n3 & n4 & -> & (Hdot & _ & Hdl & _)
                  & (Hfp & _) & _).
  apply (all_impl _ _ _ mem_digit) in Hip, Hfp.
  assert (Hne : ip <> "") by (intros ->; simpl in Hlen; lia).
  destruct dot as [|d dot].
  - simpl.
    exists (decimal (ip +:+ fp) ""). apply float_of_int.
    + now rewrite all_app, Hip, Hfp.
    + destruct ip; [contradiction | discriminate].
  - destruct dot; [|simpl in Hdl; lia].
    simpl in Hdot. rewrite andb_true_r in Hdot.
    apply mem_point, ascii_eqb_true in Hdot. subst d.
    exists (decimal ip fp). now apply float_of_point.
Qed.

Lemma rower_capture m :
  search IGNORECASE rower_pattern text = Some m ->
  let digits := Str.filter Chr.is_digit (group m "1") in
  int (Str.remove_char "," (group m "1"))
  = if is_empty digits
       || (int_max_str_digits <? String.length digits)%nat
    then inl ValueError
    else inr (digits_value 0 digits).
Proof.
  intros H.
  destruct (search_only_group IGNORECASE rower_pattern "1"
              (RRep (CUnion CDigit (CChar ",")) 1 None) text m eq_refl H)
    as (u & Hm & Hall & _).
  unfold group. rewrite Hm. simpl.
  apply (all_impl _ _ _ mem_digit_or_comma) in Hall.
  rewrite (remove_commas u Hall).
  pose proof (filter_all Chr.is_digit u) as Hd.
  destruct (Str.filter Chr.is_digit u) as [|c d]; [reflexivity|].
  change (is_empty (String c d)) with false. rewrite orb_false_l.
  apply int_of_digits; [exact Hd | discriminate].
Qed.

End Captures.

(** ** The field extractor, field by field *)

Lemma fields_lookup c s t r :
  fields c s t r !! "calories" = Some (default PNone c)
  /\ fields c s t r !! "splat_points" = Some (default PNone s)
  /\ fields c s t r !! "treadmill_distance" = Some (default PNone t)
  /\ fields c s t r !! "rower_distance" = Some (default PNone r).
Proof. destruct c, s, t, r; repeat split; reflexivity. Qed.

Lemma fields_dom c s t r : dom (fields c s t r) = four_keys.
Proof.
  unfold fields, set_field, no_data, four_keys.
  destruct c, s, t, r; rewrite ?dom_insert_L, ?dom_singleton_L; set_solver.
Qed.

Section Extractor.

Context {P : Platform}.

Lemma parse_workout_data_eq body :
  let text := soup_get_text body in
  parse_workout_data body
  = match rower_value text with
    | inl e => inl e
    | inr r =>
        inr (fields (cal_value text) (splat_value text) (tread_value text) r)
    end.
Proof.
  intros text. unfold parse_workout_data, fields, rower_value, tread_value,
    splat_value, cal_value. fold text. fold no_data.
  destruct (search IGNORECASE cal_pattern text) as [mc|] eqn:Ec;
    [rewrite (cal_capture text mc Ec)|];
  (destruct (search IGNORECASE splat_pattern text) as [ms|] eqn:Es;
    [rewrite (splat_capture text ms Es)|]);
  (destruct (search IGNORECASE tread_pattern text) as [mt|] eqn:Et;
    [destruct (tread_capture text mt Et) as [q ->]|]);
  (destruct (search IGNORECASE rower_pattern text) as [mr|] eqn:Er;
    [rewrite (rower_capture text mr Er);
     destruct (is_empty (Str.filter Chr.is_digit (group mr "1"))
               || (int_max_str_digits
                   <? String.length
                        (Str.filter Chr.is_digit (group mr "1")))%nat)|]);
  reflexivity.
Qed.

(** The extractor returns a dict with the four keys, a key whose search
    found nothing being left at None, unless the rower search captured
    commas without a digit, or more digits than [int] accepts: then the
    conversion raises. *)
Lemma parse_workout_data_cases body :
  let text := soup_get_text body in
  (exists data,
      parse_workout_data body = inr data
      /\ dom data = four_keys
      /\ (search IGNORECASE cal_pattern text = None ->
          data !! "calories" = Some PNone)
      /\ (search IGNORECASE splat_pattern text = None ->
          data !! "splat_points" = Some PNone)
      /\ (search IGNORECASE tread_pattern text = None ->
          data !! "treadmill_distance" = Some PNone)
      /\ (search IGNORECASE rower_pattern text = None ->
          data !! "rower_distance" = Some PNone))
  \/ (parse_workout_data body = inl ValueError
      /\ exists m, search IGNORECASE rower_pattern text = Some m
                   /\ (Str.filter Chr.is_digit (group m "1") = ""
                       \/ int_max_str_digits
                          < String.length
                              (Str.filter Chr.is_digit (group m "1")))).
Proof.
  intros text. rewrite parse_workout_data_eq. fold text.
  destruct (rower_value text) as [e|r] eqn:Er.
  - right. unfold rower_value in Er.
    destruct (search IGNORECASE rower_pattern text) as [m|];
      [|discriminate].
    destruct (is_empty (Str.filter Chr.is_digit (group m "1"))
              || (int_max_str_digits
                  <? String.length
                       (Str.filter Chr.is_digit (group m "1")))%nat)
      eqn:Ed; [|discriminate].
    inversion Er. split; [reflexivity|]. exists m. split; [reflexivity|].
    apply orb_true_iff in Ed as [Ed|Ed].
    + left. now apply is_empty_length.
    + right. now apply Nat.ltb_lt.
  - left. eexists. split; [reflexivity|].
    split; [apply fields_dom|].
    destruct (fields_lookup (cal_value text) (splat_value text)
                (tread_value text) r) as (Hc & Hs & Ht & Hr).
    rewrite Hc, Hs, Ht, Hr.
    unfold cal_value, splat_value, tread_value.
    unfold rower_value in Er.
    repeat split; intros E; rewrite E in *; try reflexivity.
    inversion Er. reflexivity.
Qed.

End Extractor.

(** C2: the input on which the extractor raises.  The rower pattern
    accepts a run of commas as the number; converting it, once the commas
    are removed, is int('') and raises ValueError. *)
Theorem rower_commas_raise :
  search IGNORECASE rower_pattern "ROWER PERFORMANCE TOTALS , m"
  = Some ([("1", ",")], "")
  /\ parse_workout_data (P := Sample.platform) "ROWER PERFORMANCE TOTALS , m"
     = inl ValueError.
Proof. split; vm_compute; reflexivity. Qed.

(** The example of C2 that the code does satisfy. *)
Lemma calories_only :
  parse_workout_data (P := Sample.platform) "674 CALORIES BURNED"
  = inr (fields (Some (PInt 674)) None None None).
Proof. reflexivity. Qed.

(** ** Reading the labelled segments *)

(** Literal characters of the pattern against the characters of the text. *)
Ltac lits := repeat (rewrite rmatch_seq_set by reflexivity).

(** The side conditions of a quantifier that reads exactly [w]. *)
Ltac rep_side :=
  first [ reflexivity
        | assumption
        | simpl; lia
        | exact I
        | left; reflexivity
        | right; reflexivity
        | right; exact I
        | right; assumption ].

(** A quantifier followed by the rest of the pattern reads [w]. *)
Ltac reads w :=
  match goal with
  | |- rmatch ?ic (RSeq (RRep ?cs ?lo ?hi) ?r) ?k ?caps ?prev ?s = Some ?m =>
      let rest := eval simpl in (Str.drop (String.length w) s) in
      apply (rmatch_seq_rep ic cs lo hi r k caps prev w rest m);
      [rep_side | rep_side | rep_side | rep_side | simpl prev_after]
  | |- rmatch ?ic (RSeq (RGroup ?n (RRep ?cs ?lo ?hi)) ?r) ?k ?caps ?prev ?s
       = Some ?m =>
      let rest := eval simpl in (Str.drop (String.length w) s) in
      apply (rmatch_seq_group_rep ic n cs lo hi r k caps prev w rest m);
      [rep_side | rep_side | rep_side | rep_side | simpl prev_after]
  end.

Lemma rower_1234_here prev post :
  is_word_opt (next_char post) = false ->
  match_here IGNORECASE rower_pattern prev (rower_1234 +:+ post)
  = Some ([("1", "1,234")], post).
Proof.
  intros Hpost. unfold match_here, rower_pattern, rower_1234, IGNORECASE.
  simpl String.append.
  lits. reads " ". lits. reads " ". lits. reads "S". reads " ".
  reads "1,234". reads " ". lits.
  simpl. unfold at_boundary. simpl is_word_opt at 1. rewrite Hpost.
  reflexivity.
Qed.

Section Rower.

Context {P : Platform}.

(** C5, as the code has it. When the text contains
    "ROWER PERFORMANCE TOTALS 1,234 m", the [m] being followed by the
    end of the text or by a character that is not a word character, and
    the rower pattern matches at no earlier position, the extractor
    returns a dict whose rower distance is the integer 1234. *)
Theorem rower_thousands_separator body pre post :
  soup_get_text body = pre +:+ rower_1234 +:+ post ->
  is_word_opt (next_char post) = false ->
  none_before IGNORECASE rower_pattern None pre (rower_1234 +:+ post)
  = true ->
  exists data,
    parse_workout_data body = inr data
    /\ data !! "rower_distance" = Some (PInt 1234).
Proof.
  intros Ht Hpost Hpre.
  assert (Hs : search IGNORECASE rower_pattern (soup_get_text body)
               = Some ([("1", "1,234")], post)).
  { rewrite Ht. unfold search.
    rewrite (search_from_none_before _ _ _ _ _ Hpre).
    apply search_from_here. now apply rower_1234_here. }
  rewrite parse_workout_data_eq. unfold rower_value. rewrite Hs.
  eexists. split; [reflexivity|].
  apply fields_lookup.
Qed.

End Rower.

(** C5, as stated, fails: the text contains the phrase, no rower match
    starts before it, and the rower distance stays None, because the [m]
    begins the word "miles". *)
Lemma rower_unit_inside_a_word :
  let text := "ROWER PERFORMANCE TOTALS 1,234 miles" in
  text = "" +:+ rower_1234 +:+ "iles"
  /\ none_before IGNORECASE rower_pattern None "" (rower_1234 +:+ "iles")
     = true
  /\ search IGNORECASE rower_pattern text = None
  /\ parse_workout_data (P := Sample.platform) text
     = inr (fields None None None None).
Proof. cbv zeta. repeat split; reflexivity. Qed.

Lemma rower_thousands_separator_witness :
  exists data,
    parse_workout_data (P := Sample.platform)
      "12 SPLAT POINTS ROWER PERFORMANCE TOTALS 1,234 m Total Distance"
    = inr data
    /\ data !! "rower_distance" = Some (PInt 1234).
Proof.
  apply (rower_thousands_separator (P := Sample.platform)
           "12 SPLAT POINTS ROWER PERFORMANCE TOTALS 1,234 m Total Distance"
           "12 SPLAT POINTS " " Total Distance").
  - reflexivity.
  - reflexivity.
  - vm_compute; reflexivity.
Defined.

(** ** Which characters a match is made of, and how it ends *)

Lemma sem_alphabet r : forall ic w new,
  sem ic r w new -> Str.all (alphabet ic r) w = true.
Proof.
  induction r as [|cs|cs lo hi|r1 IH1 r2 IH2|r1 IH1 r2 IH2|nm r IH| | |ic' r IH];
    intros ic w new H; simpl in *.
  - now destruct H as [-> _].
  - destruct H as (c & -> & Hc & _). simpl. now rewrite Hc.
  - tauto.
  - destruct H as (u & v & n1 & n2 & -> & H1 & H2 & _).
    rewrite all_app. apply andb_true_iff. split.
    + eapply all_impl; [|eapply IH1; eauto].
      intros c Hc. simpl. now rewrite Hc.
    + eapply all_impl; [|eapply IH2; eauto].
      intros c Hc. simpl. rewrite Hc. apply orb_true_r.
  - destruct H as [H|H].
    + eapply all_impl; [|eapply IH1; eauto].
      intros c Hc. simpl. now rewrite Hc.
    + eapply all_impl; [|eapply IH2; eauto].
      intros c Hc. simpl. rewrite Hc. apply orb_true_r.
  - destruct H as (n & H & _). eauto.
  - now destruct H as [-> _].
  - now destruct H as [-> _].
  - eauto.
Qed.

Lemma prev_after_nonempty p q w :
  w <> "" -> prev_after p w = prev_after q w.
Proof. destruct w; [contradiction | reflexivity]. Qed.

Lemma prev_after_all p w c :
  Str.all p w = true -> prev_after None w = Some c -> p c = true.
Proof.
  assert (G : forall w o, Str.all p w = true ->
                          match o with Some x => p x = true | None => True end ->
                          prev_after o w = Some c -> p c = true).
  { clear w. induction w as [|x w IH]; intros o Hall Ho H; simpl in *.
    - subst o. exact Ho.
    - apply andb_true_iff in Hall as [Hx Hall].
      apply (IH (Some x) Hall Hx H). }
  intros Hall H. eapply G; eauto. exact I.
Qed.

Lemma prev_after_some w : forall a, prev_after (Some a) w <> None.
Proof. induction w as [|x w IH]; intros a; simpl; [discriminate | apply IH]. Qed.

Lemma sem_ends r : forall ic w new,
  sem ic r w new ->
  match prev_after None w with
  | None => nullable r = true
  | Some c => ends ic r c = true
  end.
Proof.
  induction r as [|cs|cs lo hi|r1 IH1 r2 IH2|r1 IH1 r2 IH2|nm r IH| | |ic' r IH];
    intros ic w new H; simpl in *.
  - now destruct H as [-> _].
  - now destruct H as (c & -> & Hc & _).
  - destruct H as (Hall & Hlo & _).
    destruct (prev_after None w) as [c|] eqn:E.
    + eapply (prev_after_all _ _ _ Hall E).
    + destruct w as [|x w]; simpl in *; [apply Nat.eqb_eq; lia|].
      now apply prev_after_some in E.
  - destruct H as (u & v & n1 & n2 & -> & H1 & H2 & _).
    specialize (IH1 _ _ _ H1). specialize (IH2 _ _ _ H2).
    rewrite prev_after_app.
    destruct v as [|x v].
    + simpl in *. rewrite IH2.
      destruct (prev_after None u); rewrite IH1; auto. apply orb_true_r.
    + rewrite (prev_after_nonempty _ None) by discriminate.
      destruct (prev_after None (String x v)) eqn:E.
      * now rewrite IH2.
      * simpl in E. now apply prev_after_some in E.
  - destruct H as [H|H]; [specialize (IH1 _ _ _ H) | specialize (IH2 _ _ _ H)];
      destruct (prev_after None w).
    + now rewrite IH1.
    + now rewrite IH1.
    + rewrite IH2. apply orb_true_r.
    + rewrite IH2. apply orb_true_r.
  - destruct H as (n & H & _). exact (IH _ _ _ H).
  - now destruct H as [-> _].
  - now destruct H as [-> _].
  - exact (IH _ _ _ H).
Qed.

(** ** The date resolver *)

Lemma format_alphabet : forall c,
  alphabet true format_regex c = true -> not_paren c = true.
Proof. by_enumeration. Qed.

Lemma format_ends : forall c,
  ends true format_regex c = true -> negb (Chr.is_space c) = true.
Proof. by_enumeration. Qed.

(** What [strptime] accepts is read whole by the pattern of the format. *)
Lemma strptime_accepts s dt :
  strptime s = inr dt -> exists caps, sem true format_regex s caps.
Proof.
  unfold strptime, re_match. intros H.
  destruct (match_here true format_regex None s) as [[caps rest]|] eqn:E;
    [|discriminate].
  simpl in H. destruct rest; [|discriminate].
  apply match_here_sound in E as (w & -> & Hs).
  rewrite app_nil_r. eauto.
Qed.

Lemma strptime_shape s dt :
  strptime s = inr dt ->
  Str.all not_paren s = true
  /\ exists c, prev_after None s = Some c /\ Chr.is_space c = false.
Proof.
  intros H. apply strptime_accepts in H as [caps H]. split.
  - eapply all_impl; [apply format_alphabet | eapply sem_alphabet; eauto].
  - apply sem_ends in H. destruct (prev_after None s) as [c|];
      [|discriminate].
    exists c. split; auto. apply negb_true_iff. now apply format_ends.
Qed.

Lemma take_app_ge a b n :
  String.length a <= n ->
  Str.take n (a +:+ b) = a +:+ Str.take (n - String.length a) b.
Proof.
  revert n. induction a as [|c a IH]; intros n H; simpl in *.
  - now rewrite Nat.sub_0_r.
  - destruct n as [|n]; [lia|]. simpl. rewrite IH by lia. reflexivity.
Qed.

Lemma drop_app_lt a b n :
  n < String.length a ->
  exists y r, Str.drop n (a +:+ b) = String y (r +:+ b)
              /\ In y (list_ascii_of_string a).
Proof.
  revert n. induction a as [|c a IH]; intros n H; simpl in *; [lia|].
  destruct n as [|n].
  - exists c, a. auto.
  - destruct (IH n ltac:(lia)) as (y & r & E & Hy). exists y, r. auto.
Qed.


Lemma mem_space_exact c : cset_mem false CSpace c = Chr.is_space c.
Proof. unfold cset_mem. simpl. apply orb_false_r. Qed.


Lemma all_ext (p q : ascii -> bool) s :
  (forall c, p c = q c) -> Str.all p s = Str.all q s.
Proof. intros H. induction s as [|c s IH]; simpl; [|rewrite H, IH]; auto. Qed.

Lemma ends_solid_tail c s : ends_solid (String c s) -> ends_solid s.
Proof.
  unfold ends_solid. destruct s as [|x s]; simpl; auto.
Qed.

Lemma ends_solid_not_blank s :
  ends_solid s -> s <> "" -> Str.all Chr.is_space s = false.
Proof.
  unfold ends_solid. intros H Hne.
  destruct (Str.all Chr.is_space s) eqn:E; [|reflexivity].
  destruct (prev_after None s) as [c|] eqn:Ec.
  - rewrite (prev_after_all _ _ _ E Ec) in H. discriminate.
  - destruct s as [|x s]; [contradiction|]. simpl in Ec.
    now apply prev_after_some in Ec.
Qed.

Section TznameStrip.

(** A reader with the tail of the header after the date. *)
Variable tail : string.

Lemma tzname_none s prev :
  Str.all not_paren s = true ->
  Str.all Chr.is_space s = false ->
  match_here false tzname_pattern prev (s +:+ tail) = None.
Proof.
  intros Hp Hs. unfold match_here, tzname_pattern. simpl rmatch.
  apply rep_none. intros n Hn _ _ Hall.
  rewrite (all_ext _ Chr.is_space) in Hall by apply mem_space_exact.
  assert (Hlt : n < String.length s).
  { destruct (Nat.lt_ge_cases n (String.length s)) as [|Hge]; auto.
    rewrite take_app_ge, all_app, Hs in Hall by assumption.
    discriminate. }
  destruct (drop_app_lt s tail n Hlt) as (y & r & -> & Hy).
  pose proof (all_In _ _ Hp y Hy) as Hnp. unfold not_paren in Hnp.
  apply negb_true_iff in Hnp.
  unfold cset_mem. simpl. now rewrite Hnp.
Qed.

Lemma sub_empty_keeps : forall s prev,
  Str.all not_paren s = true ->
  ends_solid s ->
  sub_empty_from false tzname_pattern 0 prev (s +:+ tail)
  = s +:+ sub_empty_from false tzname_pattern 0 (prev_after prev s) tail.
Proof.
  induction s as [|c s IH]; intros prev Hp He; [reflexivity|].
  assert (Hnone : match_here false tzname_pattern prev (String c s +:+ tail)
                  = None).
  { apply tzname_none; [exact Hp|].
    apply ends_solid_not_blank; [exact He | discriminate]. }
  simpl String.append in *. simpl sub_empty_from. rewrite Hnone.
  simpl in Hp. apply andb_true_iff in Hp as [_ Hp].
  rewrite IH; auto. eapply ends_solid_tail; eauto.
Qed.

End TznameStrip.




Section DateResolver.

Context {P : Platform}.


End DateResolver.



(** ** Searching through the text of a summary *)

Lemma search_from_skip_run ic r : forall w prev tail,
  nullable r = false ->
  Str.all (fun c => negb (starts ic r c)) w = true ->
  search_from ic r prev (w +:+ tail)
  = search_from ic r (prev_after prev w) tail.
Proof.
  induction w as [|c w IH]; intros prev tail Hn Hw; [reflexivity|].
  simpl in Hw. apply andb_true_iff in Hw as [Hc Hw].
  apply negb_true_iff in Hc.
  simpl String.append. rewrite search_from_skip by assumption.
  now apply IH.
Qed.

(** Concrete characters of the text at which the pattern cannot match. *)
Ltac skip_concrete :=
  repeat first [ rewrite search_from_skip by reflexivity
               | rewrite search_from_next by (vm_compute; reflexivity) ].

(** *** Patterns that begin with the number

    [digit_led lo hi l rest] is a number of [lo] to [hi] digits in group 1,
    blanks, then a label that begins with the letter [l]. *)

Lemma lstrip_cons p c s :
  lstrip_by p (String c s) = if p c then lstrip_by p s else String c s.
Proof. reflexivity. Qed.

Lemma numeric_not_space : forall c,
  numeric c = true -> negb (cset_mem true CSpace c) = true.
Proof. by_enumeration. Qed.

Section DigitLed.

Variables (l : ascii).
Hypothesis l_not_digit :
  forall c, cset_mem true CDigit c = true -> cset_mem true (CChar l) c = false.
Hypothesis l_not_space :
  forall c, cset_mem true CSpace c = true -> cset_mem true (CChar l) c = false.

Lemma blocked_blanks : forall t m,
  not_letter l (lstrip_by (cset_mem true CSpace) t) ->
  Str.all (cset_mem true CSpace) (Str.take m t) = true ->
  not_letter l (Str.drop m t).
Proof.
  induction t as [|a t IH]; intros m Hb Hm.
  - destruct m; exact I.
  - simpl in Hb. destruct (cset_mem true CSpace a) eqn:Ea.
    + destruct m as [|m]; simpl.
      * now apply l_not_space.
      * simpl in Hm. rewrite Ea in Hm. apply IH; auto.
    + destruct m as [|m]; [exact Hb|].
      simpl in Hm. rewrite Ea in Hm. discriminate.
Qed.

Lemma blocked_digits : forall t n m,
  blocked l t ->
  Str.all (cset_mem true CDigit) (Str.take n t) = true ->
  Str.all (cset_mem true CSpace) (Str.take m (Str.drop n t)) = true ->
  not_letter l (Str.drop m (Str.drop n t)).
Proof.
  unfold blocked.
  induction t as [|a t IH]; intros n m Hb Hn Hm.
  - destruct n, m; exact I.
  - simpl in Hb. destruct (cset_mem true CDigit a) eqn:Ea.
    + destruct n as [|n].
      * simpl Str.drop at 2. simpl in Hm.
        destruct m as [|m]; simpl; [now apply l_not_digit|].
        simpl in Hm.
        pose proof (digit_not_space_mem a (mem_digit a Ea)) as Es.
        apply negb_true_iff in Es. rewrite Es in Hm. discriminate.
      * simpl in Hn. rewrite Ea in Hn. simpl. apply IH; auto.
    + destruct n as [|n].
      * simpl Str.drop at 2. now apply blocked_blanks.
      * simpl in Hn. rewrite Ea in Hn. discriminate.
Qed.

Lemma digit_led_none lo hi rest prev t :
  blocked l t ->
  match_here true (digit_led lo hi l rest) prev t = None.
Proof.
  intros Hb. unfold match_here, digit_led. simpl rmatch.
  apply rep_none. intros n _ _ _ Hn.
  apply rep_none. intros m _ _ _ Hm.
  pose proof (blocked_digits t n m Hb Hn Hm) as H.
  destruct (Str.drop m (Str.drop n t)) as [|y u]; [reflexivity|].
  simpl in H. now rewrite H.
Qed.

Hypothesis l_not_numeric :
  forall c, numeric c = true -> cset_mem true (CChar l) c = false.

(** A run of digits, commas and points, then one blank and a character
    that is neither a blank nor the letter. *)
Lemma blocked_run : forall w sp x tail,
  Str.all numeric w = true ->
  cset_mem true CDigit sp = false ->
  cset_mem true CSpace sp = true ->
  cset_mem true CSpace x = false ->
  cset_mem true (CChar l) x = false ->
  blocked l (w +:+ String sp (String x tail)).
Proof.
  unfold blocked.
  induction w as [|c w IH]; intros sp x tail Hw Hd Hs Hx Hl.
  - change ("" +:+ String sp (String x tail)) with (String sp (String x tail)).
    rewrite lstrip_cons, Hd. rewrite lstrip_cons, Hs.
    rewrite lstrip_cons, Hx. exact Hl.
  - simpl in Hw. apply andb_true_iff in Hw as [Hc Hw].
    change (String c w +:+ String sp (String x tail))
      with (String c (w +:+ String sp (String x tail))).
    rewrite lstrip_cons.
    destruct (cset_mem true CDigit c) eqn:Ec; [now apply IH|].
    pose proof (numeric_not_space c Hc) as Es.
    apply negb_true_iff in Es. rewrite lstrip_cons, Es.
    now apply l_not_numeric.
Qed.

(** The search passes over such a run. *)
Lemma digit_led_skip_run lo hi rest : forall w prev sp x tail,
  Str.all numeric w = true ->
  cset_mem true CDigit sp = false ->
  cset_mem true CSpace sp = true ->
  cset_mem true CSpace x = false ->
  cset_mem true (CChar l) x = false ->
  search_from true (digit_led lo hi l rest) prev
    (w +:+ String sp (String x tail))
  = search_from true (digit_led lo hi l rest) (prev_after prev w)
      (String sp (String x tail)).
Proof.
  induction w as [|c w IH]; intros prev sp x tail Hw Hd Hs Hx Hl;
    [reflexivity|].
  simpl String.append. rewrite search_from_next.
  - simpl in Hw. apply andb_true_iff in Hw as [_ Hw]. now apply IH.
  - apply digit_led_none.
    now apply (blocked_run (String c w)).
Qed.

End DigitLed.

(** *** The values of a well-formed summary *)

Lemma digit_or_comma_numeric : forall c,
  digit_or_comma c = true -> numeric c = true.
Proof. by_enumeration. Qed.

Lemma well_formed_parts v :
  well_formed v = true ->
  (Str.all Chr.is_digit (r_calories v) = true
   /\ 2 <= String.length (r_calories v) <= 4)
  /\ (Str.all Chr.is_digit (r_splat v) = true
      /\ 1 <= String.length (r_splat v) <= 2)
  /\ (Str.all Chr.is_digit (r_tread_int v) = true
      /\ 1 <= String.length (r_tread_int v)
      /\ Str.all Chr.is_digit (default "" (r_tread_frac v)) = true)
  /\ (Str.all digit_or_comma (r_rower v) = true
      /\ Str.filter Chr.is_digit (r_rower v) <> ""
      /\ String.length (Str.filter Chr.is_digit (r_rower v))
         <= int_max_str_digits).
Proof.
  unfold well_formed. intros H.
  repeat (apply andb_true_iff in H as [H ?]).
  repeat match goal with
         | X : (_ <=? _)%nat = true |- _ => apply Nat.leb_le in X
         end.
  repeat split; auto.
  intros E. rewrite E in *. discriminate.
Qed.

Lemma tread_text_numeric v :
  well_formed v = true -> Str.all numeric (tread_text v) = true.
Proof.
  intros H. apply well_formed_parts in H as (_ & _ & (Hi & _ & Hf) & _).
  apply (all_impl _ _ _ digit_is_numeric) in Hi, Hf.
  unfold tread_text. destruct (r_tread_frac v); simpl in Hf.
  - now rewrite all_app, Hi.
  - now rewrite app_nil_r.
Qed.

Lemma rower_numeric v :
  well_formed v = true -> Str.all numeric (r_rower v) = true.
Proof.
  intros H. apply well_formed_parts in H as (_ & _ & _ & (Hr & _)).
  now apply (all_impl _ _ _ digit_or_comma_numeric).
Qed.

Lemma calories_numeric v :
  well_formed v = true -> Str.all numeric (r_calories v) = true.
Proof.
  intros H. apply well_formed_parts in H as ((Hc & _) & _).
  now apply (all_impl _ _ _ digit_is_numeric).
Qed.

Lemma splat_numeric v :
  well_formed v = true -> Str.all numeric (r_splat v) = true.
Proof.
  intros H. apply well_formed_parts in H as (_ & (Hs & _) & _).
  now apply (all_impl _ _ _ digit_is_numeric).
Qed.

(** *** The two patterns that begin with the number *)

Lemma cal_pattern_shape : cal_pattern = digit_led 2 (Some 4) "C" cal_rest.
Proof. reflexivity. Qed.

Lemma splat_pattern_shape : splat_pattern = digit_led 1 (Some 2) "S" splat_rest.
Proof. reflexivity. Qed.

Lemma negb_fact (p q : ascii -> bool) :
  (forall c, p c = true -> negb (q c) = true) ->
  forall c, p c = true -> q c = false.
Proof. intros H c Hc. apply negb_true_iff. now apply H. Qed.

Lemma letter_C_facts :
  (forall c, cset_mem true CDigit c = true ->
             cset_mem true (CChar "C") c = false)
  /\ (forall c, cset_mem true CSpace c = true ->
                cset_mem true (CChar "C") c = false)
  /\ (forall c, numeric c = true -> cset_mem true (CChar "C") c = false).
Proof. repeat split; apply negb_fact; by_enumeration. Qed.

Lemma letter_S_facts :
  (forall c, cset_mem true CDigit c = true ->
             cset_mem true (CChar "S") c = false)
  /\ (forall c, cset_mem true CSpace c = true ->
                cset_mem true (CChar "S") c = false)
  /\ (forall c, numeric c = true -> cset_mem true (CChar "S") c = false).
Proof. repeat split; apply negb_fact; by_enumeration. Qed.

(** The search for calories passes over a numeric run followed by a
    blank and the character [x]. *)
Lemma cal_skip_run w prev x tail :
  Str.all numeric w = true ->
  cset_mem true CSpace x = false ->
  cset_mem true (CChar "C") x = false ->
  search_from true cal_pattern prev (w +:+ String " " (String x tail))
  = search_from true cal_pattern (prev_after prev w)
      (String " " (String x tail)).
Proof.
  intros Hw Hx Hl. rewrite cal_pattern_shape.
  destruct letter_C_facts as (H1 & H2 & H3).
  now apply digit_led_skip_run.
Qed.

Lemma splat_skip_run w prev x tail :
  Str.all numeric w = true ->
  cset_mem true CSpace x = false ->
  cset_mem true (CChar "S") x = false ->
  search_from true splat_pattern prev (w +:+ String " " (String x tail))
  = search_from true splat_pattern (prev_after prev w)
      (String " " (String x tail)).
Proof.
  intros Hw Hx Hl. rewrite splat_pattern_shape.
  destruct letter_S_facts as (H1 & H2 & H3).
  now apply digit_led_skip_run.
Qed.

(** *** The two patterns that begin with the label *)

Lemma tread_not_numeric : forall c,
  numeric c = true -> negb (starts true tread_pattern c) = true.
Proof. by_enumeration. Qed.

Lemma rower_not_numeric : forall c,
  numeric c = true -> negb (starts true rower_pattern c) = true.
Proof. by_enumeration. Qed.

Lemma tread_skip_run w prev tail :
  Str.all numeric w = true ->
  search_from true tread_pattern prev (w +:+ tail)
  = search_from true tread_pattern (prev_after prev w) tail.
Proof.
  intros Hw. apply search_from_skip_run; [reflexivity|].
  now apply (all_impl _ _ _ tread_not_numeric).
Qed.

Lemma rower_skip_run w prev tail :
  Str.all numeric w = true ->
  search_from true rower_pattern prev (w +:+ tail)
  = search_from true rower_pattern (prev_after prev w) tail.
Proof.
  intros Hw. apply search_from_skip_run; [reflexivity|].
  now apply (all_impl _ _ _ rower_not_numeric).
Qed.

(** *** A search passes over the segments of the other fields *)

Section Skips.

Variable v : readings.
Hypothesis wf : well_formed v = true.

(** The text of a segment followed by the separator, with its literal
    parts written out. *)
Ltac open_segment :=
  unfold segment; rewrite ?app_assoc; simpl String.append.

Lemma cal_skips f prev rest :
  f <> Calories ->
  search_from true cal_pattern prev (segment v f +:+ " " +:+ rest)
  = search_from true cal_pattern (Some " "%char) rest.
Proof.
  destruct f; intros Hf; [contradiction| | |]; open_segment.
  - rewrite cal_skip_run by (try apply splat_numeric; auto).
    skip_concrete. reflexivity.
  - skip_concrete.
    rewrite cal_skip_run by (try apply tread_text_numeric; auto).
    skip_concrete. reflexivity.
  - skip_concrete.
    rewrite cal_skip_run by (try apply rower_numeric; auto).
    skip_concrete. reflexivity.
Qed.

Lemma splat_skips f prev rest :
  f <> Splat ->
  search_from true splat_pattern prev (segment v f +:+ " " +:+ rest)
  = search_from true splat_pattern (Some " "%char) rest.
Proof.
  destruct f; intros Hf; [|contradiction| |]; open_segment.
  - rewrite splat_skip_run by (try apply calories_numeric; auto).
    skip_concrete. reflexivity.
  - skip_concrete.
    rewrite splat_skip_run by (try apply tread_text_numeric; auto).
    skip_concrete. reflexivity.
  - skip_concrete.
    rewrite splat_skip_run by (try apply rower_numeric; auto).
    skip_concrete. reflexivity.
Qed.

Lemma tread_skips f prev rest :
  f <> Treadmill ->
  search_from true tread_pattern prev (segment v f +:+ " " +:+ rest)
  = search_from true tread_pattern (Some " "%char) rest.
Proof.
  destruct f; intros Hf; [| |contradiction|]; open_segment.
  - rewrite tread_skip_run by (apply calories_numeric; auto).
    skip_concrete. reflexivity.
  - rewrite tread_skip_run by (apply splat_numeric; auto).
    skip_concrete. reflexivity.
  - skip_concrete.
    rewrite tread_skip_run by (apply rower_numeric; auto).
    skip_concrete. reflexivity.
Qed.

Lemma rower_skips f prev rest :
  f <> Rower ->
  search_from true rower_pattern prev (segment v f +:+ " " +:+ rest)
  = search_from true rower_pattern (Some " "%char) rest.
Proof.
  destruct f; intros Hf; [| | |contradiction]; open_segment.
  - rewrite rower_skip_run by (apply calories_numeric; auto).
    skip_concrete. reflexivity.
  - rewrite rower_skip_run by (apply splat_numeric; auto).
    skip_concrete. reflexivity.
  - skip_concrete.
    rewrite rower_skip_run by (apply tread_text_numeric; auto).
    skip_concrete. reflexivity.
Qed.

End Skips.

(** *** A search finds the segment of its own field *)

(** A quantifier reads the run [w] that the text begins with. *)
Ltac reads_run w :=
  match goal with
  | |- rmatch ?ic (RSeq (RRep ?cs ?lo ?hi) ?r) ?k ?caps ?prev (w +:+ ?rest)
       = Some ?m =>
      apply (rmatch_seq_rep ic cs lo hi r k caps prev w rest m);
      [rep_side | rep_side | rep_side | rep_side | simpl prev_after]
  | |- rmatch ?ic (RSeq (RGroup ?n (RRep ?cs ?lo ?hi)) ?r) ?k ?caps ?prev
         (w +:+ ?rest) = Some ?m =>
      apply (rmatch_seq_group_rep ic n cs lo hi r k caps prev w rest m);
      [rep_side | rep_side | rep_side | rep_side | simpl prev_after]
  end.

(** A quantifier stops in front of a run whose characters it does not
    take. *)
Lemma stops_at_run (mem q : ascii -> bool) hi n w rest :
  Str.all q w = true -> 1 <= String.length w ->
  (forall c, q c = true -> negb (mem c) = true) ->
  stops mem hi n (w +:+ rest).
Proof.
  intros Hw Hlen Hq. right. destruct w as [|c w]; [simpl in Hlen; lia|].
  simpl in *. apply andb_true_iff in Hw as [Hc _].
  apply negb_true_iff. now apply Hq.
Qed.

(** The blanks before a numeric run: the one blank [" "] is read. *)
Ltac reads_blank_before_run :=
  match goal with
  | |- rmatch ?ic (RSeq (RRep ?cs ?lo ?hi) ?r) ?k ?caps ?prev
         (String " " ?rest) = Some ?m =>
      apply (rmatch_seq_rep ic cs lo hi r k caps prev " " rest m);
      [ reflexivity | simpl; lia | exact I
      | eapply (stops_at_run _ numeric);
        [eassumption | eassumption | apply numeric_not_space]
      | simpl prev_after ]
  end.

Lemma tread_number_reads r k caps prev ip frac rest m :
  Str.all (cset_mem true CDigit) ip = true ->
  1 <= String.length ip ->
  Str.all (cset_mem true CDigit) (default "" frac) = true ->
  let text := ip +:+ match frac with Some f => "." +:+ f | None => "" end in
  rmatch true r k (("1", text) :: caps) (prev_after prev text)
         (String " " rest) = Some m ->
  rmatch true (RSeq tread_number r) k caps prev (text +:+ String " " rest)
  = Some m.
Proof.
  intros Hi Hlen Hf text Hk. unfold tread_number. simpl rmatch.
  destruct frac as [fp|]; simpl in Hf; subst text.
  - rewrite !app_assoc. simpl String.append.
    apply rep_greedy; auto; [exact I | right; reflexivity|].
    apply (rep_greedy _ _ _ _ _ "." (fp +:+ String " " rest));
      [reflexivity | simpl; lia | simpl; lia | left; reflexivity |].
    apply rep_greedy; auto; [lia | exact I | right; reflexivity|].
    replace (ip +:+ String "." (fp +:+ String " " rest))
      with ((ip +:+ "." +:+ fp) +:+ String " " rest)
      by (now rewrite !app_assoc).
    rewrite take_length_diff.
    rewrite <- !prev_after_app. simpl String.append.
    replace (ip +:+ String "." fp) with (ip +:+ "." +:+ fp) by reflexivity.
    exact Hk.
  - rewrite app_nil_r in *.
    apply rep_greedy; auto; [exact I | right; reflexivity|].
    apply (rep_greedy _ _ _ _ _ "" (String " " rest));
      [reflexivity | simpl; lia | simpl; lia | right; reflexivity |].
    apply (rep_greedy _ _ _ _ _ "" (String " " rest));
      [reflexivity | simpl; lia | exact I | right; reflexivity |].
    rewrite take_length_diff. exact Hk.
Qed.

Section Hits.

Variable v : readings.
Hypothesis wf : well_formed v = true.

Lemma cal_hit prev rest :
  search_from true cal_pattern prev (segment v Calories +:+ rest)
  = Some ([("1", r_calories v)], rest).
Proof.
  destruct (well_formed_parts v wf) as ((Hc & Hlo & Hhi) & _).
  apply (all_impl _ _ _ (digit_mem true)) in Hc.
  apply search_from_here. unfold match_here, cal_pattern, segment.
  rewrite !app_assoc. simpl String.append.
  reads_run (r_calories v). reads " ". lits. reads " ". lits.
  rewrite rmatch_set by reflexivity. reflexivity.
Qed.

Lemma splat_hit prev rest :
  search_from true splat_pattern prev (segment v Splat +:+ rest)
  = Some ([("1", r_splat v)], rest).
Proof.
  destruct (well_formed_parts v wf) as (_ & (Hs & Hlo & Hhi) & _).
  apply (all_impl _ _ _ (digit_mem true)) in Hs.
  apply search_from_here. unfold match_here, splat_pattern, segment.
  rewrite !app_assoc. simpl String.append.
  reads_run (r_splat v). reads " ". lits. reads " ". lits.
  rewrite rmatch_set by reflexivity. reflexivity.
Qed.

Lemma tread_hit prev rest :
  search_from true tread_pattern prev (segment v Treadmill +:+ rest)
  = Some ([("1", tread_text v)], " Total Distance" +:+ rest).
Proof.
  destruct (well_formed_parts v wf) as (_ & _ & (Hi & Hlen & Hf) & _).
  apply (all_impl _ _ _ (digit_mem true)) in Hi, Hf.
  apply search_from_here. unfold match_here, tread_pattern, segment.
  rewrite !app_assoc. simpl String.append.
  pose proof (tread_text_numeric v wf) as Hnum.
  assert (Hlen' : 1 <= String.length (tread_text v)).
  { unfold tread_text. rewrite length_app. lia. }
  lits. reads " ". lits. reads " ". lits. reads "S".
  reads_blank_before_run.
  apply (tread_number_reads _ _ _ _ (r_tread_int v) (r_tread_frac v));
    [exact Hi | exact Hlen | exact Hf |].
  fold (tread_text v).
  reads " ". lits.
  apply (rmatch_rep true (CChar "s") 0 (Some 1) accept _ _ "s");
    try rep_side.
Qed.

Lemma rower_hit prev rest :
  search_from true rower_pattern prev (segment v Rower +:+ rest)
  = Some ([("1", r_rower v)], " Total Distance" +:+ rest).
Proof.
  destruct (well_formed_parts v wf) as (_ & _ & _ & (Hr & Hne & _)).
  assert (Hlen : 1 <= String.length (r_rower v)).
  { destruct (r_rower v); [contradiction | simpl; lia]. }
  assert (Hm : Str.all (cset_mem true (CUnion CDigit (CChar ","))) (r_rower v)
               = true).
  { revert Hr. apply all_impl. intros c Hc.
    unfold digit_or_comma in Hc. unfold cset_mem. simpl.
    apply orb_true_iff in Hc as [->| ->]; [reflexivity|].
    now rewrite orb_true_r. }
  apply search_from_here. unfold match_here, rower_pattern, segment.
  rewrite !app_assoc. simpl String.append.
  pose proof (rower_numeric v wf) as Hnum.
  lits. reads " ". lits. reads " ". lits. reads "S".
  reads_blank_before_run.
  reads_run (r_rower v). reads " ". lits.
  reflexivity.
Qed.

End Hits.

(** ** The order of the labelled values *)

Lemma field_eq_dec (a b : field) : {a = b} + {a <> b}.
Proof. decide equality. Defined.

Lemma no_digit_no_calories : forall c,
  negb (Chr.is_digit c) = true -> negb (starts true cal_pattern c) = true.
Proof. by_enumeration. Qed.

Lemma no_digit_no_splat : forall c,
  negb (Chr.is_digit c) = true -> negb (starts true splat_pattern c) = true.
Proof. by_enumeration. Qed.

Lemma quiet_parts g :
  quiet g = true ->
  Str.all (fun c => negb (Chr.is_digit c)) g = true
  /\ mentions3 "T" "R" "E" g = false
  /\ mentions3 "R" "O" "W" g = false.
Proof.
  unfold quiet. intros H.
  apply andb_true_iff in H as [H H3]. apply andb_true_iff in H as [H1 H2].
  apply negb_true_iff in H2, H3. auto.
Qed.

Lemma segment_head v f rest :
  well_formed v = true -> seg_head (segment v f +:+ rest) = true.
Proof.
  intros wf.
  destruct (well_formed_parts v wf) as ((Hc & Hcl & _) & (Hs & Hsl & _) & _).
  destruct f; unfold segment; [| |reflexivity|reflexivity].
  - destruct (r_calories v) as [|x [|y t]]; simpl in Hcl; try lia.
    simpl in Hc. apply andb_true_iff in Hc as [Hx _].
    simpl. now rewrite Hx.
  - destruct (r_splat v) as [|x t]; simpl in Hsl; try lia.
    simpl in Hs. apply andb_true_iff in Hs as [Hx _].
    destruct t; simpl; now rewrite Hx.
Qed.

Lemma head_cases t :
  seg_head t = true ->
  exists x y t', t = String x (String y t')
    /\ (Chr.is_digit x = true
        \/ (x = "T"%char /\ y = "R"%char)
        \/ (x = "R"%char /\ y = "O"%char)).
Proof.
  destruct t as [|x [|y t']]; try discriminate. simpl. intros H.
  exists x, y, t'. split; [reflexivity|].
  apply orb_true_iff in H as [H|H].
  - apply orb_true_iff in H as [H|H]; [now left|].
    apply andb_true_iff in H as [Hx Hy].
    apply ascii_eqb_true in Hx, Hy. auto.
  - apply andb_true_iff in H as [Hx Hy].
    apply ascii_eqb_true in Hx, Hy. auto.
Qed.

Lemma digit_upper_E : forall x,
  Chr.is_digit x = true -> negb (Chr.eqb (Chr.upper x) "E") = true.
Proof. by_enumeration. Qed.

Lemma digit_upper_R : forall x,
  Chr.is_digit x = true -> negb (Chr.eqb (Chr.upper x) "R") = true.
Proof. by_enumeration. Qed.

Lemma digit_upper_W : forall x,
  Chr.is_digit x = true -> negb (Chr.eqb (Chr.upper x) "W") = true.
Proof. by_enumeration. Qed.

Lemma digit_upper_O : forall x,
  Chr.is_digit x = true -> negb (Chr.eqb (Chr.upper x) "O") = true.
Proof. by_enumeration. Qed.

Lemma apart_TRE : apart "T" "R" "E".
Proof.
  intros x y rest H.
  destruct (head_cases rest H) as (r1 & r2 & t & -> & [Hd|[[-> ->]|[-> ->]]]).
  - pose proof (digit_upper_E r1 Hd) as HE.
    pose proof (digit_upper_R r1 Hd) as HR.
    apply negb_true_iff in HE, HR. simpl. rewrite HE, HR.
    now rewrite !andb_false_r.
  - simpl. now rewrite !andb_false_r.
  - simpl. now rewrite !andb_false_r.
Qed.

Lemma apart_ROW : apart "R" "O" "W".
Proof.
  intros x y rest H.
  destruct (head_cases rest H) as (r1 & r2 & t & -> & [Hd|[[-> ->]|[-> ->]]]).
  - pose proof (digit_upper_W r1 Hd) as HW.
    pose proof (digit_upper_O r1 Hd) as HO.
    apply negb_true_iff in HW, HO. simpl. rewrite HW, HO.
    now rewrite !andb_false_r.
  - simpl. now rewrite !andb_false_r.
  - simpl. now rewrite !andb_false_r.
Qed.

(** A pattern that begins with three letters matches only where the text
    begins with them. *)
Lemma three_letters_none a b c r k caps prev t :
  (forall x, cset_mem true (CChar a) x = Chr.eqb (Chr.upper x) a) ->
  (forall x, cset_mem true (CChar b) x = Chr.eqb (Chr.upper x) b) ->
  (forall x, cset_mem true (CChar c) x = Chr.eqb (Chr.upper x) c) ->
  begins3 a b c t = false ->
  rmatch true (RSeq (RSet (CChar a)) (RSeq (RSet (CChar b))
                 (RSeq (RSet (CChar c)) r))) k caps prev t = None.
Proof.
  intros Ha Hb Hc H.
  destruct t as [|x [|y [|z t]]]; cbn [rmatch];
    rewrite ?Ha, ?Hb, ?Hc; simpl in H.
  - reflexivity.
  - now destruct (Chr.eqb (Chr.upper x) a).
  - destruct (Chr.eqb (Chr.upper x) a); [|reflexivity].
    now destruct (Chr.eqb (Chr.upper y) b).
  - destruct (Chr.eqb (Chr.upper x) a); [|reflexivity].
    destruct (Chr.eqb (Chr.upper y) b); [|reflexivity].
    simpl in H. now rewrite H.
Qed.

Lemma mem_letter_T x : cset_mem true (CChar "T") x = Chr.eqb (Chr.upper x) "T".
Proof.
  apply Bool.eqb_prop.
  exact (all_ascii_spec
           (fun x => Bool.eqb (cset_mem true (CChar "T") x)
                              (Chr.eqb (Chr.upper x) "T"))
           ltac:(vm_compute; reflexivity) x).
Qed.

Lemma mem_letter_R x : cset_mem true (CChar "R") x = Chr.eqb (Chr.upper x) "R".
Proof.
  apply Bool.eqb_prop.
  exact (all_ascii_spec
           (fun x => Bool.eqb (cset_mem true (CChar "R") x)
                              (Chr.eqb (Chr.upper x) "R"))
           ltac:(vm_compute; reflexivity) x).
Qed.

Lemma mem_letter_E x : cset_mem true (CChar "E") x = Chr.eqb (Chr.upper x) "E".
Proof.
  apply Bool.eqb_prop.
  exact (all_ascii_spec
           (fun x => Bool.eqb (cset_mem true (CChar "E") x)
                              (Chr.eqb (Chr.upper x) "E"))
           ltac:(vm_compute; reflexivity) x).
Qed.

Lemma mem_letter_O x : cset_mem true (CChar "O") x = Chr.eqb (Chr.upper x) "O".
Proof.
  apply Bool.eqb_prop.
  exact (all_ascii_spec
           (fun x => Bool.eqb (cset_mem true (CChar "O") x)
                              (Chr.eqb (Chr.upper x) "O"))
           ltac:(vm_compute; reflexivity) x).
Qed.

Lemma mem_letter_W x : cset_mem true (CChar "W") x = Chr.eqb (Chr.upper x) "W".
Proof.
  apply Bool.eqb_prop.
  exact (all_ascii_spec
           (fun x => Bool.eqb (cset_mem true (CChar "W") x)
                              (Chr.eqb (Chr.upper x) "W"))
           ltac:(vm_compute; reflexivity) x).
Qed.

(** The search of such a pattern passes over a filler that does not
    mention the three letters, when a segment comes next. *)
Lemma three_letters_skip a b c r :
  (forall x, cset_mem true (CChar a) x = Chr.eqb (Chr.upper x) a) ->
  (forall x, cset_mem true (CChar b) x = Chr.eqb (Chr.upper x) b) ->
  (forall x, cset_mem true (CChar c) x = Chr.eqb (Chr.upper x) c) ->
  apart a b c ->
  forall g prev rest,
    mentions3 a b c g = false ->
    seg_head rest = true ->
    search_from true (RSeq (RSet (CChar a)) (RSeq (RSet (CChar b))
                        (RSeq (RSet (CChar c)) r))) prev (g +:+ rest)
    = search_from true (RSeq (RSet (CChar a)) (RSeq (RSet (CChar b))
                          (RSeq (RSet (CChar c)) r)))
        (prev_after prev g) rest.
Proof.
  intros Ha Hb Hc Hapart.
  induction g as [|x g IH]; intros prev rest Hg Hrest; [reflexivity|].
  simpl in Hg. apply orb_false_iff in Hg as [Hhere Hg].
  assert (Hb3 : begins3 a b c (String x g +:+ rest) = false).
  { destruct g as [|y [|z g]].
    - apply (Hapart x x rest Hrest).
    - apply (Hapart x y rest Hrest).
    - exact Hhere. }
  change (String x g +:+ rest) with (String x (g +:+ rest)) in *.
  rewrite search_from_next
    by (apply three_letters_none; assumption).
  now apply IH.
Qed.

Section Fillers.

Variables (g : string) (prev : option ascii) (rest : string).
Hypothesis g_quiet : quiet g = true.
Hypothesis rest_head : seg_head rest = true.

Lemma cal_passes_filler :
  search_from true cal_pattern prev (g +:+ rest)
  = search_from true cal_pattern (prev_after prev g) rest.
Proof.
  destruct (quiet_parts g g_quiet) as (Hd & _ & _).
  apply search_from_skip_run; [reflexivity|].
  eapply all_impl; [|exact Hd]. exact no_digit_no_calories.
Qed.

Lemma splat_passes_filler :
  search_from true splat_pattern prev (g +:+ rest)
  = search_from true splat_pattern (prev_after prev g) rest.
Proof.
  destruct (quiet_parts g g_quiet) as (Hd & _ & _).
  apply search_from_skip_run; [reflexivity|].
  eapply all_impl; [|exact Hd]. exact no_digit_no_splat.
Qed.

Lemma tread_passes_filler :
  search_from true tread_pattern prev (g +:+ rest)
  = search_from true tread_pattern (prev_after prev g) rest.
Proof.
  destruct (quiet_parts g g_quiet) as (_ & Ht & _).
  apply (three_letters_skip "T" "R" "E" _ mem_letter_T mem_letter_R
           mem_letter_E apart_TRE g prev rest Ht rest_head).
Qed.

Lemma rower_passes_filler :
  search_from true rower_pattern prev (g +:+ rest)
  = search_from true rower_pattern (prev_after prev g) rest.
Proof.
  destruct (quiet_parts g g_quiet) as (_ & _ & Hr).
  apply (three_letters_skip "R" "O" "W" _ mem_letter_R mem_letter_O
           mem_letter_W apart_ROW g prev rest Hr rest_head).
Qed.

End Fillers.

Lemma quiet_hd gaps :
  Forall (fun g => quiet g = true) gaps -> quiet (hd "" gaps) = true.
Proof. intros H. destruct H; [reflexivity | assumption]. Qed.

Lemma quiet_tl gaps :
  Forall (fun g => quiet g = true) gaps ->
  Forall (fun g => quiet g = true) (tl gaps).
Proof. intros H. destruct H; [constructor | assumption]. Qed.

(** Without filler and with nothing after the last segment, the segments
    are joined by single blanks. *)
Lemma scattered_layout v : forall order,
  scattered v order [] "" = layout v order.
Proof.
  induction order as [|f order IH]; [reflexivity|].
  destruct order as [|f' order].
  - change (scattered v [f] [] "") with (segment v f +:+ "").
    rewrite app_nil_r. reflexivity.
  - change (scattered v (f :: f' :: order) [] "")
      with (segment v f +:+ " " +:+ scattered v (f' :: order) [] "").
    rewrite IH. reflexivity.
Qed.

(** A search that passes over the fillers and over the segments of the
    other fields, and finds the segment of its own, finds it wherever it
    stands. *)
Lemma search_scattered v pat f cap after :
  well_formed v = true ->
  (forall g prev rest,
      quiet g = true -> seg_head rest = true ->
      search_from true pat prev (g +:+ rest)
      = search_from true pat (prev_after prev g) rest) ->
  (forall g prev rest,
      g <> f ->
      search_from true pat prev (segment v g +:+ " " +:+ rest)
      = search_from true pat (Some " "%char) rest) ->
  (forall prev rest,
      search_from true pat prev (segment v f +:+ rest)
      = Some ([("1", cap)], after +:+ rest)) ->
  forall order gaps tail prev,
    Forall (fun g => quiet g = true) gaps ->
    In f order ->
    exists rest,
      search_from true pat prev (scattered v order gaps tail)
      = Some ([("1", cap)], rest).
Proof.
  intros wf Hfill Hskip Hhit.
  induction order as [|g order IH]; intros gaps tail prev Hgaps Hin;
    [destruct Hin|].
  cbn [scattered].
  rewrite (Hfill _ _ _ (quiet_hd gaps Hgaps) (segment_head v g _ wf)).
  destruct (field_eq_dec g f) as [->|Hne].
  - rewrite Hhit. eauto.
  - destruct Hin as [->|Hin]; [contradiction|].
    destruct order as [|g' order]; [destruct Hin|].
    rewrite Hskip by assumption.
    apply IH; [now apply quiet_tl | exact Hin].
Qed.

Section Ordering.

Variable v : readings.
Hypothesis wf : well_formed v = true.
Variables (order : list field) (gaps : list string) (tail : string).
Hypothesis complete : forall f, In f order.
Hypothesis fillers : Forall (fun g => quiet g = true) gaps.

Lemma scattered_cal :
  cal_value (scattered v order gaps tail)
  = Some (PInt (digits_value 0 (r_calories v))).
Proof.
  destruct (search_scattered v cal_pattern Calories (r_calories v) ""
              wf (fun g prev rest Hq _ => cal_passes_filler g prev rest Hq)
              (cal_skips v wf) (cal_hit v wf) order gaps tail None
              fillers (complete Calories)) as [rest H].
  unfold cal_value, search, IGNORECASE. now rewrite H.
Qed.

Lemma scattered_splat :
  splat_value (scattered v order gaps tail)
  = Some (PInt (digits_value 0 (r_splat v))).
Proof.
  destruct (search_scattered v splat_pattern Splat (r_splat v) ""
              wf (fun g prev rest Hq _ => splat_passes_filler g prev rest Hq)
              (splat_skips v wf) (splat_hit v wf) order gaps tail None
              fillers (complete Splat)) as [rest H].
  unfold splat_value, search, IGNORECASE. now rewrite H.
Qed.

Lemma scattered_tread :
  tread_value (scattered v order gaps tail)
  = Some (PFloat (decimal (r_tread_int v) (default "" (r_tread_frac v)))).
Proof.
  destruct (search_scattered v tread_pattern Treadmill (tread_text v)
              " Total Distance" wf tread_passes_filler
              (tread_skips v wf) (tread_hit v wf) order gaps tail None
              fillers (complete Treadmill)) as [rest H].
  unfold tread_value, search, IGNORECASE. rewrite H.
  unfold group. simpl lookup.
  destruct (well_formed_parts v wf) as (_ & _ & (Hi & Hlen & Hf) & _).
  assert (Hne : r_tread_int v <> "").
  { intros E. rewrite E in Hlen. simpl in Hlen. lia. }
  unfold tread_text. destruct (r_tread_frac v) as [fp|].
  - change (default "" (Some fp)) with fp in *.
    now rewrite float_of_point.
  - change (default "" (@None string)) with "" in *.
    now rewrite app_nil_r, float_of_int.
Qed.

Lemma scattered_rower :
  rower_value (scattered v order gaps tail)
  = inr (Some (PInt (digits_value 0
                       (Str.filter Chr.is_digit (r_rower v))))).
Proof.
  destruct (search_scattered v rower_pattern Rower (r_rower v)
              " Total Distance" wf rower_passes_filler
              (rower_skips v wf) (rower_hit v wf) order gaps tail None
              fillers (complete Rower)) as [rest H].
  unfold rower_value, search, IGNORECASE. rewrite H.
  unfold group. simpl lookup.
  destruct (well_formed_parts v wf) as (_ & _ & _ & (_ & Hne & Hmax)).
  apply Nat.ltb_ge in Hmax. rewrite Hmax, orb_false_r.
  destruct (Str.filter Chr.is_digit (r_rower v)); [contradiction|].
  reflexivity.
Qed.

Lemma scattered_fields {P : Platform} body :
  soup_get_text body = scattered v order gaps tail ->
  parse_workout_data body = inr (expected v).
Proof.
  intros Ht. rewrite parse_workout_data_eq, Ht.
  rewrite scattered_rower, scattered_cal, scattered_splat, scattered_tread.
  reflexivity.
Qed.

End Ordering.




(** The first text of the witness is the scenario text. *)
Lemma scattered_scenario :
  scattered sample_readings [Splat; Treadmill; Rower; Calories]
            sample_gaps "" = scenario_text.
Proof. reflexivity. Qed.

(** Words around the segments do no harm either. *)
Lemma wordy_text_fields :
  Forall (fun g => quiet g = true) wordy_gaps
  /\ parse_workout_data (P := Sample.platform)
       (scattered sample_readings [Calories; Splat; Treadmill; Rower]
                  wordy_gaps ". Well done!")
     = inr (expected sample_readings).
Proof.
  assert (H : Forall (fun g => quiet g = true) wordy_gaps)
    by (repeat constructor).
  split; [exact H|].
  apply (scattered_fields sample_readings eq_refl
           [Calories; Splat; Treadmill; Rower] wordy_gaps ". Well done!");
    [| exact H | vm_compute; reflexivity].
  intros f. destruct f; simpl; auto.
Qed.


(** ** The store-sync loop: what is inserted, what escapes *)

Section SyncEdges.

Context {St : Type} (db : Store St).

Lemma sync_loop_missing_date : forall workouts st inserted skipped,
  Exists (fun w => w !! "workout_date" = None) workouts ->
  exists st' out,
    sync_loop db st workouts inserted skipped = (st', inl KeyError, out).
Proof.
  induction workouts as [|w ws IH]; intros st inserted skipped H;
    [inversion H|].
  destruct (w !! "workout_date") as [d|] eqn:Hd.
  - assert (Hws : Exists (fun w => w !! "workout_date" = None) ws).
    { inversion H as [? ? Hw|]; subst; [congruence | assumption]. }
    simpl. destruct (sync_try db st w) as [[st1 [e|[|]]] out].
    + unfold getitem. rewrite Hd. simpl.
      destruct (IH st1 inserted (S skipped) Hws) as (st' & out' & ->).
      eauto.
    + destruct (IH st1 (S inserted) skipped Hws) as (st' & out' & ->).
      eauto.
    + destruct (IH st1 inserted (S skipped) Hws) as (st' & out' & ->).
      eauto.
  - simpl. unfold sync_try, getitem. rewrite Hd. simpl. eauto.
Qed.

Lemma sync_loop_nothing_absent : forall workouts st inserted skipped,
  Forall (fun w => exists d r,
              w !! "workout_date" = Some d
              /\ select_by_date db st d = (st, r)
              /\ r <> inr []) workouts ->
  exists out,
    sync_loop db st workouts inserted skipped
    = (st, inr (inserted, skipped + List.length workouts), out).
Proof.
  induction workouts as [|w ws IH]; intros st inserted skipped H.
  - exists []. simpl. now rewrite Nat.add_0_r.
  - inversion H as [|? ? (d & r & Hd & Hsel & Hr) Hws]; subst.
    destruct (IH st inserted (S skipped) Hws) as (out' & E).
    simpl. unfold sync_try, getitem. rewrite Hd. simpl. rewrite Hsel.
    destruct r as [e|[|row rows]]; [| contradiction |];
      rewrite ?Hd; simpl; rewrite E;
      replace (S skipped + List.length ws)
        with (skipped + S (List.length ws)) by lia;
      eauto.
Qed.

End SyncEdges.

(** X1. A record without the key 'workout_date' makes the sync raise
    KeyError: the lookup fails inside the [try], and the handler, which
    formats the same key, fails again, so the error leaves the loop and
    no counts are returned. *)
Theorem sync_record_without_date_raises {St} (db : Store St) (st : St)
        (workouts : list (gmap string value)) :
  Exists (fun w => w !! "workout_date" = None) workouts ->
  exists st' out,
    sync_to_supabase db st workouts = (st', inl KeyError, out).
Proof. apply sync_loop_missing_date. Qed.

Lemma sync_record_without_date_raises_witness :
  exists st' out,
    sync_to_supabase failing_store tt
      [ {[ "workout_date" := PStr "2024-06-03" ]};
        {[ "calories" := PInt 674 ]} ]
    = (st', inl KeyError, out).
Proof.
  apply (sync_record_without_date_raises failing_store tt
           [ {[ "workout_date" := PStr "2024-06-03" ]};
             {[ "calories" := PInt 674 ]} ]).
  apply Exists_cons_tl, Exists_cons_hd. reflexivity.
Defined.

(** X2. A record is inserted only if the store answered that no row has
    its date: when, for every record, the look-up finds rows or raises
    (and leaves the store as it is), nothing is inserted, the store is
    unchanged and every record is counted as skipped. *)
Theorem sync_inserts_only_absent_records {St} (db : Store St) (st : St)
        (workouts : list (gmap string value)) :
  Forall (fun w => exists d r,
              w !! "workout_date" = Some d
              /\ select_by_date db st d = (st, r)
              /\ r <> inr []) workouts ->
  exists out,
    sync_to_supabase db st workouts
    = (st, inr (0, List.length workouts), out).
Proof. apply sync_loop_nothing_absent. Qed.

Lemma sync_inserts_only_absent_records_witness :
  exists out,
    sync_to_supabase Sample.store [PStr "2024-06-03"]
      [ {[ "workout_date" := PStr "2024-06-03"; "calories" := PInt 674 ]} ]
    = ([PStr "2024-06-03"], inr (0, 1), out).
Proof.
  apply (sync_inserts_only_absent_records Sample.store [PStr "2024-06-03"]
           [ {[ "workout_date" := PStr "2024-06-03";
                "calories" := PInt 674 ]} ]).
  constructor; [|constructor].
  exists (PStr "2024-06-03"), (inr [1%Z]).
  split; [reflexivity | split; [reflexivity | discriminate]].
Defined.

(** ** Running the sync twice *)

Section SyncTwice.

Context {St : Type} (db : Store St).
Hypothesis lawful : keeps_dates db.

Lemma sync_loop_first_run : forall workouts st inserted skipped,
  Forall string_dated workouts ->
  exists st1 inserted' skipped' out,
    sync_loop db st workouts inserted skipped
    = (st1, inr (inserted', skipped'), out)
    /\ (forall s, present db st (PStr s) -> present db st1 (PStr s))
    /\ Forall (fun w => exists s, w !! "workout_date" = Some (PStr s)
                                  /\ present db st1 (PStr s)) workouts.
Proof.
  induction workouts as [|w ws IH]; intros st inserted skipped H.
  - exists st, inserted, skipped, []. simpl. auto.
  - inversion H as [|? ? [s Hd] Hws]; subst. simpl.
    unfold sync_try, getitem. rewrite Hd. simpl.
    destruct (select_reads db lawful st s) as [rows Hsel]. rewrite Hsel.
    destruct rows as [|row rows].
    + destruct (insert_adds db lawful st w s Hd)
        as (st2 & Hins & Hnew & Hold).
      rewrite Hins. simpl.
      destruct (IH st2 (S inserted) skipped Hws)
        as (st1 & i' & s' & out & E & Hmono & Hall).
      rewrite E. eexists st1, i', s', _. split; [reflexivity|].
      split; [auto|]. constructor; eauto.
    + destruct (IH st inserted (S skipped) Hws)
        as (st1 & i' & s' & out & E & Hmono & Hall).
      rewrite E. eexists st1, i', s', _. split; [reflexivity|].
      split; [auto|]. constructor; [|exact Hall].
      exists s. split; [exact Hd|]. apply Hmono.
      exists (row :: rows). split; [exact Hsel | discriminate].
Qed.

Lemma sync_loop_second_run : forall workouts st inserted skipped,
  Forall (fun w => exists s, w !! "workout_date" = Some (PStr s)
                             /\ present db st (PStr s)) workouts ->
  sync_loop db st workouts inserted skipped
  = (st, inr (inserted, skipped + List.length workouts), []).
Proof.
  induction workouts as [|w ws IH]; intros st inserted skipped H.
  - simpl. now rewrite Nat.add_0_r.
  - inversion H as [|? ? (s & Hd & rows & Hsel & Hne) Hws]; subst.
    simpl. unfold sync_try, getitem. rewrite Hd. simpl. rewrite Hsel.
    destruct rows as [|row rows]; [contradiction|].
    rewrite (IH st inserted (S skipped) Hws). simpl.
    repeat f_equal. lia.
Qed.

End SyncTwice.

(** X3. Syncing the same records a second time inserts nothing: with a
    store that keeps what it is given, the first run returns its counts,
    and a second run from the store it left counts every record as
    skipped, leaves the store as it is and prints nothing. *)
Theorem sync_twice_inserts_nothing {St} (db : Store St) (st : St)
        (workouts : list (gmap string value)) :
  keeps_dates db ->
  Forall string_dated workouts ->
  exists st1 inserted skipped out,
    sync_to_supabase db st workouts = (st1, inr (inserted, skipped), out)
    /\ sync_to_supabase db st1 workouts
       = (st1, inr (0, List.length workouts), []).
Proof.
  intros Hlaw Hall.
  destruct (sync_loop_first_run db Hlaw workouts st 0 0 Hall)
    as (st1 & i & s & out & E & _ & Hpresent).
  exists st1, i, s, out. split; [exact E|].
  apply (sync_loop_second_run db workouts st1 0 0 Hpresent).
Qed.

Lemma sample_store_keeps_dates : keeps_dates Sample.store.
Proof.
  split.
  - intros st s. eexists. reflexivity.
  - intros st w s Hd. eexists. split; [reflexivity|].
    simpl. rewrite Hd. simpl. split.
    + unfold present. simpl. rewrite String.eqb_refl. simpl.
      eexists. split; [reflexivity | discriminate].
    + intros s' (rows & Hsel & Hne). unfold present. simpl in *.
      destruct (String.eqb s s'); simpl.
      * eexists. split; [reflexivity | discriminate].
      * exists rows. split; [|exact Hne]. inversion Hsel. reflexivity.
Qed.

Lemma sync_twice_inserts_nothing_witness :
  exists st1 inserted skipped out,
    sync_to_supabase Sample.store []
      [ {[ "workout_date" := PStr "2024-06-03" ]};
        {[ "workout_date" := PStr "2024-06-04" ]};
        {[ "workout_date" := PStr "2024-06-03" ]} ]
    = (st1, inr (inserted, skipped), out)
    /\ sync_to_supabase Sample.store st1
         [ {[ "workout_date" := PStr "2024-06-03" ]};
           {[ "workout_date" := PStr "2024-06-04" ]};
           {[ "workout_date" := PStr "2024-06-03" ]} ]
       = (st1, inr (0, 3), []).
Proof.
  apply (sync_twice_inserts_nothing Sample.store []
           [ {[ "workout_date" := PStr "2024-06-03" ]};
             {[ "workout_date" := PStr "2024-06-04" ]};
             {[ "workout_date" := PStr "2024-06-03" ]} ]).
  - exact sample_store_keeps_dates.
  - repeat constructor; eexists; reflexivity.
Defined.

(** ** The entry point: configuration, search, and what reaches the store *)

Section MainEdges.

Context {P : Platform} {St : Type}.
Variables (cfg : Config) (mail : Mailbox) (db : Store St) (st : St).

(** X4. When one of the four environment variables is unset or empty,
    [main] prints the title and one line with the connection error,
    and returns normally: the store is as it was, and nothing of the
    mailbox shows in what was printed, not even the line that precedes
    the login. *)
Theorem main_missing_configuration :
  unset (SUPABASE_URL cfg) || unset (SUPABASE_KEY cfg)
  || unset (EMAIL_USER cfg) || unset (EMAIL_PASS cfg) = true ->
  exists e,
    main cfg mail db st
    = (st, inr tt,
       [line rule; line "OTF Email Sync"; line rule;
        ([FText "Connection error: "; FExn e], newline)]).
Proof.
  intros H. unfold main, get_supabase_client, connect_to_gmail.
  destruct (unset (SUPABASE_URL cfg) || unset (SUPABASE_KEY cfg)) eqn:Es.
  - exists ValueError. reflexivity.
  - rewrite <- orb_assoc in H. simpl in H.
    destruct (create_client db _ _) as [e|[]].
    + exists e. reflexivity.
    + rewrite H. exists ValueError. reflexivity.
Qed.

(** X5. Once the two connections are made and the search has answered,
    nothing that happens to a single e-mail or a single row stops
    [main]: it ends with the logout, and the store it leaves is the one
    the sync leaves on the records parsed from the identifiers, in
    their order. *)
Theorem main_runs_to_logout ids out2 :
  get_supabase_client cfg db = inr tt ->
  fst (connect_to_gmail cfg mail) = inr tt ->
  search_otf_emails mail = (inr ids, out2) ->
  let workouts := fst (process_all mail ids 0 (List.length ids)) in
  exists out,
    main cfg mail db st
    = (fst (fst (sync_to_supabase db st workouts)), imap_logout mail, out).
Proof.
  intros Hdb Hmail Hsearch workouts. unfold main. rewrite Hdb.
  destruct (connect_to_gmail cfg mail) as [c out1]. simpl in Hmail.
  subst c. rewrite Hsearch.
  destruct ids as [|id ids]; [subst workouts; simpl; eauto|].
  pose proof (process_all_has_date mail (id :: ids) 0
                (List.length (id :: ids))) as Hdates.
  fold workouts in Hdates.
  destruct (process_all mail (id :: ids) 0 (List.length (id :: ids)))
    as [ws out3].
  simpl in workouts. subst workouts.
  destruct ws as [|w ws]; [simpl; eauto|].
  destruct (sync_loop_counts db (w :: ws) st 0 0 Hdates)
    as (st' & i & s & out5 & E & _).
  unfold sync_to_supabase. rewrite E. simpl. eauto.
Qed.

(** X6. A search that does not answer OK is taken as no e-mail at all:
    the identifiers that came with the answer are not fetched, [main]
    prints the two lines saying so, logs out and leaves the store as it
    was. *)
Theorem main_search_refused status ids :
  get_supabase_client cfg db = inr tt ->
  unset (EMAIL_USER cfg) || unset (EMAIL_PASS cfg) = false ->
  imap_login mail = inr tt ->
  imap_select mail = inr tt ->
  imap_search mail = inr (status, ids) ->
  String.eqb status "OK" = false ->
  main cfg mail db st
  = (st, imap_logout mail,
     [line rule; line "OTF Email Sync"; line rule;
      line ("Connecting to Gmail as " +:+ getenv_str (EMAIL_USER cfg)
            +:+ "...");
      line ("Searching for emails: " +:+ search_criteria);
      line "No messages found";
      line "No OTF emails found"]).
Proof.
  intros Hdb Hcfg Hlogin Hselect Hsearch Hstatus.
  unfold main, connect_to_gmail, search_otf_emails.
  rewrite Hdb, Hcfg, Hlogin, Hselect, Hsearch, Hstatus. reflexivity.
Qed.

End MainEdges.

Lemma main_missing_configuration_witness :
  exists e,
    main (P := Sample.platform)
         {| EMAIL_USER := Some "me@example.com"; EMAIL_PASS := Some "";
            SUPABASE_URL := Some "https://db.example.com";
            SUPABASE_KEY := Some "key" |}
         (Sample.mailbox dated_message) Sample.store []
    = ([], inr tt,
       [line rule; line "OTF Email Sync"; line rule;
        ([FText "Connection error: "; FExn e], newline)]).
Proof.
  apply (main_missing_configuration (P := Sample.platform)
           {| EMAIL_USER := Some "me@example.com"; EMAIL_PASS := Some "";
              SUPABASE_URL := Some "https://db.example.com";
              SUPABASE_KEY := Some "key" |}
           (Sample.mailbox dated_message) Sample.store []).
  reflexivity.
Defined.

Lemma main_runs_to_logout_witness :
  let workouts :=
    fst (process_all (P := Sample.platform) unreadable_mailbox ["1"; "2"] 0
           (List.length ["1"; "2"])) in
  exists out,
    main (P := Sample.platform) Sample.config unreadable_mailbox
         failing_store tt
    = (fst (fst (sync_to_supabase failing_store tt workouts)),
       imap_logout unreadable_mailbox, out).
Proof.
  apply (main_runs_to_logout (P := Sample.platform) Sample.config
           unreadable_mailbox failing_store tt ["1"; "2"]
           [line ("Searching for emails: " +:+ search_criteria);
            line "Found 2 OTF emails"]).
  - vm_compute; reflexivity.
  - vm_compute; reflexivity.
  - vm_compute; reflexivity.
Defined.

Lemma main_search_refused_witness :
  main (P := Sample.platform) Sample.config refusing_mailbox Sample.store []
  = ([], imap_logout refusing_mailbox,
     [line rule; line "OTF Email Sync"; line rule;
      line ("Connecting to Gmail as "
            +:+ getenv_str (EMAIL_USER Sample.config) +:+ "...");
      line ("Searching for emails: " +:+ search_criteria);
      line "No messages found";
      line "No OTF emails found"]).
Proof.
  apply (main_search_refused (P := Sample.platform) Sample.config
           refusing_mailbox Sample.store [] "NO" ["1"]);
    reflexivity.
Defined.

(** ** The loop over the identifiers *)

Section Found.

Context {P : Platform}.

Lemma process_all_omap mail : forall ids i total,
  fst (process_all mail ids i total)
  = omap (fun email_id => fst (process_email mail email_id)) ids.
Proof.
  induction ids as [|id ids IH]; intros i total; simpl; [reflexivity|].
  specialize (IH (S i) total).
  destruct (process_email mail id) as [[w|] out];
    destruct (process_all mail ids (S i) total) as [ws out'];
    simpl in *; now rewrite IH.
Qed.

(** X7. The records [main] hands to the sync are the records of the
    e-mails that yield one, in the order of the identifiers, at most
    one for each identifier; the position printed in the progress line
    plays no part. *)
Theorem process_all_keeps_order mail ids i total :
  fst (process_all mail ids i total)
  = omap (fun email_id => fst (process_email mail email_id)) ids
  /\ List.length (fst (process_all mail ids i total)) <= List.length ids.
Proof.
  split; [apply process_all_omap|].
  revert i. induction ids as [|id ids IH]; intros i; simpl; [lia|].
  specialize (IH (S i)).
  destruct (process_email mail id) as [[w|] out];
    destruct (process_all mail ids (S i) total) as [ws out'];
    simpl in *; lia.
Qed.

End Found.

(** ** The record of an e-mail *)

Lemma date_is_no_metric : "workout_date" ∉ four_keys.
Proof.
  unfold four_keys. rewrite !elem_of_union, !elem_of_singleton.
  intros [[[H|H]|H]|H]; discriminate H.
Qed.

Lemma subject_is_no_metric : "email_subject" ∉ four_keys.
Proof.
  unfold four_keys. rewrite !elem_of_union, !elem_of_singleton.
  intros [[[H|H]|H]|H]; discriminate H.
Qed.

Section Record.

Context {P : Platform}.

Lemma parse_workout_data_dom body data :
  parse_workout_data body = inr data -> dom data = four_keys.
Proof.
  intros H. rewrite parse_workout_data_eq in H.
  destruct (rower_value (soup_get_text body)); inversion H.
  apply fields_dom.
Qed.

(** X8. A record comes out of [process_email] only when the fetch
    answered OK, the date was resolved, the subject decoded and the
    extractor returned; it has exactly six keys: the date, formatted
    year-month-day, the decoded subject, and the four metrics as the
    extractor gave them. *)
Theorem process_email_record mail email_id r :
  fst (process_email mail email_id) = Some r ->
  exists msg dt subject data,
    imap_fetch mail email_id = inr ("OK", msg)
    /\ fst (parse_email_date msg) = Some dt
    /\ decode_email_subject (Some (default "" (h_subject (hdr msg))))
       = inr subject
    /\ is_empty (fst (get_email_body msg)) = false
    /\ parse_workout_data (fst (get_email_body msg)) = inr data
    /\ dom r = six_keys
    /\ r !! "workout_date" = Some (PStr (strftime_ymd dt))
    /\ r !! "email_subject" = Some (PStr subject)
    /\ forall k, k ∈ four_keys -> r !! k = data !! k.
Proof.
  unfold process_email, process_email_try.
  destruct (imap_fetch mail email_id) as [e|[status msg]];
    [intros H; inversion H|].
  destruct (String.eqb status "OK") eqn:Hs; [|intros H; inversion H].
  apply String.eqb_eq in Hs. subst status. simpl negb. cbv iota.
  destruct (parse_email_date msg) as [[dt|] out1] eqn:Ed;
    [|intros H; inversion H].
  destruct (decode_email_subject (Some (default "" (h_subject (hdr msg)))))
    as [e|subject] eqn:Es; [intros H; inversion H|].
  destruct (get_email_body msg) as [body out2] eqn:Eb.
  destruct (is_empty body) eqn:Hb; [intros H; inversion H|].
  destruct (parse_workout_data body) as [e|data] eqn:Hp;
    intros H; inversion H; subst r; clear H.
  pose proof (parse_workout_data_dom body data Hp) as Hdom.
  assert (Hout : forall k, k ∉ four_keys -> data !! k = None).
  { intros k Hk. apply not_elem_of_dom. now rewrite Hdom. }
  exists msg, dt, subject, data. rewrite Ed, Es, Eb. cbn [fst].
  do 5 (split; [first [reflexivity | assumption]|]).
  split; [|split; [|split]].
  - rewrite dom_union_L, Hdom, dom_insert_L, dom_singleton_L.
    unfold four_keys, six_keys. set_solver.
  - rewrite lookup_union_r by apply Hout, date_is_no_metric.
    reflexivity.
  - rewrite lookup_union_r by apply Hout, subject_is_no_metric.
    reflexivity.
  - intros k Hk. rewrite <- Hdom in Hk. apply elem_of_dom in Hk as [x Hx].
    rewrite Hx. now apply lookup_union_Some_l.
Qed.

End Record.

Lemma process_email_record_witness :
  let mail := Sample.mailbox dated_message in
  let r := default ∅ (fst (process_email (P := Sample.platform) mail "1")) in
  exists msg dt subject data,
    imap_fetch mail "1" = inr ("OK", msg)
    /\ fst (parse_email_date (P := Sample.platform) msg) = Some dt
    /\ decode_email_subject (P := Sample.platform)
         (Some (default "" (h_subject (hdr msg)))) = inr subject
    /\ is_empty (fst (get_email_body (P := Sample.platform) msg)) = false
    /\ parse_workout_data (P := Sample.platform)
         (fst (get_email_body (P := Sample.platform) msg)) = inr data
    /\ dom r = six_keys
    /\ r !! "workout_date" = Some (PStr (strftime_ymd dt))
    /\ r !! "email_subject" = Some (PStr subject)
    /\ forall k, k ∈ four_keys -> r !! k = data !! k.
Proof.
  cbv zeta.
  apply (process_email_record (P := Sample.platform)
           (Sample.mailbox dated_message) "1").
  reflexivity.
Defined.

(** ** The body selector: where the body comes from *)

Section BodySource.

Context {P : Platform}.

Lemma decode_body_leaf part text :
  decode_body part = inr text -> is_multipart part = false.
Proof. destruct part; [reflexivity | discriminate]. Qed.

Lemma select_body_source : forall parts body,
  select_body parts body = body
  \/ exists p,
       In p parts
       /\ is_multipart p = false
       /\ is_attachment p = false
       /\ is_html p || is_plain p = true
       /\ decode_body p = inr (select_body parts body).
Proof.
  unfold is_attachment, is_html, is_plain.
  induction parts as [|p parts IH]; intros body; simpl; [now left|].
  assert (Hrest : forall b,
             select_body parts b = b
             \/ exists q,
                  In q (p :: parts)
                  /\ is_multipart q = false
                  /\ Str.contains "attachment" (disposition_str q) = false
                  /\ String.eqb (content_type (hdr q)) "text/html"
                     || String.eqb (content_type (hdr q)) "text/plain"
                     = true
                  /\ decode_body q = inr (select_body parts b)).
  { intros b. destruct (IH b) as [E|(q & Hin & Hq)]; [now left|].
    right. exists q. split; [now right | exact Hq]. }
  destruct (Str.contains "attachment" (disposition_str p)) eqn:Ea; auto.
  destruct (String.eqb (content_type (hdr p)) "text/html") eqn:Eh.
  - destruct (decode_body p) as [e|text] eqn:Ed; auto.
    right. exists p. rewrite Ea, Eh, Ed.
    pose proof (decode_body_leaf p text Ed). auto.
  - destruct (String.eqb (content_type (hdr p)) "text/plain") eqn:Ep;
      simpl; auto.
    destruct (is_empty body) eqn:Eb; auto.
    destruct (decode_body p) as [e|text] eqn:Ed; auto.
    destruct (Hrest text) as [E|H]; [|now right].
    right. exists p. rewrite Ea, Eh, Ep, E, Ed.
    pose proof (decode_body_leaf p text Ed). auto.
Qed.

(** X9. The body of a multipart message is empty, or it is the decoded
    text of one of its parts, a leaf that is not an attachment and whose
    type is text/html or text/plain; nothing is printed.  It never comes
    from an attachment, from a part of another type or from a
    container. *)
Theorem multipart_body_source msg :
  is_multipart msg = true ->
  snd (get_email_body msg) = []
  /\ (fst (get_email_body msg) = ""
      \/ exists p,
           In p (walk msg)
           /\ is_multipart p = false
           /\ is_attachment p = false
           /\ is_html p || is_plain p = true
           /\ decode_body p = inr (fst (get_email_body msg))).
Proof.
  intros Hm. unfold get_email_body. rewrite Hm. simpl.
  split; [reflexivity|]. apply select_body_source.
Qed.

Lemma select_body_passes : forall parts rest,
  (forall p, In p parts ->
             is_attachment p = true
             \/ (is_html p = false /\ is_plain p = false)
             \/ (exists e, decode_body p = inl e)
             \/ (is_html p = false /\ decode_body p = inr "")) ->
  select_body (parts ++ rest) "" = select_body rest "".
Proof.
  unfold is_attachment, is_html, is_plain.
  induction parts as [|p parts IH]; intros rest H; [reflexivity|].
  assert (Hrest : select_body (parts ++ rest) "" = select_body rest "").
  { apply IH. intros q Hq. apply H. now right. }
  simpl.
  destruct (Str.contains "attachment" (disposition_str p)) eqn:Ea; auto.
  destruct (H p (or_introl eq_refl))
    as [Hx|[[Hh Hp]|[[e He]|[Hh He]]]].
  - congruence.
  - now rewrite Hh, Hp.
  - rewrite He.
    destruct (String.eqb (content_type (hdr p)) "text/html"); auto.
    now destruct (String.eqb (content_type (hdr p)) "text/plain").
  - rewrite Hh, He.
    now destruct (String.eqb (content_type (hdr p)) "text/plain").
Qed.

Lemma select_body_settled : forall parts body,
  is_empty body = false ->
  (forall p, In p parts -> is_attachment p = false -> is_html p = true ->
             exists e, decode_body p = inl e) ->
  select_body parts body = body.
Proof.
  unfold is_attachment, is_html.
  induction parts as [|p parts IH]; intros body Hb H; simpl; auto.
  assert (Hrest : select_body parts body = body).
  { apply IH; auto. intros q Hq. apply H. now right. }
  destruct (Str.contains "attachment" (disposition_str p)) eqn:Ea; auto.
  destruct (String.eqb (content_type (hdr p)) "text/html") eqn:Eh.
  - destruct (H p (or_introl eq_refl) Ea Eh) as [e ->]. exact Hrest.
  - rewrite Hb, andb_false_r. exact Hrest.
Qed.

(** X10. The plain text is the fallback: when no HTML part of a
    multipart message is usable (each is an attachment or fails to
    decode), the body is the text of the first plain-text part that is
    not an attachment and decodes to a text that is not empty. *)
Theorem plain_text_is_the_fallback msg before plain after text :
  is_multipart msg = true ->
  walk msg = before ++ plain :: after ->
  is_attachment plain = false ->
  is_html plain = false ->
  is_plain plain = true ->
  decode_body plain = inr text ->
  is_empty text = false ->
  (forall p, In p before ->
             is_attachment p = true
             \/ (is_html p = false /\ is_plain p = false)
             \/ (exists e, decode_body p = inl e)
             \/ (is_html p = false /\ decode_body p = inr "")) ->
  (forall p, In p after -> is_attachment p = false -> is_html p = true ->
             exists e, decode_body p = inl e) ->
  get_email_body msg = (text, []).
Proof.
  intros Hm Hw Ha Hh Hp Hd Ht Hbefore Hafter.
  unfold get_email_body. rewrite Hm, Hw. f_equal.
  rewrite select_body_passes by exact Hbefore.
  unfold is_attachment, is_html, is_plain in Ha, Hh, Hp.
  simpl. rewrite Ha, Hh, Hp, Hd. simpl.
  now apply select_body_settled.
Qed.

End BodySource.

Lemma multipart_body_source_witness :
  let msg := Scenario.container [Scenario.attached_html; Scenario.plain_part] in
  snd (get_email_body (P := Sample.platform) msg) = []
  /\ (fst (get_email_body (P := Sample.platform) msg) = ""
      \/ exists p,
           In p (walk msg)
           /\ is_multipart p = false
           /\ is_attachment p = false
           /\ is_html p || is_plain p = true
           /\ decode_body (P := Sample.platform) p
              = inr (fst (get_email_body (P := Sample.platform) msg))).
Proof.
  apply (multipart_body_source (P := Sample.platform)
           (Scenario.container [Scenario.attached_html; Scenario.plain_part])).
  reflexivity.
Defined.

Lemma plain_text_is_the_fallback_witness :
  get_email_body (P := Sample.platform)
    (Scenario.container
       [empty_plain_part; Scenario.html_part "x-unknown";
        Scenario.plain_part; Scenario.attached_html])
  = (Scenario.plain_text, []).
Proof.
  apply (plain_text_is_the_fallback (P := Sample.platform) _
           [Scenario.container
              [empty_plain_part; Scenario.html_part "x-unknown";
               Scenario.plain_part; Scenario.attached_html];
            empty_plain_part; Scenario.html_part "x-unknown"]
           Scenario.plain_part [Scenario.attached_html]).
  - reflexivity.
  - reflexivity.
  - vm_compute; reflexivity.
  - vm_compute; reflexivity.
  - vm_compute; reflexivity.
  - vm_compute; reflexivity.
  - reflexivity.
  - intros p [<-|[<-|[<-|[]]]].
    + right. left. split; vm_compute; reflexivity.
    + right. right. right. split; vm_compute; reflexivity.
    + right. right. left. eexists. vm_compute. reflexivity.
  - intros p [<-|[]]. vm_compute. intros Ha. discriminate Ha.
Defined.

(** ** The subject decoder *)

Section Subject.

Context {P : Platform}.

Lemma decode_parts_concat : forall parts acc,
  decode_parts parts acc
  = bind (piece_texts parts) (fun ts => ret (acc +:+ String.concat "" ts)).
Proof.
  induction parts as [|[[bytes|str] encoding] parts IH]; intros acc; simpl.
  - now rewrite app_nil_r.
  - destruct (bytes_decode bytes (or_utf8 encoding)) as [e|t];
      simpl; [reflexivity|].
    rewrite IH. destruct (piece_texts parts) as [e|ts]; simpl;
      [reflexivity|].
    f_equal. destruct ts as [|t' ts]; simpl.
    + now rewrite !app_nil_r.
    + now rewrite app_assoc.
  - rewrite IH. destruct (piece_texts parts) as [e|ts]; simpl;
      [reflexivity|].
    f_equal. destruct ts as [|t' ts]; simpl.
    + now rewrite !app_nil_r.
    + now rewrite app_assoc.
Qed.

(** X11. The decoded subject is the concatenation, in order and without
    separator, of the texts of the pieces the header decoder returns;
    the first piece whose bytes do not decode makes the call raise that
    error, and no text is returned. *)
Theorem decode_email_subject_concat subject parts :
  decode_header subject = inr parts ->
  decode_email_subject (Some subject)
  = bind (piece_texts parts) (fun ts => ret (String.concat "" ts)).
Proof.
  intros H. unfold decode_email_subject. rewrite H. simpl.
  apply decode_parts_concat.
Qed.

End Subject.

Lemma decode_email_subject_concat_witness :
  decode_email_subject (P := encoded_word_platform)
    (Some "Re: =?utf-8?q?workout?= =?latin-1?q?_summary?=")
  = bind (piece_texts (P := encoded_word_platform)
            [(inl (Sample.bytes "Re: "), Some "");
             (inl (Sample.bytes "workout"), Some "utf-8");
             (inl (Sample.bytes " summary"), Some "latin-1")])
         (fun ts => ret (String.concat "" ts)).
Proof.
  apply (decode_email_subject_concat (P := encoded_word_platform)
           "Re: =?utf-8?q?workout?= =?latin-1?q?_summary?=").
  reflexivity.
Defined.

(** ** The date resolver: a header already in the fixed format *)

Section FixedFormat.

Context {P : Platform}.

Lemma sub_empty_fixed_format s dt :
  strptime s = inr dt -> sub_empty false tzname_pattern s = s.
Proof.
  intros Hs. destruct (strptime_shape s dt Hs) as (Hp & c & Hc & Hsp).
  unfold sub_empty. rewrite <- (app_nil_r s) at 1.
  rewrite sub_empty_keeps; auto; [|unfold ends_solid; now rewrite Hc].
  simpl. apply app_nil_r.
Qed.

(** X12. The substitution that removes a timezone name leaves a header
    in the fixed format as it is: when the standard parser rejects such
    a header, the fallback resolves it to the date the fixed-format
    parser reads, and nothing is printed. *)
Theorem fixed_format_date_resolved msg s dt e :
  h_date (hdr msg) = Some s ->
  parsedate_to_datetime s = inl e ->
  strptime s = inr dt ->
  sub_empty false tzname_pattern s = s
  /\ parse_email_date msg = (Some dt, []).
Proof.
  intros Hd Hstd Hs.
  pose proof (sub_empty_fixed_format s dt Hs) as Hsub.
  split; [exact Hsub|].
  unfold parse_email_date. rewrite Hd.
  destruct (strptime_shape s dt Hs) as (_ & c & Hc & _).
  destruct s as [|x s]; [discriminate Hc|].
  change (is_empty (String x s)) with false. cbv iota.
  rewrite Hstd, Hsub, Hs. reflexivity.
Qed.

End FixedFormat.

Lemma fixed_format_date_resolved_witness :
  sub_empty false tzname_pattern "Mon, 03 Jun 2024 07:15:00 -0400"
  = "Mon, 03 Jun 2024 07:15:00 -0400"
  /\ parse_email_date (P := fallback_platform) dated_message
     = (Some (DT 2024 6 3 7 15 0 0 (Some (-14400, 0)%Z)), []).
Proof.
  apply (fixed_format_date_resolved (P := fallback_platform) dated_message
           "Mon, 03 Jun 2024 07:15:00 -0400"
           (DT 2024 6 3 7 15 0 0 (Some (-14400, 0)%Z)) ValueError).
  - reflexivity.
  - reflexivity.
  - vm_compute; reflexivity.
Defined.

(** ** The number extractor *)

Lemma span_digits_spec : forall s,
  s = fst (span_digits s) +:+ snd (span_digits s)
  /\ Str.all Chr.is_digit (fst (span_digits s)) = true
  /\ match snd (span_digits s) with
     | "" => True
     | String c _ => Chr.is_digit c = false
     end.
Proof.
  induction s as [|c s IH]; simpl; [auto|].
  destruct (Chr.is_digit c) eqn:Ec.
  - destruct (span_digits s) as [d r]. simpl in *.
    destruct IH as (E & Hd & Hr). rewrite Ec, Hd. rewrite <- E. auto.
  - simpl. auto.
Qed.

Lemma lstrip_by_spec p : forall s,
  exists pre,
    s = pre +:+ lstrip_by p s
    /\ Str.all p pre = true
    /\ match lstrip_by p s with
       | "" => True
       | String c _ => p c = false
       end.
Proof.
  induction s as [|c s IH]; simpl.
  - exists "". auto.
  - destruct (p c) eqn:Ec.
    + destruct IH as (pre & E & Hp & Hr). exists (String c pre).
      simpl. rewrite Ec, Hp. rewrite <- E. auto.
    + exists "". simpl. auto.
Qed.

Lemma all_remove_char c s : Str.all (fun x => negb (Chr.eqb x c))
                                    (Str.remove_char c s) = true.
Proof. apply filter_all. Qed.

Lemma all_and p q s :
  Str.all p s = true -> Str.all q s = true ->
  Str.all (fun c => p c && q c) s = true.
Proof.
  induction s as [|c s IH]; simpl; auto.
  intros Hp Hq. apply andb_true_iff in Hp as [-> Hp].
  apply andb_true_iff in Hq as [-> Hq]. simpl. auto.
Qed.

Lemma all_of_app p a b :
  Str.all p (a +:+ b) = true -> Str.all p a = true /\ Str.all p b = true.
Proof. rewrite all_app. apply andb_true_iff. Qed.

Lemma number_mem c :
  cset_mem false (CUnion CDigit (CChar ",")) c
  = Chr.is_digit c || Chr.eqb c ",".
Proof. unfold cset_mem. simpl. apply orb_false_r. Qed.

Lemma digit_mem_exact c : cset_mem false CDigit c = Chr.is_digit c.
Proof. unfold cset_mem. simpl. apply orb_false_r. Qed.

Lemma point_mem_exact c : cset_mem false (CChar ".") c = Chr.eqb c ".".
Proof. unfold cset_mem. simpl. apply orb_false_r. Qed.

(** The search passes over a text without digit or comma. *)
Lemma number_search_skips pre prev rest :
  Str.all not_digit pre = true ->
  Str.all no_comma pre = true ->
  search_from false number_pattern prev (pre +:+ rest)
  = search_from false number_pattern (prev_after prev pre) rest.
Proof.
  intros Hd Hc. apply search_from_skip_run; [reflexivity|].
  rewrite (all_ext _ (fun c => not_digit c && no_comma c));
    [now apply all_and|].
  intros c. unfold not_digit, no_comma.
  change (starts false number_pattern c)
    with (cset_mem false (CUnion CDigit (CChar ",")) c && true || false).
  rewrite number_mem, orb_false_r, andb_true_r. now rewrite negb_orb.
Qed.

Lemma number_search_empty prev :
  search_from false number_pattern prev "" = None.
Proof. reflexivity. Qed.

(** At a run of digits the match is the run and, if a point follows it,
    the point and the digits after it. *)
Lemma number_match_here ip r prev :
  Str.all Chr.is_digit ip = true ->
  ip <> "" ->
  match r with
  | "" => True
  | String c _ => Chr.is_digit c = false /\ Chr.eqb c "," = false
  end ->
  match_here false number_pattern prev (ip +:+ r)
  = Some ([("0",
            match r with
            | String c r' =>
                if Chr.eqb c "."
                then ip +:+ "." +:+ fst (span_digits r')
                else ip
            | "" => ip
            end)],
          match r with
          | String c r' =>
              if Chr.eqb c "." then snd (span_digits r') else r
          | "" => r
          end).
Proof.
  intros Hi Hne Hr. unfold match_here, number_pattern.
  cbn [rmatch].
  apply (rep_greedy _ 1 None _ prev ip r).
  - eapply all_impl; [|exact Hi].
    intros c Hc. now rewrite number_mem, Hc.
  - destruct ip; [contradiction | simpl; lia].
  - exact I.
  - right. destruct r as [|c r']; [exact I|].
    rewrite number_mem. destruct Hr as [-> ->]. reflexivity.
  - destruct r as [|c r'].
    + change (rep (cset_mem false (CChar ".")) 0 (Some 1)
                (fun prev0 s0 =>
                   rep (cset_mem false CDigit) 0 None
                     (fun prev' s' =>
                        accept
                          [("0", Str.take (String.length (ip +:+ "")
                                           - String.length s') (ip +:+ ""))]
                          prev' s')
                     prev0 s0)
                (prev_after prev ip) "")
        with (accept [("0", Str.take (String.length (ip +:+ "") - 0)
                              (ip +:+ ""))]
                     (prev_after prev ip) "").
      unfold accept. f_equal. f_equal. f_equal. f_equal.
      apply (take_length_diff ip "").
    + destruct (Chr.eqb c ".") eqn:Ec.
      * assert (c = "."%char) as ->.
        { apply ascii_eqb_true. exact Ec. }
        pose proof (span_digits_spec r') as H.
        destruct (span_digits r') as [fp r'']. simpl in H.
        destruct H as (E & Hf & Hstop). subst r'. cbn [fst snd].
        change (String "." (fp +:+ r'')) with ("." +:+ fp +:+ r'').
        apply (rep_greedy _ 0 (Some 1) _ (prev_after prev ip) "."
                 (fp +:+ r'')).
        { reflexivity. }
        { simpl; lia. }
        { simpl; lia. }
        { left. reflexivity. }
        apply (rep_greedy _ 0 None _
                 (prev_after (prev_after prev ip) ".") fp r'').
        { erewrite all_ext; [exact Hf | apply digit_mem_exact]. }
        { lia. }
        { exact I. }
        { right. destruct r''; [exact I|]. now rewrite digit_mem_exact. }
        unfold accept.
        replace (ip +:+ "." +:+ fp +:+ r'')
          with ((ip +:+ "." +:+ fp) +:+ r'')
          by (rewrite !app_assoc; reflexivity).
        rewrite take_length_diff. reflexivity.
      * change (String c r') with ("" +:+ String c r') at 1.
        apply (rep_greedy _ 0 (Some 1) _ (prev_after prev ip) ""
                 (String c r')).
        { reflexivity. }
        { simpl; lia. }
        { simpl; lia. }
        { right. now rewrite point_mem_exact. }
        change (String c r') with ("" +:+ String c r') at 1.
        apply (rep_greedy _ 0 None _
                 (prev_after (prev_after prev ip) "") "" (String c r')).
        { reflexivity. }
        { simpl; lia. }
        { exact I. }
        { right. rewrite digit_mem_exact. now destruct Hr. }
        unfold accept. f_equal. f_equal. f_equal.
        f_equal. apply take_length_diff.
Qed.

Section Number.

Context {P : Platform}.

Lemma extract_number_eq text :
  extract_number (Some text) = leading_number (Str.remove_char "," text).
Proof.
  unfold extract_number. destruct text as [|x text']; [reflexivity|].
  change (is_empty (String x text')) with false. cbv iota.
  pose proof (all_remove_char "," (String x text')) as Hc.
  change (Str.all no_comma (Str.remove_char "," (String x text')) = true)
    in Hc.
  remember (Str.remove_char "," (String x text')) as t eqn:Ht. clear Ht.
  unfold leading_number, search.
  destruct (lstrip_by_spec not_digit t) as (pre & Et & Hpre & Hfirst).
  remember (lstrip_by not_digit t) as s1 eqn:Hs1. clear Hs1.
  pose proof (span_digits_spec s1) as Hs.
  destruct (span_digits s1) as [ip r]. simpl in Hs.
  destruct Hs as (Es & Hi & Hr). subst t s1.
  apply all_of_app in Hc as [Hc1 Hc2].
  apply all_of_app in Hc2 as [_ Hc3].
  rewrite number_search_skips by assumption.
  destruct ip as [|d ip].
  - simpl in *. destruct r as [|c r]; [reflexivity|].
    unfold not_digit in Hfirst. rewrite Hr in Hfirst. discriminate.
  - change (is_empty (String d ip)) with false. cbv iota.
    assert (Hr' : match r with
                  | "" => True
                  | String c _ =>
                      Chr.is_digit c = false /\ Chr.eqb c "," = false
                  end).
    { destruct r as [|c r]; [exact I|]. split; [exact Hr|].
      simpl in Hc3. apply andb_true_iff in Hc3 as [Hc3 _].
      unfold no_comma in Hc3. now apply negb_true_iff in Hc3. }
    rewrite (search_from_here _ _ _ _ _
               (number_match_here (String d ip) r _ Hi
                  ltac:(discriminate) Hr')).
    unfold group. cbn [fst lookup String.eqb Ascii.eqb Bool.eqb].
    destruct r as [|c r'].
    + rewrite float_of_int by (auto; discriminate). reflexivity.
    + destruct (Chr.eqb c ".").
      * pose proof (span_digits_spec r') as (_ & Hf & _).
        rewrite float_of_point by (auto; discriminate). reflexivity.
      * rewrite float_of_int by (auto; discriminate). reflexivity.
Qed.

(** X13. [extract_number] gives the first number of the text once the
    commas are taken out: the first run of digits and, if a point comes
    right after it, the digits after the point; the conversion of what
    the pattern matched never fails. *)
Theorem extract_number_reads_first_number text :
  extract_number (Some text) = leading_number (Str.remove_char "," text).
Proof. apply extract_number_eq. Qed.

Lemma leading_number_none t :
  leading_number t = None <-> Str.all not_digit t = true.
Proof.
  unfold leading_number.
  destruct (lstrip_by_spec not_digit t) as (pre & Et & Hpre & Hfirst).
  remember (lstrip_by not_digit t) as s1 eqn:Hs1. clear Hs1.
  pose proof (span_digits_spec s1) as Hs.
  destruct (span_digits s1) as [ip r]. simpl in Hs.
  destruct Hs as (Es & Hi & Hr). subst t s1.
  rewrite !all_app, Hpre. simpl.
  destruct ip as [|d ip].
  - simpl in *. destruct r as [|c r]; [tauto|].
    unfold not_digit in Hfirst. rewrite Hr in Hfirst. discriminate.
  - simpl in Hi. apply andb_true_iff in Hi as [Hd _].
    simpl. unfold not_digit at 1. rewrite Hd. simpl.
    split; [|discriminate].
    destruct r as [|c r]; [discriminate|].
    destruct (Chr.eqb c "."); discriminate.
Qed.

(** X14. [extract_number] returns no number exactly when the text has
    no decimal digit: a missing text, an empty one, or one made of
    other characters. *)
Theorem extract_number_none_iff text :
  extract_number text = None
  <-> match text with
      | Some s => Str.all not_digit s = true
      | None => True
      end.
Proof.
  destruct text as [s|]; [|simpl; tauto].
  rewrite extract_number_eq, leading_number_none.
  unfold Str.remove_char.
  induction s as [|c s IH]; simpl; [tauto|].
  unfold not_digit at 2.
  destruct (Chr.is_digit c) eqn:Ed; simpl.
  - assert (Chr.eqb c "," = false) as ->.
    { destruct (Chr.eqb c ",") eqn:E; [|reflexivity].
      apply ascii_eqb_true in E. subst c. discriminate Ed. }
    simpl. unfold not_digit at 1. rewrite Ed. simpl. tauto.
  - destruct (Chr.eqb c ","); simpl; [exact IH|].
    unfold not_digit at 1. rewrite Ed. simpl. exact IH.
Qed.

End Number.

(** ** The field extractor: the values it can produce *)

Lemma digit_val_range c :
  Chr.is_digit c = true -> (0 <= Chr.digit_val c <= 9)%Z.
Proof.
  unfold Chr.is_digit, Chr.between, Chr.digit_val. intros H.
  apply andb_true_iff in H as [H1 H2].
  apply N.leb_le in H1, H2. lia.
Qed.

Lemma digits_value_bounds : forall s acc,
  Str.all Chr.is_digit s = true ->
  (0 <= acc)%Z ->
  (acc * 10 ^ Z.of_nat (String.length s) <= digits_value acc s
   < (acc + 1) * 10 ^ Z.of_nat (String.length s))%Z.
Proof.
  induction s as [|c s IH]; intros acc Hall Hacc.
  - simpl. lia.
  - simpl in Hall. apply andb_true_iff in Hall as [Hc Hs].
    pose proof (digit_val_range c Hc) as Hd.
    cbn [digits_value String.length].
    rewrite Nat2Z.inj_succ, Z.pow_succ_r by lia.
    specialize (IH (acc * 10 + Chr.digit_val c)%Z Hs ltac:(lia)).
    assert (Hp : (0 < 10 ^ Z.of_nat (String.length s))%Z)
      by (apply Z.pow_pos_nonneg; lia).
    nia.
Qed.

Lemma digits_value_upto s n :
  Str.all Chr.is_digit s = true ->
  String.length s <= n ->
  (0 <= digits_value 0 s <= 10 ^ Z.of_nat n - 1)%Z.
Proof.
  intros Hs Hn. pose proof (digits_value_bounds s 0 Hs ltac:(lia)) as H.
  assert ((10 ^ Z.of_nat (String.length s) <= 10 ^ Z.of_nat n)%Z)
    by (apply Z.pow_le_mono_r; lia).
  lia.
Qed.

Lemma decimal_nonneg ip fp :
  Str.all Chr.is_digit ip = true ->
  Str.all Chr.is_digit fp = true ->
  (0 <= decimal ip fp)%Q.
Proof.
  intros Hi Hf. unfold decimal, Qle. simpl.
  pose proof (digits_value_bounds ip 0 Hi ltac:(lia)) as H1.
  assert (H0 : (0 <= digits_value 0 ip)%Z).
  { assert ((0 < 10 ^ Z.of_nat (String.length ip))%Z)
      by (apply Z.pow_pos_nonneg; lia).
    lia. }
  pose proof (digits_value_bounds fp _ Hf H0) as H2.
  assert ((0 < 10 ^ Z.of_nat (String.length fp))%Z)
    by (apply Z.pow_pos_nonneg; lia).
  nia.
Qed.

Section Ranges.

Variable text : string.

Lemma cal_value_range : none_or_int_upto 9999 (default PNone (cal_value text)).
Proof.
  unfold cal_value.
  destruct (search IGNORECASE cal_pattern text) as [m|] eqn:H;
    [|now left].
  destruct (search_only_group IGNORECASE cal_pattern "1"
              (RRep CDigit 2 (Some 4)) text m eq_refl H)
    as (u & Hm & Hall & _ & Hlen & _).
  right. unfold group. rewrite Hm. simpl. eexists. split; [reflexivity|].
  apply (all_impl _ _ _ mem_digit) in Hall.
  apply (digits_value_upto u 4 Hall Hlen).
Qed.

Lemma splat_value_range : none_or_int_upto 99 (default PNone (splat_value text)).
Proof.
  unfold splat_value.
  destruct (search IGNORECASE splat_pattern text) as [m|] eqn:H;
    [|now left].
  destruct (search_only_group IGNORECASE splat_pattern "1"
              (RRep CDigit 1 (Some 2)) text m eq_refl H)
    as (u & Hm & Hall & _ & Hlen & _).
  right. unfold group. rewrite Hm. simpl. eexists. split; [reflexivity|].
  apply (all_impl _ _ _ mem_digit) in Hall.
  apply (digits_value_upto u 2 Hall Hlen).
Qed.

Lemma tread_value_range : none_or_distance (default PNone (tread_value text)).
Proof.
  unfold tread_value.
  destruct (search IGNORECASE tread_pattern text) as [m|] eqn:H;
    [|now left].
  destruct (search_only_group IGNORECASE tread_pattern "1"
              (RSeq (RRep CDigit 1 None)
                    (RSeq (RRep (CChar ".") 0 (Some 1)) (RRep CDigit 0 None)))
              text m eq_refl H) as (u & Hm & Hs).
  unfold group. rewrite Hm. simpl lookup. clear Hm H.
  destruct Hs as (ip & v & n1 & n2 & -> & (Hip & Hlen & _) & Hv & _).
  destruct Hv as (dot & fp & n3 & n4 & -> & (Hdot & _ & Hdl & _)
                  & (Hfp & _) & _).
  apply (all_impl _ _ _ mem_digit) in Hip, Hfp.
  assert (Hne : ip <> "") by (intros ->; simpl in Hlen; lia).
  destruct dot as [|d dot].
  - simpl String.append.
    rewrite float_of_int;
      [| now rewrite all_app, Hip, Hfp
       | destruct ip; [contradiction | discriminate]].
    right. eexists. split; [reflexivity|].
    apply decimal_nonneg; [now rewrite all_app, Hip, Hfp | reflexivity].
  - destruct dot; [|simpl in Hdl; lia].
    simpl in Hdot. rewrite andb_true_r in Hdot.
    apply mem_point, ascii_eqb_true in Hdot. subst d.
    rewrite float_of_point by assumption.
    right. eexists. split; [reflexivity|]. now apply decimal_nonneg.
Qed.

Lemma rower_value_range r :
  rower_value text = inr r -> none_or_natural (default PNone r).
Proof.
  unfold rower_value.
  destruct (search IGNORECASE rower_pattern text) as [m|];
    [|intros H; inversion H; now left].
  pose proof (filter_all Chr.is_digit (group m "1")) as Hd.
  destruct (is_empty (Str.filter Chr.is_digit (group m "1"))
            || (int_max_str_digits
                <? String.length
                     (Str.filter Chr.is_digit (group m "1")))%nat);
    intros H; inversion H.
  right. eexists. split; [reflexivity|].
  apply (digits_value_upto _ _ Hd (Nat.le_refl _)).
Qed.

End Ranges.

Section Schema.

Context {P : Platform}.

(** X15. Whatever the text, the extractor raises ValueError or returns
    a dict with exactly the four keys, where the calories are [None] or
    an integer from 0 to 9999, the splat points [None] or an integer
    from 0 to 99, the treadmill distance [None] or a non-negative
    float, and the rower distance [None] or a non-negative integer. *)
Theorem parse_workout_data_ranges body :
  parse_workout_data body = inl ValueError
  \/ exists data c s t r,
       parse_workout_data body = inr data
       /\ dom data = four_keys
       /\ data !! "calories" = Some c /\ none_or_int_upto 9999 c
       /\ data !! "splat_points" = Some s /\ none_or_int_upto 99 s
       /\ data !! "treadmill_distance" = Some t /\ none_or_distance t
       /\ data !! "rower_distance" = Some r /\ none_or_natural r.
Proof.
  rewrite parse_workout_data_eq.
  set (text := soup_get_text body).
  destruct (rower_value text) as [e|r] eqn:Er.
  - left. unfold rower_value in Er.
    destruct (search IGNORECASE rower_pattern text) as [m|];
      [|discriminate].
    destruct (is_empty (Str.filter Chr.is_digit (group m "1"))
              || (int_max_str_digits
                  <? String.length
                       (Str.filter Chr.is_digit (group m "1")))%nat);
      inversion Er. reflexivity.
  - right.
    destruct (fields_lookup (cal_value text) (splat_value text)
                (tread_value text) r) as (Hc & Hs & Ht & Hr).
    eexists _, _, _, _, _. split; [reflexivity|].
    split; [apply fields_dom|].
    split; [exact Hc|]. split; [apply cal_value_range|].
    split; [exact Hs|]. split; [apply splat_value_range|].
    split; [exact Ht|]. split; [apply tread_value_range|].
    split; [exact Hr|]. now apply (rower_value_range text).
Qed.

End Schema.

(** ** The field extractor: numbers longer than the pattern reads *)

Lemma not_digit_mem : forall c,
  not_digit c = true -> negb (cset_mem true CDigit c) = true.
Proof. by_enumeration. Qed.

Lemma all_drop p : forall n s,
  Str.all p s = true -> Str.all p (Str.drop n s) = true.
Proof.
  induction n as [|n IH]; intros [|c s] H; simpl in *; auto.
  apply andb_true_iff in H as [_ H]. now apply IH.
Qed.

Lemma all_take p : forall n s,
  Str.all p s = true -> Str.all p (Str.take n s) = true.
Proof.
  induction n as [|n IH]; intros [|c s] H; simpl in *; auto.
  apply andb_true_iff in H as [-> H]. now apply IH.
Qed.

Section Overlong.

Variable l : ascii.
Hypothesis l_not_digit :
  forall c, cset_mem true CDigit c = true -> cset_mem true (CChar l) c = false.

(** Where more digits follow than the quantifier may read, the pattern
    does not match: after any number of digits it may read, the next
    character is a digit, not a blank and not the letter. *)
Lemma digit_led_overlong lo hi rest prev w tail :
  Str.all (cset_mem true CDigit) w = true ->
  hi < String.length w ->
  match_here true (digit_led lo (Some hi) l rest) prev (w +:+ tail) = None.
Proof.
  intros Hw Hlen. unfold match_here, digit_led. simpl rmatch.
  apply rep_none. intros n _ _ Hfit _. simpl in Hfit.
  destruct (drop_app_lt w tail n ltac:(lia)) as (y & r & -> & Hy).
  pose proof (all_In _ _ Hw y Hy) as Hyd.
  apply rep_none. intros m _ _ _ Hm.
  destruct m as [|m].
  - simpl. now rewrite (l_not_digit y Hyd).
  - simpl in Hm. apply andb_true_iff in Hm as [Hs _].
    pose proof (digit_not_space_mem y (mem_digit y Hyd)) as Hn.
    rewrite Hs in Hn. discriminate Hn.
Qed.

(** The search passes over the digits that come before the last [hi]
    ones. *)
Lemma digit_led_last_digits lo hi rest : forall w1 prev w2 tail,
  Str.all (cset_mem true CDigit) w1 = true ->
  Str.all (cset_mem true CDigit) w2 = true ->
  String.length w2 = hi ->
  search_from true (digit_led lo (Some hi) l rest) prev
    (w1 +:+ w2 +:+ tail)
  = search_from true (digit_led lo (Some hi) l rest) (prev_after prev w1)
      (w2 +:+ tail).
Proof.
  induction w1 as [|c w1 IH]; intros prev w2 tail H1 H2 Hlen;
    [reflexivity|].
  assert (Hnone : match_here true (digit_led lo (Some hi) l rest) prev
                    ((String c w1 +:+ w2) +:+ tail) = None).
  { apply digit_led_overlong.
    - now rewrite all_app, H1, H2.
    - rewrite length_app. simpl. lia. }
  rewrite app_assoc in Hnone.
  simpl in H1. apply andb_true_iff in H1 as [_ H1].
  change (String c w1 +:+ w2 +:+ tail)
    with (String c (w1 +:+ w2 +:+ tail)) in *.
  rewrite search_from_next by exact Hnone.
  now apply IH.
Qed.

End Overlong.

Section LastDigits.

Context {P : Platform}.

Lemma cal_search_last_digits pre ds rest :
  Str.all not_digit pre = true ->
  Str.all Chr.is_digit ds = true ->
  4 <= String.length ds ->
  search IGNORECASE cal_pattern (pre +:+ ds +:+ " CALORIES BURNED" +:+ rest)
  = Some ([("1", Str.drop (String.length ds - 4) ds)], rest).
Proof.
  intros Hpre Hds Hlen. unfold search, IGNORECASE.
  rewrite search_from_skip_run;
    [| reflexivity
     | eapply all_impl; [|exact Hpre]; intros c Hc;
       change (starts true cal_pattern c)
         with (cset_mem true CDigit c && true || false);
       rewrite orb_false_r, andb_true_r; now apply not_digit_mem ].
  set (kept := Str.drop (String.length ds - 4) ds).
  assert (Hk : Str.all Chr.is_digit kept = true) by now apply all_drop.
  assert (Hkl : String.length kept = 4).
  { unfold kept. rewrite length_drop. lia. }
  rewrite <- (take_drop (String.length ds - 4) ds) at 1. fold kept.
  rewrite app_assoc, cal_pattern_shape.
  destruct letter_C_facts as (H1 & _ & _).
  rewrite (digit_led_last_digits "C" H1);
    [| apply (all_impl _ _ _ (digit_mem true)), all_take; exact Hds
     | apply (all_impl _ _ _ (digit_mem true)); exact Hk
     | exact Hkl ].
  rewrite <- cal_pattern_shape.
  assert (wf : well_formed (calories_reading kept) = true).
  { unfold well_formed. simpl. rewrite Hk, Hkl. reflexivity. }
  rewrite <- app_assoc.
  apply (cal_hit (calories_reading kept) wf).
Qed.

(** X16. A calorie count longer than four digits loses its leading
    digits: the search passes over them, and finds the last four digits
    before the label.  The calories of the record are the value of
    these four digits, whenever the extractor returns. *)
Theorem calories_keep_last_four_digits body pre ds rest :
  soup_get_text body = pre +:+ ds +:+ " CALORIES BURNED" +:+ rest ->
  Str.all not_digit pre = true ->
  Str.all Chr.is_digit ds = true ->
  4 <= String.length ds ->
  let kept := Str.drop (String.length ds - 4) ds in
  search IGNORECASE cal_pattern (soup_get_text body)
  = Some ([("1", kept)], rest)
  /\ (parse_workout_data body = inl ValueError
      \/ exists data,
           parse_workout_data body = inr data
           /\ data !! "calories" = Some (PInt (digits_value 0 kept))).
Proof.
  intros Ht Hpre Hds Hlen kept.
  pose proof (cal_search_last_digits pre ds rest Hpre Hds Hlen) as Hs.
  fold kept in Hs. rewrite <- Ht in Hs. split; [exact Hs|].
  rewrite parse_workout_data_eq.
  destruct (rower_value (soup_get_text body)) as [e|r] eqn:Er.
  - left. unfold rower_value in Er.
    destruct (search IGNORECASE rower_pattern (soup_get_text body));
      [|discriminate].
    destruct (is_empty _ || _); inversion Er. reflexivity.
  - right. eexists. split; [reflexivity|].
    destruct (fields_lookup (cal_value (soup_get_text body))
                (splat_value (soup_get_text body))
                (tread_value (soup_get_text body)) r) as (Hc & _).
    rewrite Hc. unfold cal_value. rewrite Hs. reflexivity.
Qed.

End LastDigits.

Lemma calories_keep_last_four_digits_witness :
  let body := "Burned: 12345 CALORIES BURNED today" in
  search IGNORECASE cal_pattern
    (soup_get_text (Platform := Sample.platform) body)
  = Some ([("1", "2345")], " today")
  /\ (parse_workout_data (P := Sample.platform) body = inl ValueError
      \/ exists data,
           parse_workout_data (P := Sample.platform) body = inr data
           /\ data !! "calories" = Some (PInt 2345)).
Proof.
  apply (calories_keep_last_four_digits (P := Sample.platform)
           "Burned: 12345 CALORIES BURNED today" "Burned: " "12345" " today").
  - vm_compute; reflexivity.
  - vm_compute; reflexivity.
  - vm_compute; reflexivity.
  - simpl; lia.
Defined.

(** ** The field extractor: the case of the letters *)

Lemma lower_lower c : Chr.lower (Chr.lower c) = Chr.lower c.
Proof.
  apply ascii_eqb_true.
  exact (all_ascii_spec
           (fun c => Chr.eqb (Chr.lower (Chr.lower c)) (Chr.lower c))
           ltac:(vm_compute; reflexivity) c).
Qed.

Lemma upper_lower c : Chr.upper (Chr.lower c) = Chr.upper c.
Proof.
  apply ascii_eqb_true.
  exact (all_ascii_spec
           (fun c => Chr.eqb (Chr.upper (Chr.lower c)) (Chr.upper c))
           ltac:(vm_compute; reflexivity) c).
Qed.

Lemma lower_or_upper c : Chr.lower c = c \/ Chr.upper c = c.
Proof.
  pose proof (all_ascii_spec
                (fun c => Chr.eqb (Chr.lower c) c || Chr.eqb (Chr.upper c) c)
                ltac:(vm_compute; reflexivity) c) as H.
  simpl in H. apply orb_true_iff in H as [H|H];
    apply ascii_eqb_true in H; auto.
Qed.

Lemma is_word_lower c : Chr.is_word (Chr.lower c) = Chr.is_word c.
Proof.
  pose proof (all_ascii_spec
                (fun c => Bool.eqb (Chr.is_word (Chr.lower c)) (Chr.is_word c))
                ltac:(vm_compute; reflexivity) c) as H.
  now apply Bool.eqb_prop in H.
Qed.

Lemma newline_lower c : Chr.eqb (Chr.lower c) "010" = Chr.eqb c "010".
Proof.
  pose proof (all_ascii_spec
                (fun c => Bool.eqb (Chr.eqb (Chr.lower c) "010")
                                   (Chr.eqb c "010"))
                ltac:(vm_compute; reflexivity) c) as H.
  now apply Bool.eqb_prop in H.
Qed.

(** Under IGNORECASE a character is in a set if and only if its lower-case
    form is. *)
Lemma cset_mem_lower cs c :
  cset_mem true cs (Chr.lower c) = cset_mem true cs c.
Proof.
  unfold cset_mem. simpl. rewrite lower_lower, upper_lower.
  destruct (lower_or_upper c) as [E|E].
  - rewrite E. destruct (cset_has cs c), (cset_has cs (Chr.upper c));
      reflexivity.
  - rewrite E.
    destruct (cset_has cs c), (cset_has cs (Chr.lower c)); reflexivity.
Qed.

Lemma low_cons c s : low (String c s) = String (Chr.lower c) (low s).
Proof. reflexivity. Qed.

Lemma length_low : forall s, String.length (low s) = String.length s.
Proof. induction s as [|c s IH]; simpl; [reflexivity | now f_equal]. Qed.

Lemma take_low : forall n s, Str.take n (low s) = low (Str.take n s).
Proof.
  induction n as [|n IH]; intros [|c s]; try reflexivity.
  rewrite low_cons. simpl Str.take. rewrite low_cons. f_equal. apply IH.
Qed.

Lemma low_low : forall s, low (low s) = low s.
Proof.
  induction s as [|c s IH]; [reflexivity|].
  rewrite !low_cons, lower_lower. now f_equal.
Qed.

Lemma at_boundary_low prev s :
  at_boundary (option_map Chr.lower prev) (low s) = at_boundary prev s.
Proof.
  unfold at_boundary. f_equal.
  - destruct prev; simpl; [apply is_word_lower | reflexivity].
  - destruct s; simpl; [reflexivity | apply is_word_lower].
Qed.

Lemma at_end_low s : at_end (low s) = at_end s.
Proof.
  destruct s as [|c [|d s]]; try reflexivity.
  simpl. apply newline_lower.
Qed.

Section LowerCase.

Lemma rep_low mem k' k :
  (forall c, mem (Chr.lower c) = mem c) ->
  alike k' k ->
  forall s lo hi prev,
    rep mem lo hi k' (option_map Chr.lower prev) (low s)
    = option_map low_found (rep mem lo hi k prev s).
Proof.
  intros Hmem Hk.
  induction s as [|c s IH]; intros lo hi prev.
  - simpl. destruct lo; [apply (Hk prev "") | reflexivity].
  - rewrite low_cons. simpl rep. rewrite Hmem.
    assert (Hstop : match lo with
                    | 0 => k' (option_map Chr.lower prev)
                              (String (Chr.lower c) (low s))
                    | S _ => None
                    end
                    = option_map low_found
                        match lo with
                        | 0 => k prev (String c s)
                        | S _ => None
                        end).
    { destruct lo; [apply (Hk prev (String c s)) | reflexivity]. }
    destruct (mem c && can_more hi); [|exact Hstop].
    pose proof (IH (Nat.pred lo) (one_less hi) (Some c)) as Hrec.
    change (option_map Chr.lower (Some c)) with (Some (Chr.lower c)) in Hrec.
    rewrite Hrec.
    destruct (rep mem (Nat.pred lo) (one_less hi) k (Some c) s);
      [reflexivity | exact Hstop].
Qed.

Lemma rmatch_low : forall r,
  case_blind r = true ->
  forall k' k,
    (forall caps, alike (k' (low_caps caps)) (k caps)) ->
    forall caps,
      alike (rmatch true r k' (low_caps caps)) (rmatch true r k caps).
Proof.
  induction r as [|cs|cs lo hi|r1 IH1 r2 IH2|r1 IH1 r2 IH2|name r IH| | |ic r IH];
    intros Hb k' k Hk caps prev s; simpl in Hb.
  - apply Hk.
  - destruct s as [|c s]; [reflexivity|].
    rewrite low_cons. simpl rmatch. rewrite cset_mem_lower.
    destruct (cset_mem true cs c); [|reflexivity].
    apply (Hk caps (Some c) s).
  - simpl rmatch.
    apply rep_low; [intros c; apply cset_mem_lower | apply Hk].
  - apply andb_true_iff in Hb as [Hb1 Hb2]. simpl rmatch.
    apply (IH1 Hb1 (rmatch true r2 k') (rmatch true r2 k)).
    intros caps'. now apply IH2.
  - apply andb_true_iff in Hb as [Hb1 Hb2]. simpl rmatch.
    rewrite (IH1 Hb1 k' k Hk caps prev s).
    destruct (rmatch true r1 k caps prev s); [reflexivity|].
    apply (IH2 Hb2 k' k Hk caps prev s).
  - simpl rmatch.
    apply (IH Hb
             (fun caps' prev' s' =>
                k' ((name, Str.take (String.length (low s)
                                     - String.length s') (low s))
                      :: caps') prev' s')
             (fun caps' prev' s' =>
                k ((name, Str.take (String.length s - String.length s') s)
                     :: caps') prev' s')).
    intros caps' prev' s'. rewrite !length_low, take_low.
    apply (Hk ((name, Str.take (String.length s - String.length s') s)
                 :: caps') prev' s').
  - simpl rmatch. rewrite at_boundary_low.
    destruct (at_boundary prev s); [apply Hk | reflexivity].
  - simpl rmatch. rewrite at_end_low.
    destruct (at_end s); [apply Hk | reflexivity].
  - discriminate Hb.
Qed.

Lemma match_here_low r prev s :
  case_blind r = true ->
  match_here true r (option_map Chr.lower prev) (low s)
  = option_map low_found (match_here true r prev s).
Proof.
  intros Hb. unfold match_here.
  apply (rmatch_low r Hb accept accept (fun caps prev' s' => eq_refl) []).
Qed.

Lemma search_from_low r :
  case_blind r = true ->
  forall s prev,
    search_from true r (option_map Chr.lower prev) (low s)
    = option_map low_found (search_from true r prev s).
Proof.
  intros Hb. induction s as [|c s IH]; intros prev.
  - simpl search_from. change "" with (low "") at 1.
    rewrite match_here_low by assumption.
    now destruct (match_here true r prev "").
  - rewrite low_cons. simpl search_from.
    rewrite <- low_cons, match_here_low by assumption.
    destruct (match_here true r prev (String c s)); [reflexivity|].
    apply (IH (Some c)).
Qed.

Lemma search_low r s :
  case_blind r = true ->
  search true r (low s) = option_map low_found (search true r s).
Proof. intros Hb. apply (search_from_low r Hb s None). Qed.

End LowerCase.

Lemma lookup_low name : forall caps,
  lookup name (low_caps caps) = low (lookup name caps).
Proof.
  induction caps as [|[n v] caps IH]; [reflexivity|].
  simpl. destruct (String.eqb n name); [reflexivity | exact IH].
Qed.

Lemma group_low m name : group (low_found m) name = low (group m name).
Proof. apply lookup_low. Qed.

Lemma low_fixed p : forall s,
  (forall c, p c = true -> Chr.eqb (Chr.lower c) c = true) ->
  Str.all p s = true -> low s = s.
Proof.
  intros s Hp. induction s as [|c s IH]; intros H; [reflexivity|].
  simpl in H. apply andb_true_iff in H as [Hc Hs].
  rewrite low_cons, IH by assumption.
  now rewrite (ascii_eqb_true _ _ (Hp c Hc)).
Qed.

(** What the one group of the pattern captured has no letter in it. *)
Lemma capture_low pat body text m :
  only_group pat = Some ("1", body) ->
  (forall c, alphabet true body c = true -> Chr.eqb (Chr.lower c) c = true) ->
  search true pat text = Some m ->
  low (group m "1") = group m "1".
Proof.
  intros Hg Ha Hs.
  destruct (search_only_group true pat "1" body text m Hg Hs)
    as (u & Hm & Hu).
  unfold group. rewrite Hm. simpl.
  apply (low_fixed (alphabet true body)); [exact Ha|].
  eapply sem_alphabet; eauto.
Qed.

Lemma digits_have_no_case : forall c,
  alphabet true (RRep CDigit 2 (Some 4)) c = true ->
  Chr.eqb (Chr.lower c) c = true.
Proof. by_enumeration. Qed.

Lemma decimals_have_no_case : forall c,
  alphabet true
    (RSeq (RRep CDigit 1 None)
          (RSeq (RRep (CChar ".") 0 (Some 1)) (RRep CDigit 0 None))) c = true ->
  Chr.eqb (Chr.lower c) c = true.
Proof. by_enumeration. Qed.

Lemma digits_and_commas_have_no_case : forall c,
  alphabet true (RRep (CUnion CDigit (CChar ",")) 1 None) c = true ->
  Chr.eqb (Chr.lower c) c = true.
Proof. by_enumeration. Qed.

Section Values.

Variable text : string.

Lemma cal_value_low : cal_value (low text) = cal_value text.
Proof.
  unfold cal_value, IGNORECASE. rewrite search_low by reflexivity.
  destruct (search true cal_pattern text) as [m|] eqn:E; [|reflexivity].
  simpl option_map. cbv iota. rewrite group_low.
  now rewrite (capture_low cal_pattern _ text m eq_refl
                 digits_have_no_case E).
Qed.

Lemma splat_value_low : splat_value (low text) = splat_value text.
Proof.
  unfold splat_value, IGNORECASE. rewrite search_low by reflexivity.
  destruct (search true splat_pattern text) as [m|] eqn:E; [|reflexivity].
  simpl option_map. cbv iota. rewrite group_low.
  now rewrite (capture_low splat_pattern _ text m eq_refl
                 digits_have_no_case E).
Qed.

Lemma tread_value_low : tread_value (low text) = tread_value text.
Proof.
  unfold tread_value, IGNORECASE. rewrite search_low by reflexivity.
  destruct (search true tread_pattern text) as [m|] eqn:E; [|reflexivity].
  simpl option_map. cbv iota. rewrite group_low.
  now rewrite (capture_low tread_pattern _ text m eq_refl
                 decimals_have_no_case E).
Qed.

Lemma rower_value_low : rower_value (low text) = rower_value text.
Proof.
  unfold rower_value, IGNORECASE. rewrite search_low by reflexivity.
  destruct (search true rower_pattern text) as [m|] eqn:E; [|reflexivity].
  simpl option_map. cbv iota. cbv zeta. rewrite group_low.
  now rewrite (capture_low rower_pattern _ text m eq_refl
                 digits_and_commas_have_no_case E).
Qed.

End Values.

Section LetterCase.

Context {P : Platform}.

(** X17. The extractor does not look at the case of the letters: two
    texts that differ only in the case of letters A-Z give the same
    result, the same dict or the same error. *)
Theorem extraction_ignores_letter_case body1 body2 :
  low (soup_get_text body2) = low (soup_get_text body1) ->
  parse_workout_data body2 = parse_workout_data body1.
Proof.
  intros H. rewrite !parse_workout_data_eq.
  rewrite <- (rower_value_low (soup_get_text body2)),
          <- (cal_value_low (soup_get_text body2)),
          <- (splat_value_low (soup_get_text body2)),
          <- (tread_value_low (soup_get_text body2)).
  rewrite H.
  now rewrite rower_value_low, cal_value_low, splat_value_low,
              tread_value_low.
Qed.

End LetterCase.

Lemma extraction_ignores_letter_case_witness :
  parse_workout_data (P := Sample.platform)
    "674 calories burned 12 Splat Points"
  = parse_workout_data (P := Sample.platform)
      "674 CALORIES BURNED 12 SPLAT POINTS".
Proof.
  apply (extraction_ignores_letter_case (P := Sample.platform)
           "674 CALORIES BURNED 12 SPLAT POINTS"
           "674 calories burned 12 Splat Points").
  vm_compute; reflexivity.
Defined.

(** ** What is printed about an e-mail and about a row *)

Section Explained.

Context {P : Platform}.

Lemma parse_email_date_quiet msg dt out :
  parse_email_date msg = (Some dt, out) -> out = [].
Proof.
  unfold parse_email_date.
  destruct (h_date (hdr msg)) as [s|]; [|intros H; inversion H].
  destruct (is_empty s); [intros H; inversion H|].
  destruct (parsedate_to_datetime s); [|intros H; now inversion H].
  destruct (strptime _); intros H; now inversion H.
Qed.

Lemma get_email_body_quiet msg body out :
  get_email_body msg = (body, out) -> is_empty body = false -> out = [].
Proof.
  unfold get_email_body.
  destruct (is_multipart msg); [intros H; now inversion H|].
  destruct (decode_body msg); intros H; inversion H; subst;
    [discriminate | reflexivity].
Qed.

Lemma app_one_not_nil {A} (l : list A) x : l ++ [x] <> [].
Proof. destruct l; discriminate. Qed.

(** X18. [process_email] drops no e-mail silently, except on a fetch
    whose status is not OK: it prints nothing exactly when it returns a
    record or when the fetch answered with another status.  Every other
    rejection leaves at least one line. *)
Theorem process_email_explains_rejections mail email_id :
  snd (process_email mail email_id) = []
  <-> (exists r, fst (process_email mail email_id) = Some r)
      \/ (exists status msg,
            imap_fetch mail email_id = inr (status, msg)
            /\ String.eqb status "OK" = false).
Proof.
  unfold process_email, process_email_try.
  destruct (imap_fetch mail email_id) as [e|[status msg]].
  { simpl. split; [discriminate|].
    intros [[r H]|(s & m & H & _)]; discriminate H. }
  destruct (String.eqb status "OK") eqn:Hs; simpl negb; cbv iota.
  2:{ simpl. split; [|reflexivity]. intros _. right. eauto. }
  destruct (parse_email_date msg) as [[dt|] out1] eqn:Ed.
  2:{ simpl. split.
      - intros H. now apply app_one_not_nil in H.
      - intros [[r H]|(s & m & H & Hn)]; [discriminate H|].
        inversion H; subst. congruence. }
  apply parse_email_date_quiet in Ed. subst out1.
  destruct (decode_email_subject (Some (default "" (h_subject (hdr msg)))))
    as [e|subject].
  { simpl. split; [discriminate|].
    intros [[r H]|(s & m & H & Hn)]; [discriminate H|].
    inversion H; subst. congruence. }
  destruct (get_email_body msg) as [body out2] eqn:Eb.
  destruct (is_empty body) eqn:Hb.
  { simpl. split.
    - intros H. now apply app_one_not_nil in H.
    - intros [[r H]|(s & m & H & Hn)]; [discriminate H|].
      inversion H; subst. congruence. }
  apply get_email_body_quiet in Eb; [|exact Hb]. subst out2.
  destruct (parse_workout_data body) as [e|data].
  { simpl. split; [discriminate|].
    intros [[r H]|(s & m & H & Hn)]; [discriminate H|].
    inversion H; subst. congruence. }
  simpl. split; [|reflexivity]. intros _. left. eauto.
Qed.

End Explained.

Lemma outcome_lines_counts : forall os,
  List.length (List.filter is_inserted_line (List.flat_map outcome_lines os))
  = count is_inserted os
  /\ List.length (List.filter is_error_line (List.flat_map outcome_lines os))
     = count is_failed os
  /\ List.length (List.flat_map outcome_lines os)
     = count is_inserted os + count is_failed os.
Proof.
  unfold count. induction os as [|[d o] os (H1 & H2 & H3)];
    [repeat split|].
  destruct o; simpl; unfold is_inserted, is_failed in *; simpl;
    repeat split; lia.
Qed.

(** X19. What the sync prints agrees with what became of the records, in
    their order: the line "Inserted workout" with its date for each
    record inserted, the line "Error syncing workout" with its date and
    the error for each record on which a call to the store raised,
    nothing for a record skipped as a duplicate, and no other line.  So
    the number of "Inserted workout" lines is the first count, and every
    record whose sync raised has its error line, these records being
    among the skipped. *)
Theorem sync_log_matches_counts {St} (db : Store St) (st : St)
        (workouts : list (gmap string value)) :
  Forall has_date workouts ->
  let os := snd (outcomes db st workouts) in
  exists st' inserted skipped out,
    sync_to_supabase db st workouts = (st', inr (inserted, skipped), out)
    /\ out = List.flat_map outcome_lines os
    /\ List.length (List.filter is_inserted_line out) = inserted
    /\ List.length (List.filter is_error_line out) = count is_failed os
    /\ count is_failed os <= skipped
    /\ List.length out
       = List.length (List.filter is_inserted_line out)
         + List.length (List.filter is_error_line out).
Proof.
  intros H os. unfold sync_to_supabase.
  rewrite (sync_loop_outcomes db workouts st 0 0 H). fold os.
  destruct (outcome_lines_counts os) as (H1 & H2 & H3).
  eexists _, _, _, _. split; [reflexivity|]. split; [reflexivity|].
  split; [exact H1|]. split; [exact H2|]. split; [simpl; lia|].
  rewrite H1, H2. exact H3.
Qed.

Lemma sync_log_matches_counts_witness :
  let os := snd (outcomes moody_store [PStr "2024-06-03"] three_records) in
  exists st' inserted skipped out,
    sync_to_supabase moody_store [PStr "2024-06-03"] three_records
    = (st', inr (inserted, skipped), out)
    /\ out = List.flat_map outcome_lines os
    /\ List.length (List.filter is_inserted_line out) = inserted
    /\ List.length (List.filter is_error_line out) = count is_failed os
    /\ count is_failed os <= skipped
    /\ List.length out
       = List.length (List.filter is_inserted_line out)
         + List.length (List.filter is_error_line out).
Proof.
  apply (sync_log_matches_counts moody_store [PStr "2024-06-03"]
           three_records).
  repeat constructor; eexists; reflexivity.
Defined.
